(** * ioBroker.benchmark: the measurement and orchestration engine

    A shallow embedding of the adapter class [Benchmark] (the main module,
    which imports [./lib/allTests] and [./lib/helper]): the statistics
    helpers, the event-loop-lag sampler, the resource sampler, the test
    scheduler [runTests] and the message handler [onMessage], followed by the
    properties the specification states about them and by further
    properties of the same code.  The message handler of the earlier
    revision of the main module is embedded as [legacy_onMessage] and
    compared with the current one.

    Numbers.  Two embeddings are used.  In the scheduler and the message
    handler a JavaScript number is a [num]: an exact rational ([Qc]) or one
    of the three special values NaN, +Infinity, -Infinity; the rounding
    error of an operation and the sign of zero play no role in what is
    stated there.  What depends on how a number is stored, the value of
    [round] and the finiteness of a quotient, is stated about [Binary64]:
    the statistics helpers over IEEE 754 doubles, every operation rounded
    to the nearest double.

    Asynchrony.  The adapter runs on one cooperative thread.  Every [await]
    of the source is a suspension point; the model records at each of them
    what a concurrently scheduled sampler would observe, and lets the
    samplers fire there.  While the scheduler is suspended in an epoch of a
    workload, the workload works on the host and the secondaries report:
    these events are given by the environment and take place at the
    suspension.  A run started by the message handler is not awaited: it
    goes as far as its first [await] before the handler goes on. *)

From Stdlib Require Import QArith Qcanon Qround Qabs Lia.
From Stdlib Require SpecFloat.
From stdpp Require Import base numbers list strings gmap pretty.

Local Open Scope Z_scope.
Local Open Scope string_scope.
Local Open Scope list_scope.

(** ** JavaScript numbers *)

Inductive num : Type :=
  | Fin (q : Qc)
  | PInf
  | NInf
  | NaN.

Definition qz (z : Z) : Qc := Q2Qc (inject_Z z).
Definition qfrac (a : Z) (b : positive) : Qc := Q2Qc (a # b).
Definition qnat (n : nat) : Qc := qz (Z.of_nat n).

Definition js_neg (x : num) : num :=
  match x with
  | Fin a => Fin (- a)%Qc
  | PInf => NInf
  | NInf => PInf
  | NaN => NaN
  end.

Definition js_add (x y : num) : num :=
  match x, y with
  | NaN, _ | _, NaN => NaN
  | Fin a, Fin b => Fin (a + b)%Qc
  | PInf, NInf | NInf, PInf => NaN
  | PInf, _ | _, PInf => PInf
  | NInf, _ | _, NInf => NInf
  end.

Definition js_sub (x y : num) : num := js_add x (js_neg y).

(** Sign of a number that is not NaN: [Lt], [Eq] or [Gt] with respect to 0. *)
Definition js_sign (x : num) : option comparison :=
  match x with
  | Fin a => Some (a ?= 0)%Qc
  | PInf => Some Gt
  | NInf => Some Lt
  | NaN => None
  end.

Definition signed_inf (s t : comparison) : num :=
  match s, t with
  | Eq, _ | _, Eq => NaN
  | Gt, Gt | Lt, Lt => PInf
  | _, _ => NInf
  end.

Definition js_mul (x y : num) : num :=
  match x, y with
  | Fin a, Fin b => Fin (a * b)%Qc
  | _, _ =>
      match js_sign x, js_sign y with
      | Some s, Some t => signed_inf s t
      | _, _ => NaN
      end
  end.

(** [x / y].  Division of a finite number by zero gives an infinity of the
    sign of the dividend, and [0 / 0] is NaN. *)
Definition js_div (x y : num) : num :=
  match x, y with
  | NaN, _ | _, NaN => NaN
  | Fin a, Fin b =>
      if decide (b = 0%Qc) then
        match (a ?= 0)%Qc with Eq => NaN | Gt => PInf | Lt => NInf end
      else Fin (a / b)%Qc
  | Fin _, (PInf | NInf) => Fin 0%Qc
  | (PInf | NInf), (PInf | NInf) => NaN
  | PInf, Fin b => if decide (b < 0)%Qc then NInf else PInf
  | NInf, Fin b => if decide (b < 0)%Qc then PInf else NInf
  end.

(** [Math.round]: the nearest integer, a tie going towards +Infinity. *)
Definition Math_round (x : num) : num :=
  match x with
  | Fin a => Fin (qz (Qfloor (a + qfrac 1 2)%Qc))
  | other => other
  end.

(** [Math.max] of two arguments. *)
Definition Math_max (x y : num) : num :=
  match x, y with
  | NaN, _ | _, NaN => NaN
  | PInf, _ | _, PInf => PInf
  | NInf, z | z, NInf => z
  | Fin a, Fin b => if decide (a < b)%Qc then Fin b else Fin a
  end.

(** [x !== 0] on numbers: NaN and the infinities differ from 0. *)
Definition js_neq_zero (x : num) : bool :=
  match x with
  | Fin a => if decide (a = 0%Qc) then false else true
  | _ => true
  end.

(** Truthiness of a number, as used by [x || d]: 0 and NaN are falsy. *)
Definition js_truthy (x : num) : bool :=
  match x with
  | Fin a => if decide (a = 0%Qc) then false else true
  | NaN => false
  | _ => true
  end.

Definition js_or (x d : num) : num := if js_truthy x then x else d.

(** ** JavaScript numbers as they are stored

    The binary64 format of IEEE 754, with every operation rounded to the
    nearest double, a tie going to the even mantissa.  The statistics
    helpers are embedded a second time over it; the properties of [round]
    and of the two [actionsPerSecond] values that depend on how a number is
    stored are stated about this embedding. *)

Module Binary64.

Import SpecFloat.

Definition prec : Z := 53.
Definition emax : Z := 1024.

Definition f64 : Type := spec_float.

Definition add : f64 → f64 → f64 := SFadd prec emax.
Definition sub : f64 → f64 → f64 := SFsub prec emax.
Definition mul : f64 → f64 → f64 := SFmul prec emax.
Definition div : f64 → f64 → f64 := SFdiv prec emax.
Definition sqrt : f64 → f64 := SFsqrt prec emax.

(** The double of an integer literal and of the quotient of two. *)
Definition of_Z (z : Z) : f64 := binary_normalize prec emax z 0 false.
Definition dec (n d : Z) : f64 := div (of_Z n) (of_Z d).

(** The number that a finite double stands for; 0 for the others. *)
Definition value (x : f64) : Q :=
  match x with
  | S754_finite s m e =>
      if (0 <=? e)%Z then inject_Z (cond_Zopp s (Zpos m) * 2 ^ e)
      else cond_Zopp s (Zpos m) # Z.to_pos (2 ^ (- e))
  | _ => 0%Q
  end.

(** [Math.round]: NaN, the infinities, the zeros and the doubles without
    fractional bits are returned as they are; any other double goes to the
    nearest integer, a tie towards +Infinity, and to -0 when that integer
    is 0 and the argument negative.  [m * 2 ^ e] with [e < 0] is rounded
    as [floor ((2 m + 2 ^ -e) / 2 ^ (1 - e))]. *)
Definition Math_round (x : f64) : f64 :=
  match x with
  | S754_finite s m e =>
      if (0 <=? e)%Z then x
      else
        let k := (2 * cond_Zopp s (Zpos m) + 2 ^ (- e)) / 2 ^ (1 - e) in
        if (k =? 0)%Z then S754_zero s else of_Z k
  | _ => x
  end.

(** [Math.round(number * 100) / 100] *)
Definition round (number : f64) : f64 :=
  div (Math_round (mul number (of_Z 100))) (of_Z 100).

(** [arr.reduce((partialSum, x) => partialSum + x, 0) / arr.length] *)
Definition calcMean (arr : list f64) : f64 :=
  let sum := foldl (λ partialSum x, add partialSum x) (S754_zero false) arr in
  div sum (of_Z (Z.of_nat (length arr))).

Definition calcStd (arr : list f64) : f64 :=
  let mean := calcMean arr in
  let sqDiffs := (λ value, let diff := sub value mean in mul diff diff) <$> arr in
  let avgSqDiff := calcMean sqDiffs in
  sqrt avgSqDiff.

(** [x !== 0]: both zeros equal 0, NaN does not. *)
Definition neq_zero (x : f64) : bool := negb (SFeqb x (S754_zero false)).

(** [timeStd] and [actionsPerSecondStd] of a workload, as [runTests]
    computes them from [config.iterations] and [times[activeTestName]]. *)
Definition timeStd (times : list f64) : f64 := round (calcStd times).

Definition actionsPerSecondStd (iterations : f64) (times : list f64) : f64 :=
  if neq_zero (timeStd times) then round (div iterations (timeStd times))
  else S754_zero false.

(** Rounding to two decimals with ties away from zero, as the
    specification words it: the magnitude of the number is rounded half up
    at the second decimal and the sign is put back; the result is the
    double of that decimal. *)
Definition round_half_away (x : f64) : f64 :=
  match x with
  | S754_finite s m e =>
      dec (cond_Zopp s (Qfloor (Qabs (value x) * inject_Z 100 + (1 # 2)))) 100
  | _ => x
  end.

Definition is_finite (x : f64) : bool :=
  match x with
  | S754_finite _ _ _ | S754_zero _ => true
  | _ => false
  end.

End Binary64.

(** A concrete square root on the rationals, correct to six decimals,
    used where a statement is evaluated on explicit numbers. *)
Definition sqrt6 (q : Qc) : Qc :=
  qfrac (Z.sqrt (Qfloor (q * qz 1000000000000)%Qc)) 1000000.

(** ** Values carried by messages

    The payload of a message is free-form.  Arrays are arrays of numbers,
    the only kind the adapter exchanges. *)

#[local] Unset Elimination Schemes.
Inductive jsval : Type :=
  | VUndefined
  | VNull
  | VBool (b : bool)
  | VNum (n : num)
  | VStr (s : string)
  | VArr (xs : list num)
  | VObj (fields : list (string * jsval)).
#[local] Set Elimination Schemes.

(** [typeof v === 'object'], which holds of [null] too. *)
Definition typeof_is_object (v : jsval) : bool :=
  match v with
  | VNull | VArr _ | VObj _ => true
  | _ => false
  end.

Fixpoint field_lookup (k : string) (fields : list (string * jsval)) : jsval :=
  match fields with
  | [] => VUndefined
  | (k', v) :: rest => if decide (k' = k) then v else field_lookup k rest
  end.

(** The property read [v.k] for a name [k] that no primitive and no array
    defines.  [None] is the TypeError raised on [null] and [undefined]. *)
Definition get_prop (v : jsval) (k : string) : option jsval :=
  match v with
  | VUndefined | VNull => None
  | VObj fields => Some (field_lookup k fields)
  | _ => Some VUndefined
  end.

(** ** Objects and states of the host *)

Record Common : Type := mkCommon {
  c_name : string;
  c_enabled : option bool;
  c_read : option bool;
  c_write : option bool;
  c_role : option string;
  c_type : option string
}.

Record IoObject : Type := mkIoObject {
  o_type : string;
  o_common : option Common;
  o_native : jsval
}.

Definition set_enabled (v : bool) (c : Common) : Common :=
  mkCommon (c_name c) (Some v) (c_read c) (c_write c) (c_role c) (c_type c).

(** [obj.common.enabled = v] on an object that has a [common]. *)
Definition with_enabled (v : bool) (o : IoObject) : IoObject :=
  mkIoObject (o_type o) (set_enabled v <$> o_common o) (o_native o).

(** [value?.common?.enabled] as a condition. *)
Definition enabled_truthy (o : IoObject) : bool :=
  match o_common o with
  | Some c => match c_enabled c with Some true => true | _ => false end
  | None => false
  end.

Record RequestedMonitoringEntry : Type := mkEntry {
  e_time : list num;
  e_cpuStats : list num;
  e_memStats : list num;
  e_eventLoopLags : list num
}.

(** The ten scalar fields of a [SummaryState]. *)
Record Stats : Type := mkStats {
  timeMean : num;
  timeStd : num;
  cpuMean : num;
  cpuStd : num;
  memMean : num;
  memStd : num;
  eventLoopLagMean : num;
  eventLoopLagStd : num;
  actionsPerSecondMean : num;
  actionsPerSecondStd : num
}.

(** [SummaryState]: the scalar fields and the optional [secondaries].  The
    adapter builds one level of nesting only. *)
Record SummaryState : Type := mkSummary {
  own : Stats;
  secondaries : option (gmap string Stats)
}.

Inductive StateVal : Type :=
  | SNum (n : num)
  | SSummary (s : SummaryState).

Record State : Type := mkState {
  val : StateVal;
  ack : bool
}.

(** An inbound message and an outbound [sendTo]. *)
Record Message : Type := mkMessage {
  from : string;
  command : string;
  message : jsval;
  callback : jsval
}.

Record Sent : Type := mkSent {
  s_to : string;
  s_command : string;
  s_payload : jsval;
  s_callback : option jsval
}.

Record Config : Type := mkConfig {
  iterations : num;
  epochs : nat;
  secondaryMode : bool;
  isolatedRun : bool
}.

(** ** Suspension points

    One constructor per awaited call of the source, with the argument
    that identifies it. *)
Inductive Point : Type :=
  | PGetObjectView
  | PSetForeignObject (id : string)
  | PGetForeignObject (id : string)
  | PSetObjectNotExists (id : string)
  | PSetForeignObjectNotExists (id : string)
  | PPrepare (w : string) (j : nat)
  | PExecute (w : string) (j : nat)
  | PCleanUp (w : string) (j : nat)
  | PWait (w : string) (j : nat)
  | PSetState (id : string)
  | PDelState (id : string)
  | PSetObject (id : string)
  | PDelObject (id : string)
  | PSendTo (target cmd : string).

(** What a sampler does when it fires: one iteration of [monitorStats]
    with the probe's answer, or one call of the lag callback. *)
Inductive Tick : Type :=
  | StatTick (cpu memory : num)
  | LagTick (lag : num).

(** What else happens while the scheduler is suspended in an epoch of a
    workload.  The workload's [prepare()], [execute()] and [cleanUp()]
    belong to the test classes, which work on the host through the
    adapter: they write and delete objects and states and send messages.
    The secondaries answer with 'requestedMonitoring' reports, which
    [onMessage] handles while the scheduler waits. *)
Inductive Event : Type :=
  | ObjectWritten (id : string) (o : IoObject)
  | ObjectDeleted (id : string)
  | StateWritten (id : string) (s : State)
  | StateDeleted (id : string)
  | MessageSent (m : Sent)
  | ReportReceived (sender : string) (payload callback : jsval).

(** The environment of a run: which awaited calls reject, which sampler
    ticks fire while the adapter is suspended at a point, and the value
    [parseFloat(process.hrtime(timeStart).join('.'))] of each epoch;
    [hrtime] and [stopwatch] are the clock reading taken by
    'startMeasuring' and the elapsed time computed by 'stopMeasuring';
    [happens] lists, in order, the events of a suspension inside an epoch
    (the three phases of the workload and the cooldown). *)
Record Env : Type := mkEnv {
  rejects : Point → bool;
  fires : Point → list Tick;
  elapsed : string → nat → num;
  hrtime : num;
  stopwatch : num;
  happens : Point → list Event
}.

(** ** The adapter instance

    The fields of class [Benchmark], the part of the host it talks to
    (object store, state store, outbound messages), the runs it has
    started without awaiting them, and the log of what was observable at
    each suspension point. *)
Record Benchmark : Type := mkBenchmark {
  namespace : string;
  config : Config;
  activeTest : string;
  memStats : gmap string (list num);
  cpuStats : gmap string (list num);
  restartInstances : option (list string);
  monitoringActive : bool;
  internalEventLoopLags : gmap string (list num);
  requestedMonitoring : gmap string RequestedMonitoringEntry;
  requestedMonitoringStartTime : option num;
  objects : gmap string IoObject;
  states : gmap string State;
  outbox : list Sent;
  detached : list (list string);
  observed : list (Point * string)
}.

Definition set_config (v : Config) (b : Benchmark) : Benchmark :=
  mkBenchmark (namespace b) v (activeTest b) (memStats b) (cpuStats b)
    (restartInstances b) (monitoringActive b) (internalEventLoopLags b)
    (requestedMonitoring b) (requestedMonitoringStartTime b) (objects b)
    (states b) (outbox b) (detached b) (observed b).

Definition set_activeTest (v : string) (b : Benchmark) : Benchmark :=
  mkBenchmark (namespace b) (config b) v (memStats b) (cpuStats b)
    (restartInstances b) (monitoringActive b) (internalEventLoopLags b)
    (requestedMonitoring b) (requestedMonitoringStartTime b) (objects b)
    (states b) (outbox b) (detached b) (observed b).

Definition set_memStats (v : gmap string (list num)) (b : Benchmark) : Benchmark :=
  mkBenchmark (namespace b) (config b) (activeTest b) v (cpuStats b)
    (restartInstances b) (monitoringActive b) (internalEventLoopLags b)
    (requestedMonitoring b) (requestedMonitoringStartTime b) (objects b)
    (states b) (outbox b) (detached b) (observed b).

Definition set_cpuStats (v : gmap string (list num)) (b : Benchmark) : Benchmark :=
  mkBenchmark (namespace b) (config b) (activeTest b) (memStats b) v
    (restartInstances b) (monitoringActive b) (internalEventLoopLags b)
    (requestedMonitoring b) (requestedMonitoringStartTime b) (objects b)
    (states b) (outbox b) (detached b) (observed b).

Definition set_restartInstances (v : option (list string)) (b : Benchmark) : Benchmark :=
  mkBenchmark (namespace b) (config b) (activeTest b) (memStats b) (cpuStats b)
    v (monitoringActive b) (internalEventLoopLags b)
    (requestedMonitoring b) (requestedMonitoringStartTime b) (objects b)
    (states b) (outbox b) (detached b) (observed b).

Definition set_monitoringActive (v : bool) (b : Benchmark) : Benchmark :=
  mkBenchmark (namespace b) (config b) (activeTest b) (memStats b) (cpuStats b)
    (restartInstances b) v (internalEventLoopLags b)
    (requestedMonitoring b) (requestedMonitoringStartTime b) (objects b)
    (states b) (outbox b) (detached b) (observed b).

Definition set_internalEventLoopLags (v : gmap string (list num)) (b : Benchmark) : Benchmark :=
  mkBenchmark (namespace b) (config b) (activeTest b) (memStats b) (cpuStats b)
    (restartInstances b) (monitoringActive b) v
    (requestedMonitoring b) (requestedMonitoringStartTime b) (objects b)
    (states b) (outbox b) (detached b) (observed b).

Definition set_requestedMonitoring (v : gmap string RequestedMonitoringEntry)
    (b : Benchmark) : Benchmark :=
  mkBenchmark (namespace b) (config b) (activeTest b) (memStats b) (cpuStats b)
    (restartInstances b) (monitoringActive b) (internalEventLoopLags b)
    v (requestedMonitoringStartTime b) (objects b)
    (states b) (outbox b) (detached b) (observed b).

Definition set_requestedMonitoringStartTime (v : option num) (b : Benchmark) : Benchmark :=
  mkBenchmark (namespace b) (config b) (activeTest b) (memStats b) (cpuStats b)
    (restartInstances b) (monitoringActive b) (internalEventLoopLags b)
    (requestedMonitoring b) v (objects b)
    (states b) (outbox b) (detached b) (observed b).

Definition set_objects (v : gmap string IoObject) (b : Benchmark) : Benchmark :=
  mkBenchmark (namespace b) (config b) (activeTest b) (memStats b) (cpuStats b)
    (restartInstances b) (monitoringActive b) (internalEventLoopLags b)
    (requestedMonitoring b) (requestedMonitoringStartTime b) v
    (states b) (outbox b) (detached b) (observed b).

Definition set_states (v : gmap string State) (b : Benchmark) : Benchmark :=
  mkBenchmark (namespace b) (config b) (activeTest b) (memStats b) (cpuStats b)
    (restartInstances b) (monitoringActive b) (internalEventLoopLags b)
    (requestedMonitoring b) (requestedMonitoringStartTime b) (objects b)
    v (outbox b) (detached b) (observed b).

Definition set_outbox (v : list Sent) (b : Benchmark) : Benchmark :=
  mkBenchmark (namespace b) (config b) (activeTest b) (memStats b) (cpuStats b)
    (restartInstances b) (monitoringActive b) (internalEventLoopLags b)
    (requestedMonitoring b) (requestedMonitoringStartTime b) (objects b)
    (states b) v (detached b) (observed b).

Definition set_detached (v : list (list string)) (b : Benchmark) : Benchmark :=
  mkBenchmark (namespace b) (config b) (activeTest b) (memStats b) (cpuStats b)
    (restartInstances b) (monitoringActive b) (internalEventLoopLags b)
    (requestedMonitoring b) (requestedMonitoringStartTime b) (objects b)
    (states b) (outbox b) v (observed b).

Definition set_observed (v : list (Point * string)) (b : Benchmark) : Benchmark :=
  mkBenchmark (namespace b) (config b) (activeTest b) (memStats b) (cpuStats b)
    (restartInstances b) (monitoringActive b) (internalEventLoopLags b)
    (requestedMonitoring b) (requestedMonitoringStartTime b) (objects b)
    (states b) (outbox b) (detached b) v.

(** The instance as the constructor leaves it. *)
Definition new_Benchmark (ns : string) (cfg : Config)
    (objs : gmap string IoObject) (sts : gmap string State) : Benchmark :=
  mkBenchmark ns cfg "none" ∅ ∅ None false ∅ ∅ None objs sts [] [] [].

(** ** A state and exception monad for the asynchronous methods

    An [async] method either returns, rejects ([Thrown]) or never settles
    ([Diverged]); in each case the instance is left in some state. *)
Inductive result (A : Type) : Type :=
  | Done (a : A)
  | Thrown
  | Diverged.
Arguments Done {A} a.
Arguments Thrown {A}.
Arguments Diverged {A}.

Definition M (A : Type) : Type := Benchmark → Benchmark * result A.

Definition ret {A} (a : A) : M A := λ b, (b, Done a).

Definition bind {A B} (c : M A) (k : A → M B) : M B := λ b,
  match c b with
  | (b', Done a) => k a b'
  | (b', Thrown) => (b', Thrown)
  | (b', Diverged) => (b', Diverged)
  end.

Notation "x <- c ;; k" := (bind c (λ x, k))
  (at level 100, c at next level, right associativity).
Notation "c ;; k" := (bind c (λ _, k))
  (at level 100, right associativity).

Definition throw {A} : M A := λ b, (b, Thrown).
Definition get_ {A} (f : Benchmark → A) : M A := λ b, (b, Done (f b)).
Definition modify (f : Benchmark → Benchmark) : M unit := λ b, (f b, Done tt).

(** [for (const x of xs) body(x)] *)
Fixpoint for_each {A} (xs : list A) (body : A → M unit) : M unit :=
  match xs with
  | [] => ret tt
  | x :: rest => body x ;; for_each rest body
  end.

(** ** Explicit inputs *)

(** An environment in which nothing rejects; the samplers fire three
    times during every [execute()] and once during every [prepare()],
    epoch [j] takes [j] seconds, and nothing else happens. *)
Definition calm_env : Env :=
  mkEnv (λ _, false)
    (λ p, match p with
          | PExecute _ _ =>
              [StatTick (Fin (qz 10)) (Fin (qz 100)); LagTick (Fin (qz 1));
               StatTick (Fin (qz 20)) (Fin (qz 200))]
          | PPrepare _ _ => [StatTick (Fin (qz 99)) (Fin (qz 99))]
          | _ => []
          end)
    (λ _ j, Fin (qnat j)) (Fin (qz 0)) (Fin (qz 3)) (λ _, []).

(** The same, except that [execute()] of the first epoch of 'idle'
    rejects. *)
Definition failing_execute_env : Env :=
  mkEnv (λ p, match p with
              | PExecute w j => bool_decide (w = "idle") && bool_decide (j = 1%nat)
              | _ => false
              end)
    (fires calm_env) (elapsed calm_env) (hrtime calm_env) (stopwatch calm_env)
    (happens calm_env).

(** The same as [calm_env], except that writing the object
    'benchmark.1.test.0' rejects. *)
Definition failing_store_env : Env :=
  mkEnv (λ p, match p with
              | PSetObject id => bool_decide (id = "benchmark.1.test.0")
              | _ => false
              end)
    (fires calm_env) (elapsed calm_env) (hrtime calm_env) (stopwatch calm_env)
    (happens calm_env).

Definition instanceObject (enabled : bool) : IoObject :=
  mkIoObject "instance"
    (Some (mkCommon "instance" (Some enabled) None None None None)) (VObj []).

(** A registry with the adapter's own instance, three enabled instances
    and one that is disabled. *)
Definition registry : gmap string IoObject :=
  list_to_map
    [("system.adapter.benchmark.0", instanceObject true);
     ("system.adapter.admin.0", instanceObject true);
     ("system.adapter.web.0", instanceObject true);
     ("system.adapter.javascript.0", instanceObject true);
     ("system.adapter.history.0", instanceObject false)].

Definition primary : Benchmark :=
  new_Benchmark "benchmark.0" (mkConfig (Fin (qz 100)) 2 false false) ∅ ∅.

Definition isolated : Benchmark :=
  new_Benchmark "benchmark.0" (mkConfig (Fin (qz 100)) 2 false true) registry ∅.

Definition secondary : Benchmark :=
  new_Benchmark "benchmark.1" (mkConfig (Fin (qz 100)) 2 true false) ∅ ∅.

(** A primary between the set-up of 'idle' and its first epoch: the
    three series of the workload exist and are empty. *)
Definition idle_ready : Benchmark :=
  mkBenchmark "benchmark.0" (mkConfig (Fin (qz 100)) 2 false false) "none"
    {["idle" := []]} {["idle" := []]} None true {["idle" := []]} ∅ None ∅ ∅ [] [] [].

Definition null_objects_message : Message :=
  mkMessage "system.adapter.benchmark.0" "objects" VNull (VStr "cb1").

Definition set_objects_message (n : Z) : Message :=
  mkMessage "system.adapter.benchmark.0" "objects"
    (VObj [("cmd", VStr "set"); ("n", VNum (Fin (qz n)))]) (VStr "cb2").

Definition report_message (sender : string) : Message :=
  mkMessage sender "requestedMonitoring"
    (VObj [("cpuStats", VArr [Fin (qz 10); Fin (qz 20)]);
           ("time", VArr [Fin (qz 4)])])
    (VStr "cb3").

(** As [calm_env]; in addition, during every [execute()] of 'idle' the
    workload writes an object of its own and sends a message and two
    secondaries report, and during every [cleanUp()] of 'idle' the object
    is deleted again. *)
Definition busy_env : Env :=
  mkEnv (λ _, false)
    (fires calm_env) (elapsed calm_env) (hrtime calm_env) (stopwatch calm_env)
    (λ p, match p with
          | PExecute w _ =>
              if decide (w = "idle") then
                [ObjectWritten "benchmark.0.idle.probe" (instanceObject false);
                 MessageSent (mkSent "system.adapter.benchmark.1" "startMeasuring"
                                (VObj []) None);
                 ReportReceived "system.adapter.benchmark.1"
                   (message (report_message "system.adapter.benchmark.1")) (VStr "cb3");
                 ReportReceived "system.adapter.benchmark.2"
                   (message (report_message "system.adapter.benchmark.2")) (VStr "cb3")]
              else []
          | PCleanUp w _ =>
              if decide (w = "idle") then [ObjectDeleted "benchmark.0.idle.probe"]
              else []
          | _ => []
          end).

(** An environment in which the query of the instance view and the
    creation of the channel of 'idle' reject. *)
Definition failing_start_env : Env :=
  mkEnv (λ p, match p with
              | PGetObjectView => true
              | PSetObjectNotExists id => bool_decide (id = "benchmark.0.idle")
              | _ => false
              end)
    (fires calm_env) (elapsed calm_env) (hrtime calm_env) (stopwatch calm_env)
    (happens calm_env).

(** 'objects' with [{cmd: 'set', n: Infinity}]. *)
Definition forever_message : Message :=
  mkMessage "system.adapter.benchmark.0" "objects"
    (VObj [("cmd", VStr "set"); ("n", VNum PInf)]) (VStr "cb8").

Section Benchmark.

(** [Math.sqrt] on the non-negative rationals.  Its values are irrational
    in general, so the function is left abstract; everything below holds
    for every choice of it. *)
Variable sqrtq : Qc → Qc.

Definition Math_sqrt (x : num) : num :=
  match x with
  | Fin a => if decide (a < 0)%Qc then NaN else Fin (sqrtq a)
  | PInf => PInf
  | NInf => NaN
  | NaN => NaN
  end.

(** ** Statistics ([calcMean], [calcStd], [round]) *)

(** [arr.reduce((partialSum, x) => partialSum + x, 0) / arr.length] *)
Definition calcMean (arr : list num) : num :=
  let sum := foldl (λ partialSum x, js_add partialSum x) (Fin 0%Qc) arr in
  js_div sum (Fin (qnat (length arr))).

Definition calcStd (arr : list num) : num :=
  let mean := calcMean arr in
  let sqDiffs := (λ value, let diff := js_sub value mean in js_mul diff diff) <$> arr in
  let avgSqDiff := calcMean sqDiffs in
  Math_sqrt avgSqDiff.

(** [Math.round(number * 100) / 100] *)
Definition round (number : num) : num :=
  js_div (Math_round (js_mul number (Fin (qz 100)))) (Fin (qz 100)).

(** [./lib/helper] is not part of the sources at hand: the auxiliary
    objects it exports are a parameter, each with its [_id]. *)
Variable testObjects : list (string * IoObject).

Variable env : Env.

(** The registry of [./lib/allTests], in declaration order. *)
Definition allTests : list string :=
  ["setStates"; "statesSubscription"; "statesDeletion"; "idle";
   "objectsCreation"; "setStatesNonStrict"].

(** ** Samplers *)

(** [series[k].push(x)].  On a missing key the source raises a TypeError
    inside the sampler's own task; the series are left as they are. *)
Definition push_to (k : string) (x : num) (m : gmap string (list num))
    : gmap string (list num) :=
  match m !! k with
  | Some l => <[k := l ++ [x]]> m
  | None => m
  end.

(** The part of [monitorStats] that follows the probe, and the callback
    given to [measureEventLoopLag]: both append under the marker, and only
    when the marker is not 'none'. *)
Definition sampler_tick (t : Tick) (b : Benchmark) : Benchmark :=
  if decide (activeTest b = "none") then b
  else
    match t with
    | StatTick cpu memory =>
        match cpuStats b !! activeTest b with
        | None => b
        | Some _ =>
            set_memStats (push_to (activeTest b) memory (memStats b))
              (set_cpuStats (push_to (activeTest b) cpu (cpuStats b)) b)
        end
    | LagTick lag =>
        set_internalEventLoopLags
          (push_to (activeTest b) lag (internalEventLoopLags b)) b
    end.

(** State of one [measureEventLoopLag] chain: the closure variable
    [start], and whether a timer is pending. *)
Record LagSampler : Type := mkLagSampler {
  ls_start : num;
  ls_pending : bool
}.

(** [measureEventLoopLag(ms, cb)] called when the clock reads [now]. *)
Definition measureEventLoopLag (now : num) : LagSampler :=
  mkLagSampler now true.

(** The timer callback [check], fired when the clock reads [t]: the lag
    handed to [cb], and the chain afterwards. *)
Definition check (ms : num) (active : bool) (t : num) (s : LagSampler)
    : num * LagSampler :=
  (Math_max (Fin 0%Qc) (js_sub (js_sub t (ls_start s)) ms),
   mkLagSampler t active).

(** The lags reported over a sequence of timer expiries, each given with
    the clock reading and the value of [monitoringActive] at that time.
    Nothing fires once no timer is pending. *)
Fixpoint lags_reported (ms : num) (expiries : list (num * bool))
    (s : LagSampler) : list num :=
  match expiries with
  | [] => []
  | (t, active) :: rest =>
      if ls_pending s then
        let r := check ms active t s in
        r.1 :: lags_reported ms rest r.2
      else []
  end.

(** ** Awaited calls *)

(** Suspension at point [p]: the marker visible to the other tasks is
    logged, the samplers fire, and the awaited call settles. *)
Definition await (p : Point) : M unit := λ b,
  let b1 := set_observed (observed b ++ [(p, activeTest b)]) b in
  let b2 := foldl (λ acc t, sampler_tick t acc) b1 (fires env p) in
  (b2, if rejects env p then Thrown else Done tt).

Definition own_id (id : string) : M string :=
  get_ (λ b, namespace b +:+ "." +:+ id).

(** Rows of the view 'system'/'instance': the objects of type 'instance'. *)
Definition getObjectViewAsync : M (list (string * IoObject)) :=
  await PGetObjectView ;;
  get_ (λ b, filter (λ row, o_type row.2 = "instance") (map_to_list (objects b))).

Definition setForeignObjectAsync (id : string) (o : IoObject) : M unit :=
  await (PSetForeignObject id) ;;
  modify (λ b, set_objects (<[id := o]> (objects b)) b).

Definition getForeignObjectAsync (id : string) : M (option IoObject) :=
  await (PGetForeignObject id) ;;
  get_ (λ b, objects b !! id).

Definition insert_if_absent (id : string) (o : IoObject)
    (m : gmap string IoObject) : gmap string IoObject :=
  match m !! id with
  | Some _ => m
  | None => <[id := o]> m
  end.

Definition setForeignObjectNotExistsAsync (id : string) (o : IoObject) : M unit :=
  await (PSetForeignObjectNotExists id) ;;
  modify (λ b, set_objects (insert_if_absent id o (objects b)) b).

Definition setObjectNotExistsAsync (id : string) (o : IoObject) : M unit :=
  full <- own_id id ;;
  await (PSetObjectNotExists full) ;;
  modify (λ b, set_objects (insert_if_absent full o (objects b)) b).

Definition setObjectAsync (id : string) (o : IoObject) : M unit :=
  full <- own_id id ;;
  await (PSetObject full) ;;
  modify (λ b, set_objects (<[full := o]> (objects b)) b).

Definition delObjectAsync (id : string) : M unit :=
  full <- own_id id ;;
  await (PDelObject full) ;;
  modify (λ b, set_objects (delete full (objects b)) b).

Definition setStateAsync (id : string) (v : StateVal) (a : bool) : M unit :=
  full <- own_id id ;;
  await (PSetState full) ;;
  modify (λ b, set_states (<[full := mkState v a]> (states b)) b).

Definition delStateAsync (id : string) : M unit :=
  full <- own_id id ;;
  await (PDelState full) ;;
  modify (λ b, set_states (delete full (states b)) b).

(** [sendTo] hands the message to the transport and returns at once. *)
Definition sendTo (target cmd : string) (payload : jsval)
    (cb : option jsval) : M unit :=
  modify (λ b, set_outbox (outbox b ++ [mkSent target cmd payload cb]) b).

(** [sendToAsync] sends and then waits for the answer. *)
Definition sendToAsync (target cmd : string) (payload : jsval) : M unit :=
  sendTo target cmd payload None ;;
  await (PSendTo target cmd).

(** ** The start of a run *)

(** [config.iterations || 10000] and [config.epochs || 5]. *)
Definition defaults (c : Config) : Config :=
  mkConfig (js_or (iterations c) (Fin (qz 10000)))
    (if decide (epochs c = O) then 5%nat else epochs c)
    (secondaryMode c) (isolatedRun c).

(** The part of [runTests] that precedes its first [await].  A call
    [this.runTests(selected)] that is not awaited runs this far before the
    caller goes on: in an isolated run up to the query of the instance
    view, otherwise through the defaults, the reset of the series and the
    start of the samplers up to the creation of the first workload's
    channel; a run over no workload has no [await] at all and ends here. *)
Definition runTests_start (selectedTests : list string) : M unit :=
  isolated <- get_ (λ b, isolatedRun (config b)) ;;
  if isolated then modify (set_restartInstances (Some []))
  else
    modify (λ b, set_config (defaults (config b)) b) ;;
    modify (set_memStats ∅) ;;
    modify (set_cpuStats ∅) ;;
    modify (set_internalEventLoopLags ∅) ;;
    modify (set_requestedMonitoring ∅) ;;
    modify (set_monitoringActive true) ;;
    match selectedTests with
    | [] => modify (set_monitoringActive false)
    | w :: _ =>
        modify (λ b, set_cpuStats (<[w := []]> (cpuStats b)) b) ;;
        modify (λ b, set_memStats (<[w := []]> (memStats b)) b) ;;
        modify (λ b, set_internalEventLoopLags (<[w := []]> (internalEventLoopLags b)) b)
    end.

(** ** The message handler ([onMessage]) *)

(** [this.runTests(selected)] without [await]: the run goes as far as
    its first [await] and the handler goes on; the rest of the run
    proceeds on its own and is recorded in [detached]. *)
Definition spawn_runTests (selected : list string) : M unit :=
  runTests_start selected ;;
  modify (λ b, set_detached (detached b ++ [selected]) b).

(** The names that [allTests], an object literal, inherits from
    [Object.prototype]: reading one of them gives a truthy value. *)
Definition inherited : list string :=
  ["constructor"; "__proto__"; "hasOwnProperty"; "isPrototypeOf";
   "propertyIsEnumerable"; "toLocaleString"; "toString"; "valueOf";
   "__defineGetter__"; "__defineSetter__"; "__lookupGetter__";
   "__lookupSetter__"].

(** [Object.keys(selectedTests)] after
    [selectedTests[cmd] = allTests[cmd]]: the assignment to '__proto__'
    sets the prototype and adds no key. *)
Definition selected_keys (cmd : string) : list string :=
  if decide (cmd = "__proto__") then [] else [cmd].

Definition emptyEntry : RequestedMonitoringEntry := mkEntry [] [] [] [].

(** [typeof msg === 'object' && Array.isArray(msg[k])], then the spread
    of both arrays; [None] is the TypeError of reading [k] from [null]. *)
Definition merged (k : string) (msg : jsval) (old : list num) : option (list num) :=
  if typeof_is_object msg then
    match get_prop msg k with
    | None => None
    | Some (VArr xs) => Some (old ++ xs)
    | Some _ => Some old
    end
  else Some old.

(** One of the four guarded assignments to
    [this.requestedMonitoring[obj.from]]. *)
Definition mergeField (k : string) (sender : string) (msg : jsval)
    (get : RequestedMonitoringEntry → list num)
    (set : list num → RequestedMonitoringEntry → RequestedMonitoringEntry)
    : M unit := λ b,
  match requestedMonitoring b !! sender with
  | None => (b, Thrown)
  | Some e =>
      match merged k msg (get e) with
      | None => (b, Thrown)
      | Some l =>
          (set_requestedMonitoring (<[sender := set l e]> (requestedMonitoring b)) b,
           Done tt)
      end
  end.

Definition receiveMonitoring (obj : Message) : M unit :=
  modify (λ b,
    match requestedMonitoring b !! from obj with
    | Some _ => b
    | None => set_requestedMonitoring (<[from obj := emptyEntry]> (requestedMonitoring b)) b
    end) ;;
  mergeField "cpuStats" (from obj) (message obj) e_cpuStats
    (λ l e, mkEntry (e_time e) l (e_memStats e) (e_eventLoopLags e)) ;;
  mergeField "memStats" (from obj) (message obj) e_memStats
    (λ l e, mkEntry (e_time e) (e_cpuStats e) l (e_eventLoopLags e)) ;;
  mergeField "eventLoopLags" (from obj) (message obj) e_eventLoopLags
    (λ l e, mkEntry (e_time e) (e_cpuStats e) (e_memStats e) l) ;;
  mergeField "time" (from obj) (message obj) e_time
    (λ l e, mkEntry l (e_cpuStats e) (e_memStats e) (e_eventLoopLags e)).

(** Number of rounds of [for (let i = 0; i < n; i++)]; [None] when the
    loop has no last round. *)
Definition rounds (n : num) : option nat :=
  match n with
  | Fin q => Some (Z.to_nat (Qceiling q))
  | PInf => None
  | NInf | NaN => Some O
  end.

(** The counting loop.  With [n = Infinity] the handler never gets past
    the loop; the model reports [Diverged] at its entry. *)
Definition count_loop (n : num) (body : nat → M unit) : M unit :=
  match rounds n with
  | Some k => for_each (seq 0 k) body
  | None => λ b, (b, Diverged)
  end.

Definition testObject (i : nat) : IoObject :=
  mkIoObject "state"
    (Some (mkCommon (pretty i) None (Some true) (Some true)
             (Some "state") (Some "number")))
    (VObj []).

(** The payload check shared by 'objects' and 'states':
    [typeof msg === 'object'], then [msg.cmd] and [typeof msg.n]. *)
Definition bulk (msg : jsval) (on_set on_del : nat → M unit) : M unit :=
  if typeof_is_object msg then
    match get_prop msg "cmd", get_prop msg "n" with
    | Some (VStr cmd), Some (VNum n) =>
        if decide (cmd = "set") then count_loop n on_set
        else if decide (cmd = "del") then count_loop n on_del
        else ret tt
    | Some _, Some _ => ret tt
    | _, _ => throw
    end
  else ret tt.

Definition series_value (m : gmap string (list num)) : jsval :=
  match m !! "requestedMonitoring" with
  | Some l => VArr l
  | None => VUndefined
  end.

(** 'startMeasuring'.  The calls [monitorStats()] and
    [measureEventLoopLag(50, ...)] start the two samplers; what they do
    from then on is the ticks of the environment. *)
Definition startMeasuring : M unit :=
  modify (set_activeTest "requestedMonitoring") ;;
  modify (set_monitoringActive true) ;;
  modify (λ b, set_cpuStats (<["requestedMonitoring" := []]> (cpuStats b)) b) ;;
  modify (λ b, set_memStats (<["requestedMonitoring" := []]> (memStats b)) b) ;;
  modify (λ b, set_internalEventLoopLags
                 (<["requestedMonitoring" := []]> (internalEventLoopLags b)) b) ;;
  modify (set_requestedMonitoringStartTime (Some (hrtime env))).

Definition stopMeasuring : M unit :=
  modify (set_activeTest "none") ;;
  modify (set_monitoringActive false) ;;
  started <- get_ requestedMonitoringStartTime ;;
  match started with
  | Some _ =>
      report <- get_ (λ b,
        VObj [("eventLoopLags", series_value (internalEventLoopLags b));
              ("memStats", series_value (memStats b));
              ("cpuStats", series_value (cpuStats b));
              ("time", VArr [stopwatch env])]) ;;
      sendToAsync "benchmark.0" "requestedMonitoring" report
  | None => ret tt
  end ;;
  modify (λ b, set_internalEventLoopLags
                 (delete "requestedMonitoring" (internalEventLoopLags b)) b) ;;
  modify (λ b, set_memStats (delete "requestedMonitoring" (memStats b)) b) ;;
  modify (λ b, set_cpuStats (delete "requestedMonitoring" (cpuStats b)) b) ;;
  modify (set_requestedMonitoringStartTime None).

(** The branch taken when [config.secondaryMode] is false.  The test
    [allTests[obj.command]] holds for the six workloads and for the
    inherited names. *)
Definition onPrimaryMessage (obj : Message) : M unit :=
  if decide (command obj = "test") then spawn_runTests allTests
  else if decide (command obj ∈ allTests ++ inherited)
  then spawn_runTests (selected_keys (command obj))
  else if decide (command obj = "requestedMonitoring") then receiveMonitoring obj
  else ret tt.

(** The [switch] of the secondary mode. *)
Definition onSecondaryMessage (obj : Message) : M unit :=
  if decide (command obj = "objects") then
    bulk (message obj)
      (λ i, setObjectAsync ("test." +:+ pretty i) (testObject i))
      (λ i, delObjectAsync ("test." +:+ pretty i))
  else if decide (command obj = "states") then
    bulk (message obj)
      (λ i, setStateAsync ("test." +:+ pretty i) (SNum (Fin (qnat i))) true)
      (λ i, delStateAsync ("test." +:+ pretty i))
  else if decide (command obj = "startMeasuring") then startMeasuring
  else if decide (command obj = "stopMeasuring") then stopMeasuring
  else ret tt.

(** The acknowledgement: [this.sendTo(obj.from, obj.command, {}, obj.callback)]. *)
Definition acknowledge (obj : Message) : M unit :=
  sendTo (from obj) (command obj) (VObj []) (Some (callback obj)).

Definition onMessage (obj : Message) : M unit :=
  secondary <- get_ (λ b, secondaryMode (config b)) ;;
  (if negb secondary then onPrimaryMessage obj else onSecondaryMessage obj) ;;
  acknowledge obj.

(** ** Suspensions inside an epoch *)

(** One event.  A report is handled by [onMessage], which has no
    [await] on this path: it runs to its end before anything else does. *)
Definition occurs (e : Event) (b : Benchmark) : Benchmark :=
  match e with
  | ObjectWritten id o => set_objects (<[id := o]> (objects b)) b
  | ObjectDeleted id => set_objects (delete id (objects b)) b
  | StateWritten id s => set_states (<[id := s]> (states b)) b
  | StateDeleted id => set_states (delete id (states b)) b
  | MessageSent m => set_outbox (outbox b ++ [m]) b
  | ReportReceived sender payload cb =>
      (onMessage (mkMessage sender "requestedMonitoring" payload cb) b).1
  end.

(** A suspension of the scheduler inside an epoch: as [await], and the
    events of the environment take place before the awaited call
    settles. *)
Definition await_busy (p : Point) : M unit := λ b,
  let r := await p b in
  (foldl (λ acc e, occurs e acc) r.1 (happens env p), r.2).

(** ** The test scheduler ([runTests]) *)

(** Isolated run, first loop: stop every enabled instance except the
    adapter's own and remember its id. *)
Definition stopInstance (instance : string * IoObject) : M unit :=
  ns <- get_ namespace ;;
  if bool_decide (instance.1 ≠ "system.adapter." +:+ ns) && enabled_truthy instance.2
  then
    setForeignObjectAsync instance.1 (with_enabled false instance.2) ;;
    ids <- get_ restartInstances ;;
    match ids with
    | Some l => modify (set_restartInstances (Some (l ++ [instance.1])))
    | None => throw
    end
  else ret tt.

Definition stopInstances : M unit :=
  modify (set_restartInstances (Some [])) ;;
  instancesObj <- getObjectViewAsync ;;
  for_each instancesObj stopInstance.

(** Isolated run, last loop: read the current object and enable it. *)
Definition restartInstance (id : string) : M unit :=
  obj <- getForeignObjectAsync id ;;
  match obj with
  | Some o =>
      match o_common o with
      | Some _ => setForeignObjectAsync id (with_enabled true o)
      | None => ret tt
      end
  | None => ret tt
  end.

Definition channelObject (w : string) : IoObject :=
  mkIoObject "channel"
    (Some (mkCommon ("Test " +:+ w) None None None None None)) (VObj []).

Definition createTestObjects (w : string) : M unit :=
  ns <- get_ namespace ;;
  for_each testObjects (λ obj,
    setForeignObjectNotExistsAsync (ns +:+ "." +:+ w +:+ "." +:+ obj.1) obj.2).

(** [for (let j = 1; j <= epochs; j++)] with [n] rounds left; [times]
    is [times[activeTestName]].  [allTests[w]] is the constructor of the
    workload; its three phases are awaited in order.  For a name that is
    not a workload the construction, or the call of [prepare], raises. *)
Fixpoint epochLoop (w : string) (n j : nat) (times : list num) : M (list num) :=
  match n with
  | O => ret times
  | S n' =>
      (if decide (w ∈ allTests) then ret tt else throw) ;;
      await_busy (PPrepare w j) ;;
      modify (set_activeTest w) ;;
      await_busy (PExecute w j) ;;
      let timeEnd := elapsed env w j in
      modify (set_activeTest "none") ;;
      let times := times ++ [timeEnd] in
      await_busy (PCleanUp w j) ;;
      await_busy (PWait w j) ;;
      epochLoop w n' (S j) times
  end.

(** [this.series[w]] read as an array; a missing key makes [calcMean]
    raise. *)
Definition get_series (f : Benchmark → gmap string (list num)) (w : string)
    : M (list num) := λ b,
  match f b !! w with
  | Some l => (b, Done l)
  | None => (b, Thrown)
  end.

(** The per-secondary entry of the summary, [k] being
    [Object.keys(this.requestedMonitoring).length]. *)
Definition secondaryStats (its : num) (k : nat) (e : RequestedMonitoringEntry) : Stats :=
  let timeMean := round (calcMean (e_time e)) in
  let timeStd := round (calcStd (e_time e)) in
  mkStats timeMean timeStd
    (round (calcMean (e_cpuStats e))) (round (calcStd (e_cpuStats e)))
    (round (calcMean (e_memStats e))) (round (calcStd (e_memStats e)))
    (round (calcMean (e_eventLoopLags e))) (round (calcStd (e_eventLoopLags e)))
    (round (js_div (js_div its timeMean) (Fin (qnat k))))
    (if js_neq_zero timeStd
     then round (js_div (js_div its timeStd) (Fin (qnat k)))
     else Fin 0%Qc).

(** [Object.keys] of a record.  The order of the keys plays no role in
    what the loops below compute. *)
Definition object_keys {A} (m : gmap string A) : list string :=
  (map_to_list m).*1.

(** The loop over [Object.keys(this.requestedMonitoring)]. *)
Definition attachSecondaries (its : num)
    (rm : gmap string RequestedMonitoringEntry) : option (gmap string Stats) :=
  foldl (λ acc instance,
           match rm !! instance with
           | Some e =>
               Some (<[instance := secondaryStats its (length (object_keys rm)) e]>
                       (default ∅ acc))
           | None => acc
           end)
        None (object_keys rm).

(** The workload's own scalar fields. *)
Definition ownStats (its : num) (times cpu mem lags : list num) : Stats :=
  let timeMean := round (calcMean times) in
  let timeStd := round (calcStd times) in
  mkStats timeMean timeStd
    (round (calcMean cpu)) (round (calcStd cpu))
    (round (calcMean mem)) (round (calcStd mem))
    (round (calcMean lags)) (round (calcStd lags))
    (round (js_div its timeMean))
    (if js_neq_zero timeStd then round (js_div its timeStd) else Fin 0%Qc).

(** Reduction of the series of workload [w] and its persistence. *)
Definition reduceWorkload (w : string) (times : list num) : M unit :=
  let timeMean := round (calcMean times) in
  let timeStd := round (calcStd times) in
  setStateAsync (w +:+ ".timeMean") (SNum timeMean) true ;;
  setStateAsync (w +:+ ".timeStd") (SNum timeStd) true ;;
  cpu <- get_series cpuStats w ;;
  setStateAsync (w +:+ ".cpuMean") (SNum (round (calcMean cpu))) true ;;
  setStateAsync (w +:+ ".cpuStd") (SNum (round (calcStd cpu))) true ;;
  mem <- get_series memStats w ;;
  setStateAsync (w +:+ ".memMean") (SNum (round (calcMean mem))) true ;;
  setStateAsync (w +:+ ".memStd") (SNum (round (calcStd mem))) true ;;
  lags <- get_series internalEventLoopLags w ;;
  setStateAsync (w +:+ ".eventLoopLagMean") (SNum (round (calcMean lags))) true ;;
  setStateAsync (w +:+ ".eventLoopLagStd") (SNum (round (calcStd lags))) true ;;
  its <- get_ (λ b, iterations (config b)) ;;
  let stats := ownStats its times cpu mem lags in
  setStateAsync (w +:+ ".actionsPerSecondMean") (SNum (actionsPerSecondMean stats)) true ;;
  setStateAsync (w +:+ ".actionsPerSecondStd") (SNum (actionsPerSecondStd stats)) true ;;
  rm <- get_ requestedMonitoring ;;
  let summaryState := mkSummary stats (attachSecondaries its rm) in
  setStateAsync (w +:+ ".summary") (SSummary summaryState) true ;;
  modify (λ b, set_cpuStats (delete w (cpuStats b)) b) ;;
  modify (λ b, set_memStats (delete w (memStats b)) b) ;;
  modify (λ b, set_internalEventLoopLags (delete w (internalEventLoopLags b)) b) ;;
  modify (set_requestedMonitoring ∅).

(** One round of the loop over the selected workloads; [times] is the
    local record of the same name. *)
Definition runWorkload (w : string) (times : gmap string (list num))
    : M (gmap string (list num)) :=
  let times := <[w := []]> times in
  modify (λ b, set_cpuStats (<[w := []]> (cpuStats b)) b) ;;
  modify (λ b, set_memStats (<[w := []]> (memStats b)) b) ;;
  modify (λ b, set_internalEventLoopLags (<[w := []]> (internalEventLoopLags b)) b) ;;
  setObjectNotExistsAsync w (channelObject w) ;;
  createTestObjects w ;;
  n <- get_ (λ b, epochs (config b)) ;;
  series <- epochLoop w n 1 [] ;;
  let times := <[w := series]> times in
  reduceWorkload w series ;;
  ret times.

Fixpoint runWorkloads (ws : list string) (times : gmap string (list num))
    : M (gmap string (list num)) :=
  match ws with
  | [] => ret times
  | w :: rest => times' <- runWorkload w times ;; runWorkloads rest times'
  end.

(** [runTests(selectedTests)], [selectedTests] given by its keys.  The
    value returned is the local record [times] as it stands when the
    method returns; the source returns nothing.  Setting
    [monitoringActive] goes with the start of the two samplers, whose
    ticks are those of the environment. *)
Definition runTests (selectedTests : list string) : M (gmap string (list num)) :=
  isolated <- get_ (λ b, isolatedRun (config b)) ;;
  (if isolated then stopInstances else ret tt) ;;
  modify (λ b, set_config (defaults (config b)) b) ;;
  modify (set_memStats ∅) ;;
  modify (set_cpuStats ∅) ;;
  modify (set_internalEventLoopLags ∅) ;;
  modify (set_requestedMonitoring ∅) ;;
  modify (set_monitoringActive true) ;;
  times <- runWorkloads selectedTests ∅ ;;
  modify (set_monitoringActive false) ;;
  ids <- get_ restartInstances ;;
  match isolated, ids with
  | true, Some l => for_each l restartInstance
  | _, _ => ret tt
  end ;;
  ret times.

(** ** Auxiliary notions used by the statements *)

(** Finite clock readings, each with the value of [monitoringActive]
    when the timer expires. *)
Definition timed (expiries : list (Qc * bool)) : list (num * bool) :=
  (λ x, (Fin x.1, x.2)) <$> expiries.

(** The state in which [await p] leaves the instance. *)
Definition suspended (p : Point) (b : Benchmark) : Benchmark :=
  foldl (λ acc t, sampler_tick t acc)
    (set_observed (observed b ++ [(p, activeTest b)]) b) (fires env p).

(** What the marker has to be at a suspension point of the scheduler:
    the workload's name inside its [execute()], 'none' elsewhere. *)
Definition expected (p : Point) : string :=
  match p with
  | PExecute w _ => w
  | _ => "none"
  end.

Definition marker_ok (obs : list (Point * string)) : Prop :=
  ∀ p m, (p, m) ∈ obs → m = expected p.

(** Specification of a method by a precondition, a postcondition for
    the case that it returns, and one for the case that it rejects or
    never settles. *)
Definition triple {A} (P : Benchmark → Prop) (c : M A)
    (Q : A → Benchmark → Prop) (R : Benchmark → Prop) : Prop :=
  ∀ b, P b →
    match c b with
    | (b', Done a) => Q a b'
    | (b', _) => R b'
    end.

(** Two states that differ in the sample series only, and have the
    same keys there. *)
Definition same_but_samples (b b' : Benchmark) : Prop :=
  namespace b' = namespace b ∧ config b' = config b ∧
  activeTest b' = activeTest b ∧
  restartInstances b' = restartInstances b ∧
  monitoringActive b' = monitoringActive b ∧
  requestedMonitoring b' = requestedMonitoring b ∧
  requestedMonitoringStartTime b' = requestedMonitoringStartTime b ∧
  objects b' = objects b ∧ states b' = states b ∧ outbox b' = outbox b ∧
  detached b' = detached b ∧ observed b' = observed b ∧
  (∀ k, is_Some (cpuStats b' !! k) ↔ is_Some (cpuStats b !! k)) ∧
  (∀ k, is_Some (memStats b' !! k) ↔ is_Some (memStats b !! k)) ∧
  (∀ k, is_Some (internalEventLoopLags b' !! k)
        ↔ is_Some (internalEventLoopLags b !! k)).

(** [b'] differs from [b] at most in the parts that the events of an
    epoch reach: the two stores, the outbox and the reports received. *)
Definition same_but_host (b b' : Benchmark) : Prop :=
  namespace b' = namespace b ∧ config b' = config b ∧
  activeTest b' = activeTest b ∧
  memStats b' = memStats b ∧ cpuStats b' = cpuStats b ∧
  restartInstances b' = restartInstances b ∧
  monitoringActive b' = monitoringActive b ∧
  internalEventLoopLags b' = internalEventLoopLags b ∧
  requestedMonitoringStartTime b' = requestedMonitoringStartTime b ∧
  detached b' = detached b ∧ observed b' = observed b.

(** The numbers that the payload of a report holds under [k]: none
    when the payload is no object or holds no array there. *)
Definition reported (k : string) (msg : jsval) : list num :=
  default [] (merged k msg []).

(** The reports received, [rm], after one more report of [sender] with
    payload [msg] has been handled: the sender has an entry, and unless
    the payload is [null] each series of the entry is extended by what the
    payload holds for it. *)
Definition absorb (rm : gmap string RequestedMonitoringEntry)
    (sender : string) (msg : jsval) : gmap string RequestedMonitoringEntry :=
  let e := default emptyEntry (rm !! sender) in
  <[sender := match msg with
              | VNull => e
              | _ => mkEntry (e_time e ++ reported "time" msg)
                       (e_cpuStats e ++ reported "cpuStats" msg)
                       (e_memStats e ++ reported "memStats" msg)
                       (e_eventLoopLags e ++ reported "eventLoopLags" msg)
              end]> rm.

(** The reports among the events [evs], handled in order on top of [rm]. *)
Definition collected (evs : list Event)
    (rm : gmap string RequestedMonitoringEntry)
    : gmap string RequestedMonitoringEntry :=
  foldl (λ acc e, match e with
                  | ReportReceived sender payload _ => absorb acc sender payload
                  | _ => acc
                  end) rm evs.

(** The payloads of the reports of [s] among the events, in order. *)
Definition reports_of (s : string) (evs : list Event) : list jsval :=
  omap (λ e, match e with
             | ReportReceived sender payload _ =>
                 if decide (sender = s) then Some payload else None
             | _ => None
             end) evs.

(** The instances that report among the events, each named once. *)
Definition reporters (evs : list Event) : list string :=
  remove_dups
    (omap (λ e, match e with
                | ReportReceived sender _ _ => Some sender
                | _ => None
                end) evs).

(** What the reports with payloads [ps] hold under [k], in order. *)
Definition series_of (k : string) (ps : list jsval) : list num :=
  concat (reported k <$> ps).

(** An entry extended by the reports with payloads [ps]. *)
Definition extended (e : RequestedMonitoringEntry) (ps : list jsval)
    : RequestedMonitoringEntry :=
  mkEntry (e_time e ++ series_of "time" ps)
    (e_cpuStats e ++ series_of "cpuStats" ps)
    (e_memStats e ++ series_of "memStats" ps)
    (e_eventLoopLags e ++ series_of "eventLoopLags" ps).

(** The events of the [n] epochs of [w] that start with epoch [j], in
    the order in which the scheduler meets them. *)
Definition epoch_events (w : string) (j n : nat) : list Event :=
  concat ((λ i, happens env (PPrepare w i) ++ happens env (PExecute w i) ++
                happens env (PCleanUp w i) ++ happens env (PWait w i))
          <$> seq j n).

(** The instance after the events [evs]. *)
Definition after (evs : list Event) (b : Benchmark) : Benchmark :=
  foldl (λ acc e, occurs e acc) b evs.

(** The environment never writes or deletes the object [id]. *)
Definition left_alone (id : string) : Prop :=
  ∀ p, (∀ o, ObjectWritten id o ∉ happens env p) ∧ ObjectDeleted id ∉ happens env p.

(** The marker is 'none' and every observation logged so far is as
    expected. *)
Definition idle_ok (b : Benchmark) : Prop :=
  activeTest b = "none" ∧ marker_ok (observed b).

Definition log_ok (b : Benchmark) : Prop := marker_ok (observed b).

(** A method that leaves the marker as it found it, however it ends. *)
Definition keeps_marker {A} (c : M A) : Prop :=
  ∀ m, triple (λ b, activeTest b = m) c
         (λ _ b, activeTest b = m) (λ b, activeTest b = m).

(** The three sample series have an array under key [w]. *)
Definition has_series (w : string) (b : Benchmark) : Prop :=
  is_Some (cpuStats b !! w) ∧ is_Some (memStats b !! w) ∧
  is_Some (internalEventLoopLags b !! w).

(** [b'] has the configuration, the restart list and the series keys
    of [b]. *)
Definition frame_eq (b b' : Benchmark) : Prop :=
  config b' = config b ∧ restartInstances b' = restartInstances b ∧
  (∀ k, is_Some (cpuStats b' !! k) ↔ is_Some (cpuStats b !! k)) ∧
  (∀ k, is_Some (memStats b' !! k) ↔ is_Some (memStats b !! k)) ∧
  (∀ k, is_Some (internalEventLoopLags b' !! k)
        ↔ is_Some (internalEventLoopLags b !! k)).

Definition respects (I : Benchmark → Prop) : Prop :=
  ∀ b b', frame_eq b b' → I b → I b'.

(** The epoch count is [E] and the series of the workloads [ws] exist. *)
Definition running (E : nat) (ws : list string) (b : Benchmark) : Prop :=
  epochs (config b) = E ∧ ∀ w, w ∈ ws → has_series w b.

(** The epoch count is [E] and the restart list has been initialised. *)
Definition stopping (E : nat) (b : Benchmark) : Prop :=
  epochs (config b) = E ∧ is_Some (restartInstances b).

(** [times[w]] holds [E] entries. *)
Definition full_series (E : nat) (times : gmap string (list num)) (w : string) : Prop :=
  ∃ ts, times !! w = Some ts ∧ length ts = E.

(** The condition under which the first loop of an isolated run stops
    the instance of a row. *)
Definition to_stop (ns : string) (row : string * IoObject) : bool :=
  bool_decide (row.1 ≠ "system.adapter." +:+ ns) && enabled_truthy row.2.

(** The id of the adapter's own instance object. *)
Definition own_instance (ns : string) : string := "system.adapter." +:+ ns.

(** The rows of the instance view of an object store. *)
Definition instance_rows (objs : gmap string IoObject) : list (string * IoObject) :=
  filter (λ row, o_type row.2 = "instance") (map_to_list objs).

(** The messages sent since the outbox was [before] carry no callback:
    none of them answers an inbound message. *)
Definition no_reply_since (before : list Sent) (b : Benchmark) : Prop :=
  ∃ sent, outbox b = before ++ sent ∧ Forall (λ m, s_callback m = None) sent.

(** The handler reads a property of a [null] payload: it does so for
    'objects' and 'states' on a secondary and for 'requestedMonitoring' on
    a primary. *)
Definition reads_null (obj : Message) (b : Benchmark) : Prop :=
  message obj = VNull ∧
  if secondaryMode (config b)
  then command obj = "objects" ∨ command obj = "states"
  else command obj = "requestedMonitoring".

(** A secondary is asked to set or to delete Infinity entries. *)
Definition counts_forever (obj : Message) (b : Benchmark) : Prop :=
  secondaryMode (config b) = true ∧
  (command obj = "objects" ∨ command obj = "states") ∧
  (get_prop (message obj) "cmd" = Some (VStr "set")
   ∨ get_prop (message obj) "cmd" = Some (VStr "del")) ∧
  get_prop (message obj) "n" = Some (VNum PInf).

(** A payload of an 'objects' or 'states' message that asks for
    nothing: it is not an object, or its [cmd] is neither 'set' nor
    'del', or its [n] is not a number. *)
Definition malformed (msg : jsval) : Prop :=
  typeof_is_object msg = false ∨
  (∀ c, get_prop msg "cmd" = Some (VStr c) → c ≠ "set" ∧ c ≠ "del") ∨
  (∀ n, get_prop msg "n" ≠ Some (VNum n)).

(** The id under which the secondary writes its [i]-th test entry. *)
Definition test_id (ns : string) (i : nat) : string :=
  ns +:+ "." +:+ ("test." +:+ pretty i).

(** The values that a list of sampler ticks carries for each of the
    three series. *)
Definition cpu_of (ticks : list Tick) : list num :=
  omap (λ t, match t with StatTick cpu _ => Some cpu | LagTick _ => None end) ticks.

Definition mem_of (ticks : list Tick) : list num :=
  omap (λ t, match t with StatTick _ memory => Some memory | LagTick _ => None end) ticks.

Definition lag_of (ticks : list Tick) : list num :=
  omap (λ t, match t with LagTick lag => Some lag | StatTick _ _ => None end) ticks.

(** The part of the host that the instance talks to, and the reports
    it has received: what the events of an epoch reach. *)
Definition host (b : Benchmark) :=
  (objects b, states b, outbox b, requestedMonitoring b).

(** The three sample series. *)
Definition samples (b : Benchmark) :=
  (cpuStats b, memStats b, internalEventLoopLags b).

(** The fields of the instance that no sampler writes, no suspension
    logs and no event reaches. *)
Definition others (b : Benchmark) :=
  (namespace b, config b, restartInstances b, monitoringActive b,
   requestedMonitoringStartTime b, detached b).

(** The samples of one kind taken during the [execute()] of the [n]
    epochs of [w] that start with epoch [j]. *)
Definition execute_samples (kind : list Tick → list num) (w : string)
    (j n : nat) : list num :=
  concat ((λ i, kind (fires env (PExecute w i))) <$> seq j n).

(** The id of the state [w.field] of the adapter with namespace [ns]. *)
Definition state_id (ns w field : string) : string :=
  ns +:+ "." +:+ (w +:+ field).

(** The ten scalar states written next to the summary, each with the
    field of the summary it repeats. *)
Definition scalar_states : list (string * (Stats → num)) :=
  [(".timeMean", timeMean); (".timeStd", timeStd);
   (".cpuMean", cpuMean); (".cpuStd", cpuStd);
   (".memMean", memMean); (".memStd", memStd);
   (".eventLoopLagMean", eventLoopLagMean); (".eventLoopLagStd", eventLoopLagStd);
   (".actionsPerSecondMean", actionsPerSecondMean);
   (".actionsPerSecondStd", actionsPerSecondStd)].

(** A state at rest: the marker is 'none', the state store is [S] and
    the monitoring flag and the other fields that the reduction reads
    or writes are as given. *)
Definition at_rest (ns : string) (cfg : Config) (active : bool)
    (C Mm L : gmap string (list num))
    (RM : gmap string RequestedMonitoringEntry)
    (O : gmap string IoObject) (X : list Sent)
    (S : gmap string State) (b : Benchmark) : Prop :=
  activeTest b = "none" ∧ namespace b = ns ∧ config b = cfg ∧
  cpuStats b = C ∧ memStats b = Mm ∧ internalEventLoopLags b = L ∧
  requestedMonitoring b = RM ∧ objects b = O ∧ outbox b = X ∧ states b = S ∧
  monitoringActive b = active.

(** Between two [execute()] calls: the marker is 'none', and the
    configuration, the monitoring flag, the three series, the reports
    received and the namespace are as given. *)
Definition quiescent (ns : string) (cfg : Config) (active : bool)
    (C Mm L : gmap string (list num))
    (RM : gmap string RequestedMonitoringEntry) (b : Benchmark) : Prop :=
  activeTest b = "none" ∧ config b = cfg ∧ monitoringActive b = active ∧
  cpuStats b = C ∧ memStats b = Mm ∧ internalEventLoopLags b = L ∧
  requestedMonitoring b = RM ∧ namespace b = ns.

(** A method follows a relation on states when every state it can
    leave the instance in, however it ends, is related to the state it
    started from. *)
Definition follows {A} (Rel : Benchmark → Benchmark → Prop) (c : M A) : Prop :=
  ∀ b, Rel b (c b).1.

(** [b'] has the namespace, the restart list, the detached runs and
    the two mode switches of [b], and every object of [b] that the
    environment leaves alone, unchanged (it may have more). *)
Definition undisturbed (b b' : Benchmark) : Prop :=
  namespace b' = namespace b ∧ restartInstances b' = restartInstances b ∧
  detached b' = detached b ∧
  isolatedRun (config b') = isolatedRun (config b) ∧
  secondaryMode (config b') = secondaryMode (config b) ∧
  ∀ id o, left_alone id → objects b !! id = Some o → objects b' !! id = Some o.

(** The summary that a run with configuration [cfg] persists for the
    workload [w] when the reports [rm] have been received by the time of
    its reduction. *)
Definition persisted (cfg : Config) (w : string)
    (rm : gmap string RequestedMonitoringEntry) : State :=
  mkState
    (SSummary
       (mkSummary
          (ownStats (iterations cfg) (elapsed env w <$> seq 1 (epochs cfg))
             (execute_samples cpu_of w 1 (epochs cfg))
             (execute_samples mem_of w 1 (epochs cfg))
             (execute_samples lag_of w 1 (epochs cfg)))
          (attachSecondaries (iterations cfg) rm)))
    true.

(** The environment neither writes nor deletes the state [id] during
    the epochs of the workloads [ws]. *)
Definition state_left_alone (ws : list string) (id : string) : Prop :=
  ∀ v j p, v ∈ ws →
    p ∈ [PPrepare v j; PExecute v j; PCleanUp v j; PWait v j] →
    (∀ st, StateWritten id st ∉ happens env p) ∧ StateDeleted id ∉ happens env p.

(** If [b] has the namespace [ns], so has [b'], and the state [id] is
    in [b'] what it is in [b]. *)
Definition keeps_state (ns id : string) (b b' : Benchmark) : Prop :=
  namespace b = ns → namespace b' = ns ∧ states b' !! id = states b !! id.

(** The names of the eleven states of a workload, after the workload's
    name. *)
Definition state_fields : list string := ".summary" :: scalar_states.*1.

(** The instance when a run over [selectedTests], started from [b],
    reaches its first [await]. *)
Definition started (selectedTests : list string) (b : Benchmark) : Benchmark :=
  (runTests_start selectedTests b).1.

(** Lines 115 to 266 of [runTests]: the run without the two loops of
    an isolated run. *)
Definition measurement (selectedTests : list string)
    : M (gmap string (list num)) :=
  modify (λ b, set_config (defaults (config b)) b) ;;
  modify (set_memStats ∅) ;;
  modify (set_cpuStats ∅) ;;
  modify (set_internalEventLoopLags ∅) ;;
  modify (set_requestedMonitoring ∅) ;;
  modify (set_monitoringActive true) ;;
  times <- runWorkloads selectedTests ∅ ;;
  modify (set_monitoringActive false) ;;
  ret times.

(** The array under key [k] of an object payload, empty when the key
    is missing or holds something else. *)
Definition array_field (k : string) (fields : list (string * jsval)) : list num :=
  match field_lookup k fields with
  | VArr xs => xs
  | _ => []
  end.

(** The acknowledgement of a message, as an entry of the outbox. *)
Definition ack_of (obj : Message) : Sent :=
  mkSent (from obj) (command obj) (VObj []) (Some (callback obj)).

(** The number of leading expiries that find monitoring switched on. *)
Fixpoint leading_active (expiries : list (num * bool)) : nat :=
  match expiries with
  | (_, true) :: rest => S (leading_active rest)
  | _ => O
  end.

(** The payload [{cmd, n}] of a bulk request for [n] entries. *)
Definition bulk_payload (cmd : string) (n : nat) : jsval :=
  VObj [("cmd", VStr cmd); ("n", VNum (Fin (qnat n)))].

(** [b'] has the configuration and the namespace of [b]. *)
Definition same_setup (b b' : Benchmark) : Prop :=
  config b' = config b ∧ namespace b' = namespace b.

(** The instance after the samplers have fired [ticks] outside of any
    awaited call of the handler, as they do between two messages. *)
Definition ticked (ticks : list Tick) (b : Benchmark) : Benchmark :=
  foldl (λ acc t, sampler_tick t acc) b ticks.

(** The report that 'stopMeasuring' sends from the state [b]. *)
Definition report_of (b : Benchmark) : Sent :=
  mkSent "benchmark.0" "requestedMonitoring"
    (VObj [("eventLoopLags", series_value (internalEventLoopLags b));
           ("memStats", series_value (memStats b));
           ("cpuStats", series_value (cpuStats b));
           ("time", VArr [stopwatch env])])
    None.

(** ** The earlier revision of the message handler *)

(** Its payload check for 'objects' and 'states':
    [typeof msg === 'object' && msg.cmd === 'set' && typeof msg.n === 'number'];
    there is no 'del'. *)
Definition legacy_bulk (msg : jsval) (on_set : nat → M unit) : M unit :=
  if typeof_is_object msg then
    match get_prop msg "cmd", get_prop msg "n" with
    | Some (VStr cmd), Some (VNum n) =>
        if decide (cmd = "set") then count_loop n on_set else ret tt
    | Some _, Some _ => ret tt
    | _, _ => throw
    end
  else ret tt.

(** The handler of the earlier revision: it returns at once unless the
    instance is a secondary, and its [switch] has the two cases 'objects'
    and 'states'. *)
Definition legacy_onMessage (obj : Message) : M unit :=
  secondary <- get_ (λ b, secondaryMode (config b)) ;;
  if negb secondary then ret tt
  else
    (if decide (command obj = "objects") then
       legacy_bulk (message obj)
         (λ i, setObjectAsync ("test." +:+ pretty i) (testObject i))
     else if decide (command obj = "states") then
       legacy_bulk (message obj)
         (λ i, setStateAsync ("test." +:+ pretty i) (SNum (Fin (qnat i))) true)
     else ret tt) ;;
    acknowledge obj.

(** * Properties *)

(** ** Arithmetic helpers *)

Lemma js_neq_zero_false (x : num) : js_neq_zero x = false ↔ x = Fin 0%Qc.
Proof.
  destruct x as [a| | |]; simpl; try (split; discriminate).
  destruct (decide (a = 0%Qc)) as [->|Hne]; split; try done.
  intros [= ->]. done.
Qed.

(** ** Statistics *)

(** C8.  [calcMean] of the empty array is NaN, being [0 / 0], and so is
    [calcStd] of the empty array; both are total functions, so neither
    raises on empty input. *)
Theorem calcMean_calcStd_empty :
  calcMean [] = NaN ∧ calcStd [] = NaN ∧
  js_div (Fin 0%Qc) (Fin (qnat (length (@nil num)))) = NaN.
Proof. repeat split; vm_compute; reflexivity. Qed.

(** The integer [(2 a + d) / 2 d] is the one nearest to [a / d], the
    larger one of two that are equally near. *)
Lemma nearest_tie_up (a d : Z) :
  0 < d →
  let k := (2 * a + d) / (2 * d) in
  (inject_Z k - (1 # 2) <= a # Z.to_pos d)%Q ∧
  (a # Z.to_pos d < inject_Z k + (1 # 2))%Q.
Proof.
  intros Hd k.
  assert (H2d : 0 < 2 * d) by lia.
  pose proof (Z.mul_div_le (2 * a + d) (2 * d) H2d) as Hlo.
  pose proof (Z.mul_succ_div_gt (2 * a + d) (2 * d) H2d) as Hhi.
  fold k in Hlo, Hhi.
  unfold Qle, Qlt, Qminus, Qplus, Qopp, inject_Z. simpl.
  rewrite !Z2Pos.id by lia. split; nia.
Qed.

(** C4, as the code has it.  [round x] is computed on doubles: the
    product [p] of [x] and 100, rounded to the nearest double, goes through
    [Math.round], and the quotient of the result and 100 is rounded to the
    nearest double.  [Math.round] returns NaN, an infinity, a zero and a
    double without fractional bits as it is; for any other [p] it returns
    the double of the integer [k] with [k - 1/2 <= p < k + 1/2]: the
    nearest integer, a tie going to the larger one, towards +Infinity, for
    a negative [p] as for a positive one ([-0] when [k] is 0 and [p]
    negative). *)
Theorem round_nearest_ties_up (x : Binary64.f64) :
  let p := Binary64.mul x (Binary64.of_Z 100) in
  Binary64.round x
  = Binary64.div (Binary64.Math_round p) (Binary64.of_Z 100) ∧
  match p with
  | SpecFloat.S754_finite s m e =>
      if (0 <=? e)%Z then Binary64.Math_round p = p
      else
        ∃ k : Z,
          (inject_Z k - (1 # 2) <= Binary64.value p)%Q ∧
          (Binary64.value p < inject_Z k + (1 # 2))%Q ∧
          Binary64.Math_round p
          = (if (k =? 0)%Z then SpecFloat.S754_zero s else Binary64.of_Z k)
  | _ => Binary64.Math_round p = p
  end.
Proof.
  intros p. split; [reflexivity|]. clearbody p.
  destruct p as [s|s| |s m e]; try reflexivity.
  unfold Binary64.Math_round, Binary64.value.
  destruct (0 <=? e)%Z eqn:He; [reflexivity|].
  apply Z.leb_gt in He.
  set (sm := SpecFloat.cond_Zopp s (Z.pos m)).
  assert (Hd : 0 < 2 ^ (- e)) by (apply Z.pow_pos_nonneg; lia).
  assert (H2 : 2 ^ (1 - e) = 2 * 2 ^ (- e)).
  { replace (1 - e) with (Z.succ (- e)) by lia. by rewrite Z.pow_succ_r by lia. }
  rewrite H2. destruct (nearest_tie_up sm (2 ^ (- e)) Hd) as [Hlo Hhi].
  by exists ((2 * sm + 2 ^ (- e)) / (2 * 2 ^ (- e))).
Qed.

(** ** Summaries of the secondaries *)

Lemma elem_of_object_keys {A} (m : gmap string A) (k : string) :
  k ∈ object_keys m ↔ is_Some (m !! k).
Proof.
  unfold object_keys. rewrite list_elem_of_fmap. split.
  - intros ([k' x] & -> & Hin). apply elem_of_map_to_list in Hin. by exists x.
  - intros [x Hx]. exists (k, x). split; [done|]. by apply elem_of_map_to_list.
Qed.

Lemma length_object_keys {A} (m : gmap string A) :
  length (object_keys m) = size m.
Proof. unfold object_keys. by rewrite length_fmap, length_map_to_list. Qed.

(** The loop over the reporting instances, started on any part [ks] of
    the keys with any record [acc] built so far: a key of [ks] ends up
    with its own summary, every other key keeps what it had. *)
Lemma attach_loop (its : num) (rm : gmap string RequestedMonitoringEntry)
    (n : nat) (ks : list string) (acc : option (gmap string Stats)) (s : string) :
  (∀ k, k ∈ ks → is_Some (rm !! k)) →
  let step := λ (acc : option (gmap string Stats)) instance,
    match rm !! instance with
    | Some e => Some (<[instance := secondaryStats its n e]> (default ∅ acc))
    | None => acc
    end in
  default ∅ (foldl step acc ks) !! s
  = if decide (s ∈ ks) then secondaryStats its n <$> rm !! s
    else default ∅ acc !! s.
Proof.
  intros Hks step. revert acc. induction ks as [|k ks IH]; intros acc; simpl.
  - destruct (decide (s ∈ [])) as [Hin|_]; [by apply elem_of_nil in Hin|done].
  - rewrite IH by (intros k' Hk'; apply Hks; by right).
    destruct (Hks k) as [e He]; [by left|].
    unfold step at 1. rewrite He. simpl.
    destruct (decide (s ∈ ks)) as [Hin|Hnin].
    + rewrite decide_True by (by right). done.
    + destruct (decide (s = k)) as [->|Hne].
      * rewrite decide_True by (by left). by rewrite lookup_insert_eq, He.
      * rewrite decide_False by (rewrite elem_of_cons; tauto).
        by rewrite lookup_insert_ne.
Qed.

Lemma attach_loop_Some (its : num) (rm : gmap string RequestedMonitoringEntry)
    (n : nat) (ks : list string) (acc : option (gmap string Stats)) :
  (∀ k, k ∈ ks → is_Some (rm !! k)) → ks ≠ [] ∨ is_Some acc →
  let step := λ (acc : option (gmap string Stats)) instance,
    match rm !! instance with
    | Some e => Some (<[instance := secondaryStats its n e]> (default ∅ acc))
    | None => acc
    end in
  is_Some (foldl step acc ks).
Proof.
  intros Hks Hne step. revert acc Hne.
  induction ks as [|k ks IH]; intros acc Hne; simpl.
  - by destruct Hne.
  - apply IH; [intros k' Hk'; apply Hks; by right|].
    right. destruct (Hks k) as [e He]; [by left|].
    unfold step. by rewrite He.
Qed.

(** Every instance [s] that has an entry in [requestedMonitoring] when
    the summary is built gets [secondaries[s]], computed from its entry
    and the number of entries. *)
Lemma attachSecondaries_entry (its : num)
    (rm : gmap string RequestedMonitoringEntry) (s : string)
    (e : RequestedMonitoringEntry) :
  rm !! s = Some e →
  ∃ secs st,
    attachSecondaries its rm = Some secs ∧
    secs !! s = Some st ∧
    timeMean st = round (calcMean (e_time e)) ∧
    actionsPerSecondMean st
    = round (js_div (js_div its (timeMean st)) (Fin (qnat (size rm)))) ∧
    (size rm = 2%nat →
     actionsPerSecondMean st
     = round (js_div (js_div its (timeMean st)) (Fin (qz 2)))).
Proof.
  intros Hs.
  assert (Hks : ∀ k, k ∈ object_keys rm → is_Some (rm !! k))
    by (intros k; apply elem_of_object_keys).
  assert (Hin : s ∈ object_keys rm) by (apply elem_of_object_keys; eauto).
  destruct (attach_loop_Some its rm (length (object_keys rm)) (object_keys rm) None Hks)
    as [secs Hsecs].
  { left. intros Hnil. rewrite Hnil in Hin. by apply elem_of_nil in Hin. }
  pose proof (attach_loop its rm (length (object_keys rm)) (object_keys rm) None s Hks)
    as Hlook.
  simpl in Hlook, Hsecs. unfold attachSecondaries.
  rewrite Hsecs in Hlook |- *. simpl in Hlook.
  rewrite decide_True, Hs in Hlook by done. simpl in Hlook.
  eexists secs, _. split; [done|]. split; [exact Hlook|].
  rewrite length_object_keys. simpl. split; [done|]. split; [done|].
  intros ->. done.
Qed.

(** ** The event-loop-lag sampler *)

Lemma Math_max_0_Fin (x : Qc) :
  ∃ q, Math_max (Fin 0%Qc) (Fin x) = Fin q ∧ (0 <= q)%Qc ∧ (x <= q)%Qc ∧
       (q = 0%Qc ∨ q = x).
Proof.
  simpl. destruct (decide (0 < x)%Qc) as [Hlt|Hge].
  - exists x. repeat split; [by apply Qclt_le_weak|apply Qcle_refl|by right].
  - exists 0%Qc. repeat split; [apply Qcle_refl|by apply Qcnot_lt_le|by left].
Qed.

Lemma lags_reported_lookup (ms start : Qc) (pending : bool)
    (expiries : list (Qc * bool)) (i : nat) (lag : num) :
  lags_reported (Fin ms) (timed expiries) (mkLagSampler (Fin start) pending) !! i
    = Some lag →
  ∃ t prev,
    expiries.*1 !! i = Some t ∧ (start :: expiries.*1) !! i = Some prev ∧
    lag = Math_max (Fin 0%Qc) (Fin (t - prev - ms)%Qc).
Proof.
  revert start pending i.
  induction expiries as [|[t active] rest IH]; intros start pending i; simpl.
  - by rewrite lookup_nil.
  - destruct pending; simpl; [|by rewrite lookup_nil].
    destruct i as [|i]; simpl.
    + intros [= <-]. exists t, start. by repeat split.
    + intros Hi. destruct (IH t active i Hi) as (t' & prev & Ht' & Hprev & ->).
      exists t', prev. by repeat split.
Qed.

(** C5.  With a finite interval [ms] and finite clock readings, the
    [i]-th value handed to the callback is [max(0, t - prev - ms)], where
    [t] is the clock reading of the [i]-th expiry and [prev] that of the
    one before, or of the creation of the sampler for the first; it is a
    finite number and it is not negative. *)
Theorem lag_reported_spec (ms start : Qc) (expiries : list (Qc * bool))
    (i : nat) (lag : num) :
  lags_reported (Fin ms) (timed expiries) (measureEventLoopLag (Fin start)) !! i
    = Some lag →
  ∃ t prev q,
    expiries.*1 !! i = Some t ∧ (start :: expiries.*1) !! i = Some prev ∧
    lag = Math_max (Fin 0%Qc) (js_sub (js_sub (Fin t) (Fin prev)) (Fin ms)) ∧
    lag = Fin q ∧ (0 <= q)%Qc ∧ (t - prev - ms <= q)%Qc ∧
    (q = 0 ∨ q = t - prev - ms)%Qc.
Proof.
  intros Hi. unfold measureEventLoopLag in Hi.
  destruct (lags_reported_lookup _ _ _ _ _ _ Hi) as (t & prev & Ht & Hprev & ->).
  destruct (Math_max_0_Fin (t - prev - ms)%Qc) as (q & Hq & H0 & Hle & Hcase).
  exists t, prev, q. by repeat split.
Qed.

(** The chain goes on exactly as long as [monitoringActive] was true at
    the previous expiry: after an expiry that saw the flag false, no
    further value is reported. *)
Lemma lags_reported_stops (ms t : num) (s : LagSampler)
    (rest : list (num * bool)) :
  ls_pending s = true →
  lags_reported ms ((t, false) :: rest) s = [(check ms false t s).1].
Proof. intros Hp. simpl. rewrite Hp. simpl. by destruct rest as [|[??]?]. Qed.

(** ** Reasoning about the asynchronous methods *)

Lemma triple_ret {A} (a : A) (P : Benchmark → Prop) Q R :
  (∀ b, P b → Q a b) → triple P (ret a) Q R.
Proof. intros H b Hb. simpl. auto. Qed.

Lemma triple_bind {A B} (c : M A) (k : A → M B) P Q Q' R :
  triple P c Q R → (∀ a, triple (Q a) (k a) Q' R) →
  triple P (bind c k) Q' R.
Proof.
  intros Hc Hk b Hb. unfold bind. specialize (Hc b Hb).
  destruct (c b) as [b' [a| |]]; [|done|done]. by apply Hk.
Qed.

Lemma triple_weaken {A} (c : M A) (P P' : Benchmark → Prop) Q Q' R R' :
  triple P' c Q' R' → (∀ b, P b → P' b) → (∀ a b, Q' a b → Q a b) →
  (∀ b, R' b → R b) → triple P c Q R.
Proof.
  intros Hc HP HQ HR b Hb. specialize (Hc b (HP b Hb)).
  destruct (c b) as [b' [a| |]]; auto.
Qed.

Lemma triple_modify (f : Benchmark → Benchmark) (P : Benchmark → Prop) Q R :
  (∀ b, P b → Q tt (f b)) → triple P (modify f) Q R.
Proof. intros H b Hb. simpl. auto. Qed.

Lemma triple_get {A} (f : Benchmark → A) (P : Benchmark → Prop) Q R :
  (∀ b, P b → Q (f b) b) → triple P (get_ f) Q R.
Proof. intros H b Hb. simpl. auto. Qed.

Lemma triple_throw {A} (P : Benchmark → Prop) (Q : A → Benchmark → Prop) R :
  (∀ b, P b → R b) → triple P throw Q R.
Proof. intros H b Hb. simpl. auto. Qed.

Lemma await_eq (p : Point) (b : Benchmark) :
  await p b = (suspended p b, if rejects env p then Thrown else Done tt).
Proof. done. Qed.

Lemma triple_await (p : Point) (P : Benchmark → Prop) Q R :
  (∀ b, P b → Q tt (suspended p b) ∧ R (suspended p b)) →
  triple P (await p) Q R.
Proof.
  intros H b Hb. rewrite await_eq. destruct (H b Hb).
  by destruct (rejects env p).
Qed.

Lemma triple_for_each {A} (xs : list A) (body : A → M unit)
    (I : Benchmark → Prop) R :
  (∀ x, x ∈ xs → triple I (body x) (λ _, I) R) →
  triple I (for_each xs body) (λ _, I) R.
Proof.
  induction xs as [|x xs IH]; intros Hbody; simpl.
  - by apply triple_ret.
  - eapply triple_bind; [apply Hbody; by left|].
    intros []. apply IH. intros y Hy. apply Hbody. by right.
Qed.

(** *** What a suspension leaves unchanged *)

Lemma push_to_is_Some (k k' : string) (x : num) (m : gmap string (list num)) :
  is_Some (push_to k x m !! k') ↔ is_Some (m !! k').
Proof.
  unfold push_to. destruct (m !! k) as [l|] eqn:Hk; [|done].
  destruct (decide (k = k')) as [<-|Hne].
  - rewrite lookup_insert_eq, Hk. split; eauto.
  - by rewrite lookup_insert_ne.
Qed.

Lemma same_but_samples_refl (b : Benchmark) : same_but_samples b b.
Proof. by repeat split. Qed.

Lemma same_but_samples_trans (b1 b2 b3 : Benchmark) :
  same_but_samples b1 b2 → same_but_samples b2 b3 → same_but_samples b1 b3.
Proof.
  unfold same_but_samples.
  intros (?&?&?&?&?&?&?&?&?&?&?&?&Hc1&Hm1&Hl1) (?&?&?&?&?&?&?&?&?&?&?&?&Hc2&Hm2&Hl2).
  repeat split; try congruence.
  all: intros Hk; first [by apply Hc1, Hc2, Hk | by apply Hc2, Hc1, Hk
    | by apply Hm1, Hm2, Hk | by apply Hm2, Hm1, Hk
    | by apply Hl1, Hl2, Hk | by apply Hl2, Hl1, Hk].
Qed.

Lemma sampler_tick_frame (t : Tick) (b : Benchmark) :
  same_but_samples b (sampler_tick t b).
Proof.
  unfold sampler_tick. destruct (decide _); [apply same_but_samples_refl|].
  destruct t as [cpu mem|lag].
  - destruct (cpuStats b !! activeTest b); [|apply same_but_samples_refl].
    repeat split; simpl; try done; intros Hk;
      first [by apply push_to_is_Some in Hk | by apply push_to_is_Some].
  - repeat split; simpl; try done; intros Hk;
      first [by apply push_to_is_Some in Hk | by apply push_to_is_Some].
Qed.

Lemma ticks_frame (ts : list Tick) (b : Benchmark) :
  same_but_samples b (foldl (λ acc t, sampler_tick t acc) b ts).
Proof.
  revert b. induction ts as [|t ts IH]; intros b; simpl.
  - apply same_but_samples_refl.
  - eapply same_but_samples_trans; [apply sampler_tick_frame|apply IH].
Qed.

Lemma suspended_frame (p : Point) (b : Benchmark) :
  same_but_samples (set_observed (observed b ++ [(p, activeTest b)]) b)
    (suspended p b).
Proof. apply ticks_frame. Qed.

(** ** Reports and the other events of an epoch *)

Lemma onMessage_eq (obj : Message) (b : Benchmark) :
  onMessage obj b
  = bind (if negb (secondaryMode (config b))
          then onPrimaryMessage obj else onSecondaryMessage obj)
         (λ _, acknowledge obj) b.
Proof. done. Qed.

Lemma merged_reported (k : string) (msg : jsval) (old : list num) :
  msg ≠ VNull → merged k msg old = Some (old ++ reported k msg).
Proof.
  intros Hnull. unfold reported, merged.
  destruct msg as [| | | | |xs|fields]; simpl; try done;
    try (by rewrite app_nil_r).
  destruct (field_lookup k fields); simpl; by rewrite ?app_nil_r.
Qed.

Lemma set_requestedMonitoring_id (b : Benchmark) :
  set_requestedMonitoring (requestedMonitoring b) b = b.
Proof. by destruct b. Qed.

Lemma mergeField_reported k sender msg get set (e : RequestedMonitoringEntry)
    (b : Benchmark) :
  msg ≠ VNull → requestedMonitoring b !! sender = Some e →
  mergeField k sender msg get set b
  = (set_requestedMonitoring
       (<[sender := set (get e ++ reported k msg) e]> (requestedMonitoring b)) b,
     Done tt).
Proof. intros Hnull He. unfold mergeField. by rewrite He, merged_reported. Qed.

(** What [receiveMonitoring] does, for every payload. *)
Lemma receiveMonitoring_absorb (obj : Message) (b : Benchmark) :
  receiveMonitoring obj b
  = (set_requestedMonitoring
       (absorb (requestedMonitoring b) (from obj) (message obj)) b,
     match message obj with VNull => Thrown | _ => Done tt end).
Proof.
  unfold receiveMonitoring, absorb.
  set (e := default emptyEntry (requestedMonitoring b !! from obj)).
  set (b0 := match requestedMonitoring b !! from obj with
             | Some _ => b
             | None => set_requestedMonitoring
                         (<[from obj := emptyEntry]> (requestedMonitoring b)) b
             end).
  assert (He : requestedMonitoring b0 !! from obj = Some e).
  { subst b0 e. destruct (requestedMonitoring b !! from obj) eqn:Hlook; simpl.
    - done.
    - by rewrite lookup_insert_eq. }
  assert (Hb0 : ∀ m, set_requestedMonitoring (<[from obj := m]> (requestedMonitoring b0)) b0
                     = set_requestedMonitoring (<[from obj := m]> (requestedMonitoring b)) b).
  { intros m. subst b0. destruct (requestedMonitoring b !! from obj); [done|].
    unfold set_requestedMonitoring. simpl. by rewrite insert_insert_eq. }
  unfold bind at 1. cbn [modify]. fold b0.
  assert (Hcase : message obj = VNull ∨ message obj ≠ VNull)
    by (destruct (message obj); (by left) || (by right)).
  destruct Hcase as [Hnull|Hnull].
  - rewrite Hnull. unfold bind at 1, mergeField at 1. rewrite He. simpl.
    f_equal. rewrite <- Hb0, insert_id by done.
    apply eq_sym, set_requestedMonitoring_id.
  - unfold bind at 1. rewrite (mergeField_reported _ _ _ _ _ e) by done.
    unfold bind at 1.
    rewrite (mergeField_reported _ _ _ _ _ _) by (done || simpl; apply lookup_insert_eq).
    unfold bind at 1.
    rewrite (mergeField_reported _ _ _ _ _ _) by (done || simpl; apply lookup_insert_eq).
    rewrite (mergeField_reported _ _ _ _ _ _) by (done || simpl; apply lookup_insert_eq).
    assert (Hres : match message obj with VNull => @Thrown unit | _ => Done tt end
                   = Done tt) by (by destruct (message obj)).
    assert (Hent : match message obj with
                   | VNull => e
                   | _ => mkEntry (e_time e ++ reported "time" (message obj))
                            (e_cpuStats e ++ reported "cpuStats" (message obj))
                            (e_memStats e ++ reported "memStats" (message obj))
                            (e_eventLoopLags e ++ reported "eventLoopLags" (message obj))
                   end
                   = mkEntry (e_time e ++ reported "time" (message obj))
                       (e_cpuStats e ++ reported "cpuStats" (message obj))
                       (e_memStats e ++ reported "memStats" (message obj))
                       (e_eventLoopLags e ++ reported "eventLoopLags" (message obj)))
      by (by destruct (message obj)).
    rewrite Hres, Hent. f_equal.
    unfold set_requestedMonitoring at 1 2 3 4. simpl.
    rewrite !insert_insert_eq. apply Hb0.
Qed.

Lemma report_is_no_command :
  "requestedMonitoring" ≠ "test" ∧ "requestedMonitoring" ∉ allTests ++ inherited.
Proof.
  split; [discriminate|]. intros Hin. revert Hin.
  apply (bool_decide_unpack _). vm_compute. exact I.
Qed.

Lemma onPrimaryMessage_report (obj : Message) :
  command obj = "requestedMonitoring" → onPrimaryMessage obj = receiveMonitoring obj.
Proof.
  intros Hcmd. unfold onPrimaryMessage. rewrite Hcmd.
  destruct report_is_no_command as [H1 H2].
  rewrite decide_False by done. rewrite decide_False by done.
  by rewrite decide_True.
Qed.

Lemma onSecondaryMessage_report (obj : Message) :
  command obj = "requestedMonitoring" → onSecondaryMessage obj = ret tt.
Proof.
  intros Hcmd. unfold onSecondaryMessage. rewrite Hcmd.
  by repeat (destruct (decide _) as [Heq|_]; [discriminate Heq|]).
Qed.

(** A report, in either role. *)
Lemma onMessage_report (obj : Message) (b : Benchmark) :
  command obj = "requestedMonitoring" →
  (onMessage obj b).1
  = if secondaryMode (config b) then set_outbox (outbox b ++ [ack_of obj]) b
    else
      let b1 := set_requestedMonitoring
                  (absorb (requestedMonitoring b) (from obj) (message obj)) b in
      match message obj with
      | VNull => b1
      | _ => set_outbox (outbox b ++ [ack_of obj]) b1
      end.
Proof.
  intros Hcmd. rewrite onMessage_eq.
  destruct (secondaryMode (config b)); simpl negb; cbv iota.
  - by rewrite onSecondaryMessage_report.
  - rewrite onPrimaryMessage_report by done. unfold bind.
    rewrite receiveMonitoring_absorb. by destruct (message obj).
Qed.

Lemma same_but_host_refl (b : Benchmark) : same_but_host b b.
Proof. by repeat split. Qed.

Lemma same_but_host_trans (b1 b2 b3 : Benchmark) :
  same_but_host b1 b2 → same_but_host b2 b3 → same_but_host b1 b3.
Proof.
  unfold same_but_host. intros (?&?&?&?&?&?&?&?&?&?&?) (?&?&?&?&?&?&?&?&?&?&?).
  repeat split; congruence.
Qed.

Lemma occurs_frame (e : Event) (b : Benchmark) : same_but_host b (occurs e b).
Proof.
  destruct e as [id o|id|id st|id|m|sender payload cb]; simpl;
    try (by repeat split).
  rewrite onMessage_report by done.
  destruct (secondaryMode (config b)); [by repeat split|].
  simpl. destruct payload; by repeat split.
Qed.

Lemma after_frame (evs : list Event) (b : Benchmark) : same_but_host b (after evs b).
Proof.
  revert b. induction evs as [|e evs IH]; intros b; simpl.
  - apply same_but_host_refl.
  - eapply same_but_host_trans; [apply occurs_frame|apply IH].
Qed.

Lemma await_busy_eq (p : Point) (b : Benchmark) :
  await_busy p b
  = (after (happens env p) (suspended p b),
     if rejects env p then Thrown else Done tt).
Proof. done. Qed.

Lemma busy_frame (p : Point) (b : Benchmark) :
  same_but_host (suspended p b) (after (happens env p) (suspended p b)).
Proof. apply after_frame. Qed.

(** ** The marker along a run of the scheduler *)

Lemma suspended_activeTest (p : Point) (b : Benchmark) :
  activeTest (suspended p b) = activeTest b.
Proof. by destruct (suspended_frame p b) as (_&_&->&_). Qed.

Lemma suspended_observed (p : Point) (b : Benchmark) :
  observed (suspended p b) = observed b ++ [(p, activeTest b)].
Proof. by destruct (suspended_frame p b) as (_&_&_&_&_&_&_&_&_&_&_&->&_). Qed.

Lemma marker_ok_snoc (obs : list (Point * string)) (p : Point) (m : string) :
  marker_ok obs → m = expected p → marker_ok (obs ++ [(p, m)]).
Proof.
  intros Hobs Hm p' m' Hin. apply elem_of_app in Hin as [Hin|Hin]; [by apply Hobs|].
  apply list_elem_of_singleton in Hin. by injection Hin as -> ->.
Qed.

Lemma inv_ret {A} (a : A) : triple idle_ok (ret a) (λ _, idle_ok) log_ok.
Proof. by apply triple_ret. Qed.

Lemma inv_get {A} (f : Benchmark → A) :
  triple idle_ok (get_ f) (λ _, idle_ok) log_ok.
Proof. by apply triple_get. Qed.

Lemma inv_throw {A} : triple idle_ok (@throw A) (λ _, idle_ok) log_ok.
Proof. apply triple_throw. by intros b [_ H]. Qed.

Lemma inv_modify (f : Benchmark → Benchmark) :
  (∀ b, activeTest (f b) = activeTest b) →
  (∀ b, observed (f b) = observed b) →
  triple idle_ok (modify f) (λ _, idle_ok) log_ok.
Proof.
  intros Ha Ho. apply triple_modify. intros b [H1 H2].
  split; [by rewrite Ha|by rewrite Ho].
Qed.

Lemma inv_await (p : Point) :
  expected p = "none" → triple idle_ok (await p) (λ _, idle_ok) log_ok.
Proof.
  intros Hp. apply triple_await. intros b [H1 H2].
  assert (Hlog : marker_ok (observed (suspended p b))).
  { rewrite suspended_observed. apply marker_ok_snoc; [done|congruence]. }
  split; [split|]; try done. by rewrite suspended_activeTest.
Qed.

Lemma inv_await_busy (p : Point) :
  expected p = "none" → triple idle_ok (await_busy p) (λ _, idle_ok) log_ok.
Proof.
  intros Hp b [H1 H2]. rewrite await_busy_eq.
  destruct (busy_frame p b) as (_&_&Ha&_&_&_&_&_&_&_&Ho).
  assert (Hlog : marker_ok (observed (suspended p b))).
  { rewrite suspended_observed. apply marker_ok_snoc; [done|congruence]. }
  assert (Hidle : idle_ok (after (happens env p) (suspended p b))).
  { split; [by rewrite Ha, suspended_activeTest|by rewrite Ho]. }
  destruct (rejects env p); [by destruct Hidle|done].
Qed.

Lemma inv_get_series (f : Benchmark → gmap string (list num)) (w : string) :
  triple idle_ok (get_series f w) (λ _, idle_ok) log_ok.
Proof.
  intros b [H1 H2]. unfold get_series. by destruct (f b !! w).
Qed.

Lemma inv_for_each {A} (xs : list A) (body : A → M unit) :
  (∀ x, triple idle_ok (body x) (λ _, idle_ok) log_ok) →
  triple idle_ok (for_each xs body) (λ _, idle_ok) log_ok.
Proof. intros H. apply triple_for_each. auto. Qed.

Ltac inv_step :=
  first
    [ apply inv_ret
    | apply inv_get
    | apply inv_throw
    | apply inv_get_series
    | apply inv_await; reflexivity
    | apply inv_await_busy; reflexivity
    | apply inv_modify; intros ?; reflexivity
    | eapply triple_bind; [|intros ?] ].

Ltac inv_auto := repeat inv_step.

Lemma inv_setForeignObjectAsync (id : string) (o : IoObject) :
  triple idle_ok (setForeignObjectAsync id o) (λ _, idle_ok) log_ok.
Proof. unfold setForeignObjectAsync. inv_auto. Qed.

Lemma inv_getForeignObjectAsync (id : string) :
  triple idle_ok (getForeignObjectAsync id) (λ _, idle_ok) log_ok.
Proof. unfold getForeignObjectAsync. inv_auto. Qed.

Lemma inv_setForeignObjectNotExistsAsync (id : string) (o : IoObject) :
  triple idle_ok (setForeignObjectNotExistsAsync id o) (λ _, idle_ok) log_ok.
Proof. unfold setForeignObjectNotExistsAsync. inv_auto. Qed.

Lemma inv_setObjectNotExistsAsync (id : string) (o : IoObject) :
  triple idle_ok (setObjectNotExistsAsync id o) (λ _, idle_ok) log_ok.
Proof. unfold setObjectNotExistsAsync, own_id. inv_auto. Qed.

Lemma inv_setStateAsync (id : string) (v : StateVal) (a : bool) :
  triple idle_ok (setStateAsync id v a) (λ _, idle_ok) log_ok.
Proof. unfold setStateAsync, own_id. inv_auto. Qed.

Lemma inv_stopInstances : triple idle_ok stopInstances (λ _, idle_ok) log_ok.
Proof.
  unfold stopInstances, getObjectViewAsync. inv_auto.
  apply inv_for_each. intros instance. unfold stopInstance.
  eapply triple_bind; [inv_step|intros ns].
  destruct (_ && _); [|inv_step].
  eapply triple_bind; [apply inv_setForeignObjectAsync|intros ?].
  eapply triple_bind; [inv_step|intros [l|]]; inv_step.
Qed.

Lemma inv_restartInstance (id : string) :
  triple idle_ok (restartInstance id) (λ _, idle_ok) log_ok.
Proof.
  unfold restartInstance.
  eapply triple_bind; [apply inv_getForeignObjectAsync|intros [o|]]; [|inv_step].
  destruct (o_common o); [apply inv_setForeignObjectAsync|inv_step].
Qed.

Lemma inv_epochLoop (w : string) (n j : nat) (times : list num) :
  triple idle_ok (epochLoop w n j times) (λ _, idle_ok) log_ok.
Proof.
  revert j times. induction n as [|n IH]; intros j times; simpl; [inv_step|].
  eapply triple_bind; [destruct (decide _); inv_step|intros ?].
  eapply triple_bind; [inv_step|intros ?].
  eapply triple_bind with (Q := λ _ b, activeTest b = w ∧ marker_ok (observed b)).
  { apply triple_modify. by intros b [_ H]. }
  intros ?.
  eapply triple_bind with (Q := λ _ b, activeTest b = w ∧ marker_ok (observed b)).
  { intros b [H1 H2]. rewrite await_busy_eq.
    destruct (busy_frame (PExecute w j) b) as (_&_&Ha&_&_&_&_&_&_&_&Ho).
    assert (Hlog : marker_ok (observed (suspended (PExecute w j) b))).
    { rewrite suspended_observed. by apply marker_ok_snoc. }
    assert (Hin : activeTest (after (happens env (PExecute w j))
                                (suspended (PExecute w j) b)) = w
                  ∧ marker_ok (observed (after (happens env (PExecute w j))
                                           (suspended (PExecute w j) b)))).
    { split; [by rewrite Ha, suspended_activeTest|by rewrite Ho]. }
    destruct (rejects env (PExecute w j)); [by destruct Hin|done]. }
  intros ?.
  eapply triple_bind with (Q := λ _, idle_ok).
  { apply triple_modify. by intros b [_ H]. }
  intros ?. inv_auto. apply IH.
Qed.

Lemma inv_reduceWorkload (w : string) (times : list num) :
  triple idle_ok (reduceWorkload w times) (λ _, idle_ok) log_ok.
Proof.
  unfold reduceWorkload.
  repeat first [ apply inv_setStateAsync | inv_step ].
Qed.

Lemma inv_runWorkloads (ws : list string) (times : gmap string (list num)) :
  triple idle_ok (runWorkloads ws times) (λ _, idle_ok) log_ok.
Proof.
  revert times. induction ws as [|w ws IH]; intros times; simpl; [inv_step|].
  eapply triple_bind; [|intros times'; apply IH].
  unfold runWorkload, createTestObjects.
  repeat first
    [ apply inv_setObjectNotExistsAsync
    | apply inv_epochLoop
    | apply inv_reduceWorkload
    | apply inv_for_each; intros ?; apply inv_setForeignObjectNotExistsAsync
    | inv_step ].
Qed.

Lemma inv_runTests (selectedTests : list string) :
  triple idle_ok (runTests selectedTests) (λ _, idle_ok) log_ok.
Proof.
  unfold runTests.
  eapply triple_bind; [inv_step|intros isolated].
  eapply triple_bind; [destruct isolated; [apply inv_stopInstances|inv_step]|intros ?].
  do 6 (eapply triple_bind; [inv_step|intros ?]).
  eapply triple_bind; [apply inv_runWorkloads|intros times].
  eapply triple_bind; [inv_step|intros ?].
  eapply triple_bind; [inv_step|intros ids].
  eapply triple_bind; [|intros ?; inv_step].
  destruct isolated, ids; try inv_step.
  apply inv_for_each. intros id. apply inv_restartInstance.
Qed.

(** ** The marker and the message handler *)

Lemma keeps_ret {A} (a : A) : keeps_marker (ret a).
Proof. intros m. by apply triple_ret. Qed.

Lemma keeps_get {A} (f : Benchmark → A) : keeps_marker (get_ f).
Proof. intros m. by apply triple_get. Qed.

Lemma keeps_throw {A} : keeps_marker (@throw A).
Proof. intros m. by apply triple_throw. Qed.

Lemma keeps_modify (f : Benchmark → Benchmark) :
  (∀ b, activeTest (f b) = activeTest b) → keeps_marker (modify f).
Proof. intros Hf m. apply triple_modify. intros b <-. apply Hf. Qed.

Lemma keeps_await (p : Point) : keeps_marker (await p).
Proof.
  intros m. apply triple_await. intros b <-.
  by rewrite suspended_activeTest.
Qed.

Lemma keeps_bind {A B} (c : M A) (k : A → M B) :
  keeps_marker c → (∀ a, keeps_marker (k a)) → keeps_marker (bind c k).
Proof. intros Hc Hk m. eapply triple_bind; [apply Hc|intros a; apply Hk]. Qed.

Lemma keeps_for_each {A} (xs : list A) (body : A → M unit) :
  (∀ x, keeps_marker (body x)) → keeps_marker (for_each xs body).
Proof. intros H m. apply triple_for_each. intros x _. apply H. Qed.

Ltac keeps_step :=
  first
    [ apply keeps_ret
    | apply keeps_get
    | apply keeps_throw
    | apply keeps_await
    | apply keeps_modify; intros ?; reflexivity
    | apply keeps_for_each; intros ?
    | apply keeps_bind; [|intros ?] ].

Lemma keeps_count_loop (n : num) (body : nat → M unit) :
  (∀ i, keeps_marker (body i)) → keeps_marker (count_loop n body).
Proof.
  intros Hbody. unfold count_loop. destruct (rounds n).
  - by apply keeps_for_each.
  - intros m b Hb. done.
Qed.

Lemma keeps_bulk (msg : jsval) (on_set on_del : nat → M unit) :
  (∀ i, keeps_marker (on_set i)) → (∀ i, keeps_marker (on_del i)) →
  keeps_marker (bulk msg on_set on_del).
Proof.
  intros Hs Hd. unfold bulk. destruct (typeof_is_object msg); [|keeps_step].
  destruct (get_prop msg "cmd") as [[]|], (get_prop msg "n") as [[]|];
    try keeps_step.
  repeat destruct (decide _); try keeps_step; by apply keeps_count_loop.
Qed.

Lemma keeps_mergeField k sender msg get set :
  keeps_marker (mergeField k sender msg get set).
Proof.
  intros m b Hb. unfold mergeField.
  destruct (requestedMonitoring b !! sender); [|done].
  by destruct (merged k msg _).
Qed.

Lemma keeps_receiveMonitoring (obj : Message) :
  keeps_marker (receiveMonitoring obj).
Proof.
  unfold receiveMonitoring.
  apply keeps_bind.
  { intros m. apply triple_modify. intros b <-.
    by destruct (requestedMonitoring b !! from obj). }
  intros ?. repeat first [apply keeps_mergeField | keeps_step].
Qed.

Lemma keeps_sendTo target cmd payload cb :
  keeps_marker (sendTo target cmd payload cb).
Proof. unfold sendTo. keeps_step. Qed.

Lemma keeps_runTests_start (selected : list string) :
  keeps_marker (runTests_start selected).
Proof.
  unfold runTests_start. apply keeps_bind; [keeps_step|intros isolated].
  destruct isolated; [keeps_step|].
  do 6 (apply keeps_bind; [keeps_step|intros ?]).
  destruct selected; repeat keeps_step.
Qed.

Lemma keeps_spawn_runTests (selected : list string) :
  keeps_marker (spawn_runTests selected).
Proof.
  unfold spawn_runTests. apply keeps_bind; [apply keeps_runTests_start|intros ?].
  keeps_step.
Qed.

Lemma keeps_onPrimaryMessage (obj : Message) :
  keeps_marker (onPrimaryMessage obj).
Proof.
  unfold onPrimaryMessage.
  repeat destruct (decide _);
    first [apply keeps_receiveMonitoring | apply keeps_spawn_runTests | keeps_step].
Qed.

Lemma keeps_onSecondaryMessage (obj : Message) :
  command obj ≠ "startMeasuring" → command obj ≠ "stopMeasuring" →
  keeps_marker (onSecondaryMessage obj).
Proof.
  intros Hstart Hstop. unfold onSecondaryMessage.
  repeat destruct (decide _); try done; try apply keeps_ret.
  all: apply keeps_bulk; intros ?;
    unfold setObjectAsync, delObjectAsync, setStateAsync, delStateAsync, own_id;
    repeat keeps_step.
Qed.

(** In primary mode the handler never writes the marker; in secondary
    mode only 'startMeasuring' and 'stopMeasuring' do. *)
Lemma onMessage_keeps_marker (obj : Message) (b : Benchmark) :
  secondaryMode (config b) = false ∨
  (command obj ≠ "startMeasuring" ∧ command obj ≠ "stopMeasuring") →
  activeTest (onMessage obj b).1 = activeTest b.
Proof.
  intros Hcase. rewrite onMessage_eq.
  assert (H : keeps_marker
    (bind (if negb (secondaryMode (config b))
           then onPrimaryMessage obj else onSecondaryMessage obj)
          (λ _, acknowledge obj))).
  { apply keeps_bind; [|intros ?; apply keeps_sendTo].
    destruct (secondaryMode (config b)); simpl.
    - destruct Hcase as [?|[? ?]]; [done|]. by apply keeps_onSecondaryMessage.
    - apply keeps_onPrimaryMessage. }
  specialize (H (activeTest b) b eq_refl).
  by destruct (bind _ _ b) as [b' [[]| |]].
Qed.

Lemma startMeasuring_marker (b : Benchmark) :
  startMeasuring b = ((startMeasuring b).1, Done tt) ∧
  activeTest (startMeasuring b).1 = "requestedMonitoring" ∧
  monitoringActive (startMeasuring b).1 = true.
Proof. done. Qed.

Lemma stopMeasuring_marker (b : Benchmark) :
  activeTest (stopMeasuring b).1 = "none" ∧
  monitoringActive (stopMeasuring b).1 = false.
Proof.
  set (Z := λ b0 : Benchmark, activeTest b0 = "none" ∧ monitoringActive b0 = false).
  assert (Hmod : ∀ f : Benchmark → Benchmark,
    (∀ b0, activeTest (f b0) = activeTest b0) →
    (∀ b0, monitoringActive (f b0) = monitoringActive b0) →
    triple Z (modify f) (λ _, Z) Z).
  { intros f Ha Hm. apply triple_modify. intros b0 [H1 H2].
    split; [by rewrite Ha|by rewrite Hm]. }
  assert (H : triple (λ _, True) stopMeasuring (λ _, Z) Z).
  { unfold stopMeasuring.
    eapply triple_bind with (Q := λ _ b0, activeTest b0 = "none");
      [by apply triple_modify|intros ?].
    eapply triple_bind with (Q := λ _, Z); [by apply triple_modify|intros ?].
    eapply triple_bind with (Q := λ _, Z); [by apply triple_get|intros started].
    eapply triple_bind with (Q := λ _, Z).
    - destruct started; [|by apply triple_ret].
      eapply triple_bind with (Q := λ _, Z); [by apply triple_get|intros report].
      unfold sendToAsync, sendTo.
      eapply triple_bind with (Q := λ _, Z); [by apply Hmod|intros ?].
      apply triple_await. intros b0 [H1 H2].
      destruct (suspended_frame (PSendTo "benchmark.0" "requestedMonitoring") b0)
        as (_&_&Ha&_&Hm&_).
      simpl in Ha, Hm. unfold Z. rewrite Ha, Hm. done.
    - intros ?. repeat (eapply triple_bind with (Q := λ _, Z); [by apply Hmod|intros ?]).
      by apply Hmod. }
  specialize (H b I). by destruct (stopMeasuring b) as [b' [[]| |]].
Qed.

Lemma onMessage_startMeasuring (obj : Message) (b : Benchmark) :
  secondaryMode (config b) = true → command obj = "startMeasuring" →
  activeTest (onMessage obj b).1 = "requestedMonitoring".
Proof.
  intros Hsec Hcmd. rewrite onMessage_eq, Hsec. simpl.
  unfold onSecondaryMessage. rewrite Hcmd.
  do 2 (destruct (decide _) as [Heq|_]; [discriminate Heq|]).
  destruct (decide _) as [_|Hne]; [|done].
  unfold bind. destruct (startMeasuring_marker b) as (-> & Ha & _).
  pose proof (keeps_sendTo (from obj) (command obj) (VObj []) (Some (callback obj))
                "requestedMonitoring" _ Ha) as H.
  unfold acknowledge. rewrite Hcmd in H |- *.
  by destruct (sendTo _ _ _ _ _) as [b' [[]| |]].
Qed.

Lemma onMessage_stopMeasuring (obj : Message) (b : Benchmark) :
  secondaryMode (config b) = true → command obj = "stopMeasuring" →
  activeTest (onMessage obj b).1 = "none".
Proof.
  intros Hsec Hcmd. rewrite onMessage_eq, Hsec. simpl.
  unfold onSecondaryMessage. rewrite Hcmd.
  do 3 (destruct (decide _) as [Heq|_]; [discriminate Heq|]).
  destruct (decide _) as [_|Hne]; [|done].
  unfold bind. destruct (stopMeasuring_marker b) as [Ha _].
  by destruct (stopMeasuring b) as [b1 [[]| |]].
Qed.

(** C1, as the code has it.  In a run of the scheduler that starts with
    the marker at 'none', the marker is the workload's name at every
    suspension point inside that workload's [execute()] and 'none' at
    every other suspension point, whether or not an awaited call rejects;
    when the run returns normally the marker is 'none' again.  The
    message handler leaves the marker alone in primary mode and, in
    secondary mode, for every command but two: 'startMeasuring' sets it to
    'requestedMonitoring' and 'stopMeasuring' sets it back to 'none'. *)
Theorem marker_invariant (selectedTests : list string) (b : Benchmark) :
  idle_ok b →
  (marker_ok (observed (runTests selectedTests b).1) ∧
   ∀ times, (runTests selectedTests b).2 = Done times →
            activeTest (runTests selectedTests b).1 = "none") ∧
  (∀ obj b0,
     activeTest (onMessage obj b0).1
     = if secondaryMode (config b0) then
         if decide (command obj = "startMeasuring") then "requestedMonitoring"
         else if decide (command obj = "stopMeasuring") then "none"
         else activeTest b0
       else activeTest b0).
Proof.
  intros Hb. split.
  - pose proof (inv_runTests selectedTests b Hb) as H.
    destruct (runTests selectedTests b) as [b' [times| |]]; simpl.
    + destruct H as [H1 H2]. split; [done|]. by intros ? _.
    + split; [done|]. by intros ? [=].
    + split; [done|]. by intros ? [=].
  - intros obj b0. destruct (secondaryMode (config b0)) eqn:Hsec.
    + destruct (decide (command obj = "startMeasuring")) as [Hs|Hs];
        [by apply onMessage_startMeasuring|].
      destruct (decide (command obj = "stopMeasuring")) as [Ht|Ht];
        [by apply onMessage_stopMeasuring|].
      apply onMessage_keeps_marker. by right.
    + apply onMessage_keeps_marker. by left.
Qed.

(** ** Runs in which no awaited call rejects *)

Section NoRejection.

Hypothesis no_rejection : ∀ p, rejects env p = false.

Abbreviation never := (λ _ : Benchmark, False).

Lemma frame_eq_suspended (p : Point) (b : Benchmark) : frame_eq b (suspended p b).
Proof.
  destruct (suspended_frame p b) as (_&Hc&_&Hr&_&_&_&_&_&_&_&_&H1&H2&H3).
  by repeat split; first [apply H1|apply H2|apply H3|idtac].
Qed.

Lemma respects_running (E : nat) (ws : list string) : respects (running E ws).
Proof.
  intros b b' (Hc&_&H1&H2&H3) [HE Hws]. split; [by rewrite Hc|].
  intros w Hw. destruct (Hws w Hw) as (?&?&?).
  repeat split; [by apply H1|by apply H2|by apply H3].
Qed.

Lemma respects_stopping (E : nat) : respects (stopping E).
Proof. intros b b' (Hc&Hr&_) [HE Hs]. split; [by rewrite Hc|by rewrite Hr]. Qed.

Lemma tot_ret {A} (a : A) (I : Benchmark → Prop) :
  triple I (ret a) (λ _, I) never.
Proof. by apply triple_ret. Qed.

Lemma tot_get {A} (f : Benchmark → A) (I : Benchmark → Prop) :
  triple I (get_ f) (λ a b, I b ∧ a = f b) never.
Proof. by apply triple_get. Qed.

Lemma tot_await (p : Point) (I : Benchmark → Prop) :
  respects I → triple I (await p) (λ _, I) never.
Proof.
  intros HI b Hb. rewrite await_eq, no_rejection.
  by apply (HI b), Hb; apply frame_eq_suspended.
Qed.

Lemma frame_eq_busy (p : Point) (b : Benchmark) :
  frame_eq b (after (happens env p) (suspended p b)).
Proof.
  destruct (frame_eq_suspended p b) as (Hc&Hr&H1&H2&H3).
  destruct (busy_frame p b) as (_&Hc'&_&Hm&Hcp&Hr'&_&Hl&_).
  unfold frame_eq. rewrite Hc', Hr', Hm, Hcp, Hl.
  split; [exact Hc|]. split; [exact Hr|]. split; [exact H1|].
  split; [exact H2|exact H3].
Qed.

Lemma tot_await_busy (p : Point) (I : Benchmark → Prop) :
  respects I → triple I (await_busy p) (λ _, I) never.
Proof.
  intros HI b Hb. rewrite await_busy_eq, no_rejection.
  by apply (HI b), Hb; apply frame_eq_busy.
Qed.

Lemma tot_modify (f : Benchmark → Benchmark) (I : Benchmark → Prop) :
  respects I → (∀ b, frame_eq b (f b)) → triple I (modify f) (λ _, I) never.
Proof. intros HI Hf. apply triple_modify. intros b Hb. by apply (HI b). Qed.

Lemma tot_bind {A B} (c : M A) (k : A → M B) (I : Benchmark → Prop) Q :
  triple I c (λ _, I) never → (∀ a, triple I (k a) Q never) →
  triple I (bind c k) Q never.
Proof. intros Hc Hk. eapply triple_bind; [apply Hc|apply Hk]. Qed.

Lemma tot_for_each {A} (xs : list A) (body : A → M unit) (I : Benchmark → Prop) :
  (∀ x, triple I (body x) (λ _, I) never) →
  triple I (for_each xs body) (λ _, I) never.
Proof. intros H. apply triple_for_each. auto. Qed.

Lemma tot_discard {A} (c : M A) (I : Benchmark → Prop) Q :
  triple I c Q never → (∀ a b, Q a b → I b) → triple I c (λ _, I) never.
Proof. intros Hc HQ. eapply triple_weaken; [apply Hc|done|apply HQ|done]. Qed.

Ltac tot_step :=
  first
    [ apply tot_ret
    | apply tot_await; assumption
    | apply tot_await_busy; assumption
    | apply tot_modify; [assumption|by intros ?]
    | eapply tot_discard; [apply tot_get|by intros ? ? [? _]]
    | apply tot_bind; [|intros ?] ].

Section HostCalls.

Variable I : Benchmark → Prop.
Hypothesis HI : respects I.

Lemma tot_setForeignObjectAsync id o :
  triple I (setForeignObjectAsync id o) (λ _, I) never.
Proof. unfold setForeignObjectAsync. repeat tot_step. Qed.

Lemma tot_getForeignObjectAsync id :
  triple I (getForeignObjectAsync id) (λ _, I) never.
Proof. unfold getForeignObjectAsync. repeat tot_step. Qed.

Lemma tot_getObjectViewAsync : triple I getObjectViewAsync (λ _, I) never.
Proof. unfold getObjectViewAsync. repeat tot_step. Qed.

Lemma tot_setForeignObjectNotExistsAsync id o :
  triple I (setForeignObjectNotExistsAsync id o) (λ _, I) never.
Proof. unfold setForeignObjectNotExistsAsync. repeat tot_step. Qed.

Lemma tot_setObjectNotExistsAsync id o :
  triple I (setObjectNotExistsAsync id o) (λ _, I) never.
Proof. unfold setObjectNotExistsAsync, own_id. repeat tot_step. Qed.

Lemma tot_setStateAsync id v a :
  triple I (setStateAsync id v a) (λ _, I) never.
Proof. unfold setStateAsync, own_id. repeat tot_step. Qed.

Lemma tot_restartInstance id : triple I (restartInstance id) (λ _, I) never.
Proof.
  unfold restartInstance. eapply triple_bind.
  - eapply triple_weaken with (Q' := λ _, I);
      [apply tot_getForeignObjectAsync|done|by intros ? ? H; exact H|done].
  - intros [o|]; [|tot_step].
    destruct (o_common o); [apply tot_setForeignObjectAsync|tot_step].
Qed.

End HostCalls.

Lemma tot_stopInstances (E : nat) :
  triple (λ b, epochs (config b) = E) stopInstances
    (λ _ b, epochs (config b) = E) never.
Proof.
  pose proof (respects_stopping E) as HI.
  unfold stopInstances.
  eapply triple_bind with (Q := λ _, stopping E).
  { apply triple_modify. intros b Hb. split; [done|]. simpl. eauto. }
  intros ?. eapply triple_weaken with (Q' := λ _, stopping E) (R' := never);
    [|done|by intros ? ? [? _]|done].
  apply tot_bind; [by apply tot_getObjectViewAsync|intros rows].
  apply tot_for_each. intros instance. unfold stopInstance.
  apply tot_bind; [tot_step|intros ns].
  destruct (_ && _); [|tot_step].
  apply tot_bind; [by apply tot_setForeignObjectAsync|intros ?].
  eapply triple_bind; [apply tot_get|].
  intros [l|]; simpl.
  - apply triple_modify. intros b [[HE _] _]. split; [done|]. simpl. eauto.
  - intros b [[_ [l Hl]] Hnone]. congruence.
Qed.

Lemma tot_epochLoop (E : nat) (w : string) (n j : nat) (times : list num) :
  w ∈ allTests →
  triple (running E [w]) (epochLoop w n j times)
    (λ series b, running E [w] b ∧ length series = (length times + n)%nat) never.
Proof.
  intros Hw. pose proof (respects_running E [w]) as HI.
  revert j times. induction n as [|n IH]; intros j times; simpl.
  - apply triple_ret. intros b Hb. split; [done|lia].
  - rewrite decide_True by done.
    do 7 (apply tot_bind; [tot_step|intros ?]).
    eapply triple_weaken; [apply IH|done| |done].
    intros series b [Hb Hlen]. split; [done|].
    rewrite Hlen, length_app. simpl. lia.
Qed.

Lemma tot_get_series (E : nat) (w : string)
    (f : Benchmark → gmap string (list num)) :
  (∀ b, has_series w b → is_Some (f b !! w)) →
  triple (running E [w]) (get_series f w) (λ _, running E [w]) never.
Proof.
  intros Hf b Hb. unfold get_series.
  destruct (Hf b) as [l ->]; [|done]. apply Hb. by left.
Qed.

Lemma tot_reduceWorkload (E : nat) (w : string) (times : list num) :
  triple (running E [w]) (reduceWorkload w times) (λ _, running E []) never.
Proof.
  pose proof (respects_running E [w]) as HI.
  unfold reduceWorkload.
  do 2 (apply tot_bind; [by apply tot_setStateAsync|intros ?]).
  apply tot_bind; [apply tot_get_series; by intros b (?&?&?)|intros cpu].
  do 2 (apply tot_bind; [by apply tot_setStateAsync|intros ?]).
  apply tot_bind; [apply tot_get_series; by intros b (?&?&?)|intros mem].
  do 2 (apply tot_bind; [by apply tot_setStateAsync|intros ?]).
  apply tot_bind; [apply tot_get_series; by intros b (?&?&?)|intros lags].
  do 2 (apply tot_bind; [by apply tot_setStateAsync|intros ?]).
  apply tot_bind; [tot_step|intros its].
  do 2 (apply tot_bind; [by apply tot_setStateAsync|intros ?]).
  apply tot_bind; [tot_step|intros rm].
  apply tot_bind; [by apply tot_setStateAsync|intros ?].
  eapply triple_weaken with (P' := λ b, epochs (config b) = E)
    (Q' := λ _ b, epochs (config b) = E) (R' := never);
    [|by intros ? [? _]| |done].
  - repeat (eapply triple_bind; [by apply triple_modify|intros ?]).
    by apply triple_modify.
  - intros _ b Hb. split; [done|]. intros w' Hw'. by apply elem_of_nil in Hw'.
Qed.

Lemma tot_runWorkload (E : nat) (w : string) (times : gmap string (list num)) :
  w ∈ allTests →
  triple (running E []) (runWorkload w times)
    (λ times' b, running E [] b ∧
       ∃ series, times' = <[w := series]> (<[w := []]> times) ∧ length series = E)
    never.
Proof.
  intros Hw. pose proof (respects_running E [w]) as HI.
  unfold runWorkload.
  eapply triple_bind with (Q := λ _ b, epochs (config b) = E ∧
                                       is_Some (cpuStats b !! w)).
  { apply triple_modify. intros b [Hb _]. split; [done|]. simpl.
    rewrite lookup_insert_eq. eauto. }
  intros ?.
  eapply triple_bind with (Q := λ _ b, epochs (config b) = E ∧
      is_Some (cpuStats b !! w) ∧ is_Some (memStats b !! w)).
  { apply triple_modify. intros b [Hb Hc]. repeat split; [done|done|]. simpl.
    rewrite lookup_insert_eq. eauto. }
  intros ?.
  eapply triple_bind with (Q := λ _, running E [w]).
  { apply triple_modify. intros b (Hb & Hc & Hm). split; [done|].
    intros w' Hw'. apply list_elem_of_singleton in Hw' as ->.
    repeat split; [done|done|]. simpl. rewrite lookup_insert_eq. eauto. }
  intros ?.
  apply tot_bind; [by apply tot_setObjectNotExistsAsync|intros ?].
  apply tot_bind.
  { unfold createTestObjects. apply tot_bind; [tot_step|intros ns].
    apply tot_for_each. intros obj. by apply tot_setForeignObjectNotExistsAsync. }
  intros ?.
  eapply triple_bind; [apply tot_get|]. intros n.
  eapply triple_bind with (Q := λ series b, running E [w] b ∧ length series = E).
  { intros b [Hb ->]. pose proof (tot_epochLoop E w (epochs (config b)) 1 [] Hw b Hb) as H.
    destruct (epochLoop _ _ _ _ b) as [b' [series| |]]; [|done|done].
    destruct H as [H1 H2]. split; [done|]. rewrite H2. simpl. apply Hb. }
  intros series.
  eapply triple_bind with (Q := λ _ b, running E [] b ∧ length series = E).
  { intros b [Hb Hlen]. pose proof (tot_reduceWorkload E w series b Hb) as H.
    by destruct (reduceWorkload w series b) as [b' [[]| |]]. }
  intros ?. apply triple_ret. intros b [Hb Hlen]. split; [done|]. eauto.
Qed.

Lemma tot_runWorkloads (E : nat) (ws : list string)
    (times : gmap string (list num)) :
  (∀ w, w ∈ ws → w ∈ allTests) →
  triple (running E []) (runWorkloads ws times)
    (λ times' b, running E [] b ∧
       (∀ w, full_series E times w → full_series E times' w) ∧
       (∀ w, w ∈ ws → full_series E times' w))
    never.
Proof.
  revert times. induction ws as [|w ws IH]; intros times Hws; simpl.
  - apply triple_ret. intros b Hb. split; [done|]. split; [done|].
    intros w Hw. by apply elem_of_nil in Hw.
  - eapply triple_bind; [apply tot_runWorkload; apply Hws; by left|].
    intros times' b [Hb (series & -> & Hlen)].
    assert (Hws' : ∀ w0, w0 ∈ ws → w0 ∈ allTests)
      by (intros w0 Hw0; apply Hws; by right).
    pose proof (IH (<[w := series]> (<[w := []]> times)) Hws' b Hb) as H.
    destruct (runWorkloads ws _ b) as [b' [times''| |]]; [|done|done].
    destruct H as (Hb' & Hkeep & Hnew).
    assert (Hw : full_series E (<[w := series]> (<[w := []]> times)) w).
    { exists series. by rewrite lookup_insert_eq. }
    split; [done|]. split.
    + intros w0 (ts & Hts & Hl). apply Hkeep.
      destruct (decide (w0 = w)) as [->|Hne]; [done|].
      exists ts. by rewrite !lookup_insert_ne.
    + intros w0 Hw0. apply elem_of_cons in Hw0 as [->|Hw0]; [by apply Hkeep|].
      by apply Hnew.
Qed.

Lemma epochs_defaults (c : Config) : epochs c ≠ O → epochs (defaults c) = epochs c.
Proof. intros H. simpl. by destruct (decide (epochs c = O)). Qed.

Lemma tot_runTests (E : nat) (selectedTests : list string) :
  E ≠ O → (∀ w, w ∈ selectedTests → w ∈ allTests) →
  triple (λ b, epochs (config b) = E) (runTests selectedTests)
    (λ times _, ∀ w, w ∈ selectedTests → full_series E times w) never.
Proof.
  intros HE Hsel. unfold runTests.
  set (I := λ b : Benchmark, epochs (config b) = E).
  assert (HI : respects I) by (intros b b' (Hc&_) Hb; unfold I; by rewrite Hc).
  apply tot_bind; [tot_step|intros isolated].
  apply tot_bind.
  { destruct isolated; [apply tot_stopInstances|tot_step]. }
  intros ?.
  eapply triple_bind with (Q := λ _, I).
  { apply triple_modify. intros b Hb. unfold I in *. simpl config.
    rewrite epochs_defaults; congruence. }
  intros ?.
  do 5 (eapply triple_bind with (Q := λ _, I); [by apply triple_modify|intros ?]).
  eapply triple_bind with
    (Q := λ times b, I b ∧ ∀ w, w ∈ selectedTests → full_series E times w).
  { eapply triple_weaken; [apply (tot_runWorkloads E selectedTests ∅ Hsel)| | |done].
    - intros b Hb. split; [done|]. intros w Hw. by apply elem_of_nil in Hw.
    - intros times b ([Hb _] & _ & Hnew). by split. }
  intros times.
  eapply triple_bind with
    (Q := λ _ b, I b ∧ ∀ w, w ∈ selectedTests → full_series E times w).
  { apply triple_modify. by intros b [Hb Hfull]. }
  intros ?. intros b [Hb Hfull].
  assert (H : triple I
    (ids <- get_ restartInstances ;;
     match isolated, ids with
     | true, Some l => for_each l restartInstance
     | _, _ => ret tt
     end ;; ret times) (λ times' _, times' = times) never).
  { eapply triple_bind; [apply tot_get|]. intros ids.
    eapply triple_weaken with (P' := I) (R' := never)
      (Q' := λ times' _, times' = times); [|by intros ? [? _]|by intros|by intros].
    eapply triple_bind with (Q := λ _, I).
    - destruct isolated, ids; try tot_step.
      apply tot_for_each. intros id. by apply tot_restartInstance.
    - intros ?. by apply triple_ret. }
  specialize (H b Hb).
  destruct (bind (get_ restartInstances) _ b) as [b' [times'| |]]; [|done|done].
  by subst times'.
Qed.

(** C2.  In a run with [epochs = E], [E] positive, over workloads of the
    registry, in which no awaited call rejects, the run returns and
    [times[w]] holds exactly [E] entries for every selected workload [w],
    whatever samples the samplers appended meanwhile; [times[w]] is the
    series that [reduceWorkload] is given. *)
Theorem times_has_E_entries (E : nat) (selectedTests : list string) (b : Benchmark) :
  (0 < E)%nat → epochs (config b) = E →
  (∀ w, w ∈ selectedTests → w ∈ allTests) →
  ∃ b' times,
    runTests selectedTests b = (b', Done times) ∧
    ∀ w, w ∈ selectedTests → ∃ ts, times !! w = Some ts ∧ length ts = E.
Proof.
  intros HE Hb Hsel.
  pose proof (tot_runTests E selectedTests ltac:(lia) Hsel b Hb) as H.
  destruct (runTests selectedTests b) as [b' [times| |]]; [|done|done].
  by exists b', times.
Qed.

(** ** Isolated runs *)

Lemma suspended_fields (p : Point) (b : Benchmark) :
  namespace (suspended p b) = namespace b ∧
  objects (suspended p b) = objects b ∧
  restartInstances (suspended p b) = restartInstances b.
Proof. by destruct (suspended_frame p b) as (?&_&_&?&_&_&_&?&_). Qed.

Lemma stopInstance_step (row : string * IoObject) (b : Benchmark) (l : list string) :
  restartInstances b = Some l →
  ∃ b', stopInstance row b = (b', Done tt) ∧
    namespace b' = namespace b ∧
    objects b' = (if to_stop (namespace b) row
                  then <[row.1 := with_enabled false row.2]> (objects b)
                  else objects b) ∧
    restartInstances b' = Some (if to_stop (namespace b) row
                                then l ++ [row.1] else l).
Proof.
  intros Hl. unfold stopInstance, bind, get_. fold (to_stop (namespace b) row).
  destruct (to_stop (namespace b) row); [|by exists b].
  unfold setForeignObjectAsync, bind. rewrite await_eq, no_rejection.
  destruct (suspended_fields (PSetForeignObject row.1) b) as (Hn & Ho & Hr).
  simpl. rewrite Hr, Hl. simpl. eexists. split; [done|]. simpl.
  by rewrite Hn, Ho.
Qed.

Lemma stop_loop (rows : list (string * IoObject)) (b : Benchmark) (l : list string) :
  restartInstances b = Some l →
  ∃ b', for_each rows stopInstance b = (b', Done tt) ∧
    namespace b' = namespace b ∧
    restartInstances b' = Some (l ++ (filter (λ r, to_stop (namespace b) r = true) rows).*1) ∧
    ∀ id, objects b' !! id
          = foldl (λ acc r, if decide (r.1 = id ∧ to_stop (namespace b) r = true)
                            then Some (with_enabled false r.2) else acc)
                  (objects b !! id) rows.
Proof.
  revert b l. induction rows as [|row rows IH]; intros b l Hl; simpl.
  - exists b. by rewrite app_nil_r.
  - unfold bind. destruct (stopInstance_step row b l Hl) as (b1 & -> & Hn & Ho & Hr).
    destruct (IH b1 _ Hr) as (b' & -> & Hn' & Hr' & Ho').
    exists b'. split; [done|]. split; [congruence|]. rewrite Hn in Hr', Ho'.
    split.
    + rewrite Hr'. rewrite filter_cons.
      destruct (to_stop (namespace b) row) eqn:Hrow.
      * rewrite decide_True by done. simpl. by rewrite <- app_assoc.
      * rewrite decide_False by done. done.
    + intros id. rewrite Ho', Ho. f_equal.
      destruct (to_stop (namespace b) row) eqn:Hrow.
      * destruct (decide (row.1 = id)) as [<-|Hne].
        -- rewrite decide_True by done. by rewrite lookup_insert_eq.
        -- rewrite decide_False by tauto. by rewrite lookup_insert_ne.
      * rewrite decide_False; [done|]. intros [_ H]. discriminate H.
Qed.

(** Over rows with distinct ids taken from the store itself, the fold
    of the loop is a pointwise update. *)
Lemma stop_fold_lookup (ns id : string) (objs : gmap string IoObject)
    (rows : list (string * IoObject)) (init : option IoObject) :
  NoDup rows.*1 →
  foldl (λ acc r, if decide (r.1 = id ∧ to_stop ns r = true)
                  then Some (with_enabled false r.2) else acc) init rows
  = match list_find (λ r, r.1 = id) rows with
    | Some (_, r) => if to_stop ns r then Some (with_enabled false r.2) else init
    | None => init
    end.
Proof.
  revert init. induction rows as [|r rows IH]; intros init Hnd; simpl; [done|].
  apply NoDup_cons in Hnd as [Hr Hnd]. rewrite IH by done.
  destruct (decide (r.1 = id)) as [Hid|Hne].
  - simpl. assert (Hnone : list_find (λ r0, r0.1 = id) rows = None).
    { apply list_find_None, Forall_forall. intros r' Hr' Heq. apply Hr.
      apply list_elem_of_fmap. exists r'. split; [congruence|done]. }
    rewrite Hnone. destruct (to_stop ns r).
    + by rewrite decide_True.
    + rewrite decide_False; [done|]. intros [_ H]. discriminate H.
  - rewrite decide_False by tauto. simpl.
    by destruct (list_find (λ r0, r0.1 = id) rows) as [[? ?]|].
Qed.

Lemma elem_of_instance_rows (objs : gmap string IoObject) (id : string) (o : IoObject) :
  (id, o) ∈ instance_rows objs ↔ objs !! id = Some o ∧ o_type o = "instance".
Proof.
  unfold instance_rows. rewrite list_elem_of_filter, elem_of_map_to_list. tauto.
Qed.

Lemma NoDup_instance_rows (objs : gmap string IoObject) :
  NoDup (instance_rows objs).*1.
Proof.
  eapply sublist_NoDup; [apply (NoDup_fst_map_to_list objs)|].
  apply fmap_sublist, sublist_filter.
Qed.

Lemma stopInstances_spec (b : Benchmark) :
  ∃ b1 l,
    stopInstances b = (b1, Done tt) ∧ restartInstances b1 = Some l ∧ NoDup l ∧
    (∀ id, id ∈ l ↔
       ∃ o, objects b !! id = Some o ∧ o_type o = "instance" ∧
            id ≠ "system.adapter." +:+ namespace b ∧ enabled_truthy o = true) ∧
    (∀ id, objects b1 !! id
           = if decide (id ∈ l) then with_enabled false <$> objects b !! id
             else objects b !! id).
Proof.
  unfold stopInstances, bind, modify, getObjectViewAsync, bind, get_.
  rewrite await_eq, no_rejection.
  set (b0 := suspended PGetObjectView (set_restartInstances (Some []) b)).
  destruct (suspended_fields PGetObjectView (set_restartInstances (Some []) b))
    as (Hn & Ho & Hr).
  fold b0 in Hn, Ho, Hr. simpl in Hn, Ho, Hr.
  fold (instance_rows (objects b0)). rewrite Ho.
  destruct (stop_loop (instance_rows (objects b)) b0 [] Hr)
    as (b1 & -> & Hn1 & Hr1 & Ho1).
  rewrite Hn in Hr1, Ho1. simpl in Hr1.
  set (rows := instance_rows (objects b)) in *.
  set (l := (filter (λ r, to_stop (namespace b) r = true) rows).*1) in *.
  assert (Hl : ∀ id, id ∈ l ↔
    ∃ o, objects b !! id = Some o ∧ o_type o = "instance" ∧
         id ≠ "system.adapter." +:+ namespace b ∧ enabled_truthy o = true).
  { intros id. subst l. rewrite list_elem_of_fmap. split.
    - intros ([id' o] & -> & Hin). apply list_elem_of_filter in Hin as [Hstop Hin].
      apply elem_of_instance_rows in Hin as [Hlook Hty].
      unfold to_stop in Hstop. apply andb_true_iff in Hstop as [H1 H2].
      apply bool_decide_eq_true in H1. by exists o.
    - intros (o & Hlook & Hty & Hown & Hen). exists (id, o). split; [done|].
      apply list_elem_of_filter. split; [|by apply elem_of_instance_rows].
      unfold to_stop. apply andb_true_iff. split; [|done].
      by apply bool_decide_eq_true. }
  exists b1, l. split; [done|]. split; [done|]. split.
  { eapply sublist_NoDup; [apply (NoDup_instance_rows (objects b))|].
    apply fmap_sublist, sublist_filter. }
  split; [done|]. intros id. rewrite Ho1, Ho.
  rewrite (stop_fold_lookup _ _ (objects b)) by apply NoDup_instance_rows.
  destruct (list_find (λ r, r.1 = id) rows) as [[i [id' o]]|] eqn:Hfind.
  - apply list_find_Some in Hfind as (Hi & Hid & _). simpl in Hid. subst id'.
    apply list_elem_of_lookup_2, elem_of_instance_rows in Hi as [Hlook Hty].
    rewrite Hlook. simpl. unfold to_stop. simpl.
    destruct (decide (id ∈ l)) as [Hin|Hnin].
    + apply Hl in Hin as (o' & Ho' & _ & Hown & Hen).
      assert (o' = o) by congruence. subst o'.
      by rewrite bool_decide_eq_true_2, Hen.
    + destruct (bool_decide _ && enabled_truthy o) eqn:Hstop; [|done].
      exfalso. apply Hnin, Hl. exists o.
      apply andb_true_iff in Hstop as [H1 H2].
      by apply bool_decide_eq_true in H1.
  - rewrite decide_False; [done|]. intros Hin.
    apply Hl in Hin as (o & Hlook & Hty & _).
    apply list_find_None in Hfind. rewrite Forall_forall in Hfind.
    apply (Hfind (id, o)); [by apply elem_of_instance_rows|done].
Qed.

Lemma with_enabled_idem (v : bool) (o : IoObject) :
  with_enabled v (with_enabled v o) = with_enabled v o.
Proof. destruct o as [ty [c|] nat]; done. Qed.

Lemma restartInstance_step (id : string) (b : Benchmark) :
  ∃ b', restartInstance id b = (b', Done tt) ∧
    ∀ id', objects b' !! id'
           = if decide (id' = id) then with_enabled true <$> objects b !! id
             else objects b !! id'.
Proof.
  unfold restartInstance, getForeignObjectAsync, bind, get_.
  rewrite await_eq, no_rejection.
  destruct (suspended_fields (PGetForeignObject id) b) as (_ & Ho & _).
  rewrite Ho. set (b0 := suspended (PGetForeignObject id) b) in *.
  assert (Hsame : ∀ id', objects b0 !! id'
            = if decide (id' = id) then objects b !! id else objects b !! id').
  { intros id'. rewrite Ho. by destruct (decide (id' = id)) as [->|]. }
  destruct (objects b !! id) as [o|] eqn:Hlook; [|by exists b0].
  destruct (o_common o) as [c|] eqn:Hc.
  - unfold setForeignObjectAsync, bind, modify. rewrite await_eq, no_rejection.
    destruct (suspended_fields (PSetForeignObject id) b0) as (_ & Ho' & _).
    eexists. split; [done|]. intros id'. simpl. rewrite Ho', Ho.
    destruct (decide (id' = id)) as [->|Hne].
    + by rewrite lookup_insert_eq.
    + by rewrite lookup_insert_ne.
  - exists b0. split; [done|]. intros id'. rewrite Hsame.
    destruct (decide (id' = id)); [|done]. simpl. f_equal.
    destruct o as [ty co nat]. simpl in Hc. by subst co.
Qed.

Lemma restart_loop (l : list string) (b : Benchmark) :
  ∃ b', for_each l restartInstance b = (b', Done tt) ∧
    ∀ id, objects b' !! id
          = if decide (id ∈ l) then with_enabled true <$> objects b !! id
            else objects b !! id.
Proof.
  revert b. induction l as [|id0 l IH]; intros b; cbn [for_each].
  - exists b. split; [done|]. intros id.
    destruct (decide (id ∈ [])) as [Hin|_]; [by apply elem_of_nil in Hin|done].
  - unfold bind. destruct (restartInstance_step id0 b) as (b1 & -> & H1).
    destruct (IH b1) as (b' & -> & H').
    exists b'. split; [done|]. intros id. rewrite H', !H1.
    destruct (decide (id = id0)) as [->|Hne].
    + rewrite (decide_True (P := id0 ∈ id0 :: l)) by (by left).
      destruct (decide (id0 ∈ l)); [|done].
      destruct (objects b !! id0); simpl; [|done]. by rewrite with_enabled_idem.
    + destruct (decide (id ∈ l)) as [Hin|Hnin].
      * rewrite decide_True by (by right). done.
      * rewrite decide_False; [done|]. rewrite elem_of_cons. tauto.
Qed.

(** ** Acknowledgements *)

Section Outbox.

Variable before : list Sent.

Abbreviation quiet := (no_reply_since before).

Lemma quiet_modify (f : Benchmark → Benchmark) :
  (∀ b, outbox (f b) = outbox b) → triple quiet (modify f) (λ _, quiet) never.
Proof.
  intros Hf. apply triple_modify. intros b (sent & Hs & Hall).
  exists sent. by rewrite Hf.
Qed.

Lemma quiet_await (p : Point) : triple quiet (await p) (λ _, quiet) never.
Proof.
  intros b (sent & Hs & Hall). rewrite await_eq, no_rejection.
  exists sent. split; [|done].
  destruct (suspended_frame p b) as (_&_&_&_&_&_&_&_&_&Ho&_). by rewrite Ho.
Qed.

Lemma quiet_get {A} (f : Benchmark → A) : triple quiet (get_ f) (λ _, quiet) never.
Proof. by apply triple_get. Qed.

Ltac quiet_step :=
  first
    [ apply tot_ret
    | apply quiet_await
    | apply quiet_get
    | apply quiet_modify; by intros ?
    | apply tot_for_each; intros ?
    | apply tot_bind; [|intros ?] ].

Lemma quiet_bulk (msg : jsval) (on_set on_del : nat → M unit) :
  msg ≠ VNull →
  (get_prop msg "cmd" = Some (VStr "set") ∨ get_prop msg "cmd" = Some (VStr "del") →
   get_prop msg "n" ≠ Some (VNum PInf)) →
  (∀ i, triple quiet (on_set i) (λ _, quiet) never) →
  (∀ i, triple quiet (on_del i) (λ _, quiet) never) →
  triple quiet (bulk msg on_set on_del) (λ _, quiet) never.
Proof.
  intros Hnull Hinf Hs Hd. unfold bulk.
  destruct (typeof_is_object msg) eqn:Hty; [|quiet_step].
  destruct msg as [| | | | |xs|fields]; try discriminate Hty; [done| |]; simpl.
  - quiet_step.
  - simpl in Hinf.
    destruct (field_lookup "cmd" fields) as [| | | |cmd| |]; try quiet_step;
      destruct (field_lookup "n" fields) as [| | |n| | |]; try quiet_step.
    assert (Hloop : ∀ body, n ≠ PInf →
                            (∀ i, triple quiet (body i) (λ _, quiet) never) →
                            triple quiet (count_loop n body) (λ _, quiet) never).
    { intros body Hn Hbody. unfold count_loop.
      destruct n as [q| | |]; simpl;
        [by apply tot_for_each|done|by apply tot_ret..]. }
    destruct (decide (cmd = "set")) as [->|Hset].
    { apply Hloop; [|done]. intros ->. by apply Hinf; [left|]. }
    destruct (decide (cmd = "del")) as [->|Hdel]; [|quiet_step].
    apply Hloop; [|done]. intros ->. by apply Hinf; [right|].
Qed.

Lemma quiet_onSecondaryMessage (obj : Message) :
  (command obj = "objects" ∨ command obj = "states" → message obj ≠ VNull) →
  (command obj = "objects" ∨ command obj = "states" →
   get_prop (message obj) "cmd" = Some (VStr "set")
   ∨ get_prop (message obj) "cmd" = Some (VStr "del") →
   get_prop (message obj) "n" ≠ Some (VNum PInf)) →
  triple quiet (onSecondaryMessage obj) (λ _, quiet) never.
Proof.
  intros Hnull Hinf. unfold onSecondaryMessage.
  destruct (decide (command obj = "objects")) as [Hobj|_].
  { apply quiet_bulk; [by apply Hnull; left|by apply Hinf; left| |]; intros i;
      unfold setObjectAsync, delObjectAsync, own_id; repeat quiet_step. }
  destruct (decide (command obj = "states")) as [Hst|_].
  { apply quiet_bulk; [by apply Hnull; right|by apply Hinf; right| |]; intros i;
      unfold setStateAsync, delStateAsync, own_id; repeat quiet_step. }
  repeat destruct (decide _).
  - unfold startMeasuring. repeat quiet_step.
  - unfold stopMeasuring.
    do 3 (apply tot_bind; [quiet_step|intros ?]).
    apply tot_bind; [|intros ?; repeat quiet_step].
    destruct a1; [|quiet_step].
    apply tot_bind; [quiet_step|intros report].
    unfold sendToAsync, sendTo. apply tot_bind; [|intros ?; quiet_step].
    apply triple_modify. intros b (sent & Hs & Hall).
    exists (sent ++ [mkSent "benchmark.0" "requestedMonitoring" report None]).
    simpl. rewrite Hs, app_assoc. split; [done|].
    apply Forall_app. split; [done|]. by apply Forall_singleton.
  - quiet_step.
Qed.

Lemma quiet_receiveMonitoring (obj : Message) :
  message obj ≠ VNull →
  triple quiet (receiveMonitoring obj) (λ _, quiet) never.
Proof.
  intros Hnull b (sent & Hs & Hall). rewrite receiveMonitoring_absorb.
  assert (Hres : match message obj with VNull => @Thrown unit | _ => Done tt end
                 = Done tt) by (by destruct (message obj)).
  rewrite Hres. by exists sent.
Qed.

Lemma quiet_spawn_runTests (selected : list string) :
  triple quiet (spawn_runTests selected) (λ _, quiet) never.
Proof.
  unfold spawn_runTests, runTests_start.
  apply tot_bind; [|intros ?; quiet_step].
  apply tot_bind; [quiet_step|intros isolated].
  destruct isolated; [quiet_step|].
  do 6 (apply tot_bind; [quiet_step|intros ?]).
  destruct selected; repeat quiet_step.
Qed.

Lemma quiet_onPrimaryMessage (obj : Message) :
  (command obj = "requestedMonitoring" → message obj ≠ VNull) →
  triple quiet (onPrimaryMessage obj) (λ _, quiet) never.
Proof.
  intros Hnull. unfold onPrimaryMessage.
  repeat destruct (decide _);
    first [by apply quiet_receiveMonitoring; apply Hnull
          | apply quiet_spawn_runTests | quiet_step].
Qed.

End Outbox.

Lemma bulk_forever (msg : jsval) (on_set on_del : nat → M unit) (b : Benchmark) :
  get_prop msg "cmd" = Some (VStr "set") ∨ get_prop msg "cmd" = Some (VStr "del") →
  get_prop msg "n" = Some (VNum PInf) →
  bulk msg on_set on_del b = (b, Diverged).
Proof.
  intros Hcmd Hn. unfold bulk.
  destruct msg as [| | | | |xs|fields]; simpl in *;
    try (destruct Hcmd as [Hcmd|Hcmd]; discriminate Hcmd).
  apply (inj Some) in Hn. rewrite Hn.
  destruct Hcmd as [Hcmd|Hcmd]; apply (inj Some) in Hcmd; rewrite Hcmd; done.
Qed.


(** ** Bulk requests to a secondary *)

Lemma bulk_malformed (msg : jsval) (on_set on_del : nat → M unit) :
  msg ≠ VNull → malformed msg → bulk msg on_set on_del = ret tt.
Proof.
  intros Hnull Hbad. unfold bulk.
  destruct msg as [| | | | |xs|fields]; simpl; try done.
  destruct Hbad as [Hty|[Hcmd|Hn]]; [discriminate Hty| |]; simpl in *.
  - destruct (field_lookup "cmd" fields) as [| | | |c| |]; try done.
    destruct (Hcmd c eq_refl) as [H1 H2].
    destruct (field_lookup "n" fields); try done.
    by rewrite !decide_False.
  - destruct (field_lookup "cmd" fields) as [| | | |c| |]; try done.
    destruct (field_lookup "n" fields) as [| | |n| | |]; try done.
    by destruct (Hn n).
Qed.

(** A malformed payload other than [null]: nothing is written or
    deleted, and the acknowledgement is sent. *)
Lemma malformed_bulk_is_acknowledged (obj : Message) (b : Benchmark) :
  secondaryMode (config b) = true →
  command obj = "objects" ∨ command obj = "states" →
  message obj ≠ VNull → malformed (message obj) →
  ∃ b', onMessage obj b = (b', Done tt) ∧
    objects b' = objects b ∧ states b' = states b ∧
    outbox b' = outbox b ++
      [mkSent (from obj) (command obj) (VObj []) (Some (callback obj))].
Proof.
  intros Hsec Hcmd Hnull Hbad. rewrite onMessage_eq, Hsec.
  destruct obj as [sender cmd msg cb]. simpl in *.
  unfold onSecondaryMessage. simpl.
  destruct Hcmd as [->| ->].
  - rewrite decide_True by done. rewrite bulk_malformed by done.
    eexists. split; [reflexivity|]. by repeat split.
  - rewrite decide_False by done. rewrite decide_True by done.
    rewrite bulk_malformed by done.
    eexists. split; [reflexivity|]. by repeat split.
Qed.

Lemma setObjectAsync_step (id : string) (o : IoObject) (b : Benchmark) :
  ∃ b', setObjectAsync id o b = (b', Done tt) ∧
    namespace b' = namespace b ∧ states b' = states b ∧ outbox b' = outbox b ∧
    objects b' = <[namespace b +:+ "." +:+ id := o]> (objects b).
Proof.
  unfold setObjectAsync, own_id, bind, get_, modify.
  rewrite await_eq, no_rejection.
  destruct (suspended_frame (PSetObject (namespace b +:+ "." +:+ id)) b)
    as (Hn&_&_&_&_&_&_&Ho&Hs&Hx&_).
  eexists. split; [done|]. simpl in *. by rewrite Ho.
Qed.

Lemma set_objects_loop (indices : list nat) (b : Benchmark) :
  ∃ b', for_each indices
          (λ i, setObjectAsync ("test." +:+ pretty i) (testObject i)) b
        = (b', Done tt) ∧
    namespace b' = namespace b ∧ states b' = states b ∧ outbox b' = outbox b ∧
    objects b' = foldl (λ m i, <[test_id (namespace b) i := testObject i]> m)
                   (objects b) indices.
Proof.
  revert b. induction indices as [|i rest IH]; intros b; cbn [for_each foldl].
  - by exists b.
  - unfold bind.
    destruct (setObjectAsync_step ("test." +:+ pretty i) (testObject i) b)
      as (b1 & -> & Hn & Hs & Hx & Ho).
    destruct (IH b1) as (b' & -> & Hn' & Hs' & Hx' & Ho').
    exists b'. repeat split; try congruence.
    rewrite Ho', Hn, Ho. done.
Qed.

Lemma test_id_inj (ns : string) : Inj (=) (=) (test_id ns).
Proof.
  intros i j H. unfold test_id in H.
  do 3 apply (inj (String.app _)) in H. by apply (inj pretty) in H.
Qed.

Lemma fold_insert_other (ns : string) (indices : list nat)
    (m : gmap string IoObject) (k : string) :
  (∀ i, i ∈ indices → test_id ns i ≠ k) →
  foldl (λ m i, <[test_id ns i := testObject i]> m) m indices !! k = m !! k.
Proof.
  revert m. induction indices as [|i rest IH]; intros m Hk; simpl; [done|].
  rewrite IH by (intros j Hj; apply Hk; by right).
  apply lookup_insert_ne, Hk. by left.
Qed.

Lemma fold_insert_here (ns : string) (indices : list nat)
    (m : gmap string IoObject) (i : nat) :
  i ∈ indices →
  foldl (λ m i, <[test_id ns i := testObject i]> m) m indices !! test_id ns i
  = Some (testObject i).
Proof.
  revert m. induction indices as [|j rest IH]; intros m Hi; simpl.
  - by apply elem_of_nil in Hi.
  - destruct (decide (i ∈ rest)) as [Hin|Hnin]; [by apply IH|].
    apply elem_of_cons in Hi as [->|Hi]; [|done].
    rewrite fold_insert_other; [by rewrite lookup_insert_eq|].
    intros i Hi Heq. apply test_id_inj in Heq. by subst.
Qed.

(** 'objects' with [{cmd: 'set', n}], [n] a natural number: exactly the
    [n] objects test.0 to test.(n-1) are written, nothing else changes in
    the stores, and the acknowledgement is sent. *)
Lemma set_objects_writes_n (obj : Message) (b : Benchmark) (n : nat) :
  secondaryMode (config b) = true → command obj = "objects" →
  message obj = VObj [("cmd", VStr "set"); ("n", VNum (Fin (qnat n)))] →
  ∃ b', onMessage obj b = (b', Done tt) ∧
    (∀ i, (i < n)%nat →
       objects b' !! test_id (namespace b) i = Some (testObject i)) ∧
    (∀ k, (∀ i, (i < n)%nat → test_id (namespace b) i ≠ k) →
       objects b' !! k = objects b !! k) ∧
    NoDup (test_id (namespace b) <$> seq 0 n) ∧
    states b' = states b ∧
    outbox b' = outbox b ++
      [mkSent (from obj) (command obj) (VObj []) (Some (callback obj))].
Proof.
  intros Hsec Hcmd Hmsg. rewrite onMessage_eq, Hsec.
  destruct obj as [sender cmd msg cb]. simpl in *. subst cmd msg.
  unfold onSecondaryMessage, bulk. simpl.
  unfold count_loop, rounds.
  assert (Hn : Z.to_nat (Qceiling (qnat n)) = n).
  { unfold qnat, qz, Q2Qc. cbn [this]. rewrite Qred_correct, Qceiling_Z. lia. }
  rewrite Hn. unfold bind.
  destruct (set_objects_loop (seq 0 n) b) as (b1 & -> & Hns & Hs & Hx & Ho).
  eexists. split; [done|]. simpl. rewrite Hx, Hs, Ho.
  split; [|split; [|split]]; [| | |done].
  - intros i Hi. apply fold_insert_here, elem_of_seq. lia.
  - intros k Hk. apply fold_insert_other. intros i Hi. apply Hk.
    apply elem_of_seq in Hi. lia.
  - apply NoDup_fmap_2; [apply test_id_inj|apply NoDup_seq].
Qed.

(** * Further properties *)

(** ** The two statistics on doubles *)

(** X26.  On doubles the mean of equal samples need not be the sample,
    and the standard deviation of finite samples need not be finite: three
    samples of 0.7 have a mean below 0.7 and three of 0.1 one above 0.1;
    three times of 0.175 s give a rounded mean of 0.17 although 0.175
    itself is rounded to 0.18; the samples 1e200 and 0 have the deviation
    +Infinity, the square of the difference from their mean being too large
    for a double.  A list with no sample has the mean and the deviation
    NaN. *)
Theorem statistics_on_doubles :
  let mean := Binary64.calcMean in
  let d7 := Binary64.dec 7 10 in
  let d1 := Binary64.dec 1 10 in
  let d175 := Binary64.dec 175 1000 in
  (Binary64.value (mean [d7; d7; d7]) < Binary64.value d7)%Q ∧
  (Binary64.value d1 < Binary64.value (mean [d1; d1; d1]))%Q ∧
  Binary64.round (mean [d175; d175; d175]) = Binary64.dec 17 100 ∧
  Binary64.round d175 = Binary64.dec 18 100 ∧
  Binary64.calcStd [Binary64.of_Z (10 ^ 200); Binary64.of_Z 0]
  = SpecFloat.S754_infinity false ∧
  mean [] = SpecFloat.S754_nan ∧ Binary64.calcStd [] = SpecFloat.S754_nan.
Proof. repeat split; vm_compute; reflexivity. Qed.

(** ** The two statistics on samples that are not numbers *)

Lemma foldl_js_add_NaN (arr : list num) :
  foldl (λ partialSum x, js_add partialSum x) NaN arr = NaN.
Proof. induction arr as [|x arr IH]; simpl; [done|]. by destruct x. Qed.

Lemma foldl_js_add_has_NaN (arr : list num) (a : num) :
  NaN ∈ arr → foldl (λ partialSum x, js_add partialSum x) a arr = NaN.
Proof.
  revert a. induction arr as [|x arr IH]; intros a Hin; simpl.
  - by apply elem_of_nil in Hin.
  - apply elem_of_cons in Hin as [<-|Hin]; [|by apply IH].
    replace (js_add a NaN) with NaN by (by destruct a).
    apply foldl_js_add_NaN.
Qed.

Lemma calcMean_has_NaN (arr : list num) : NaN ∈ arr → calcMean arr = NaN.
Proof. intros Hin. unfold calcMean. by rewrite foldl_js_add_has_NaN. Qed.

(** X5.  One NaN among the samples makes both statistics NaN: the mean,
    and through it every squared deviation and the standard deviation. *)
Theorem NaN_sample_poisons (arr : list num) :
  NaN ∈ arr → calcMean arr = NaN ∧ calcStd arr = NaN.
Proof.
  intros Hin. split; [by apply calcMean_has_NaN|].
  unfold calcStd. rewrite (calcMean_has_NaN arr Hin).
  rewrite calcMean_has_NaN; [done|].
  apply list_elem_of_fmap. exists NaN. by split.
Qed.

Lemma js_div_NaN_r (x : num) : js_div x NaN = NaN.
Proof. by destruct x. Qed.

(** X7.  Without a single time the summary has no number to show: the
    mean and the deviation of the times are NaN, and so are both
    actions-per-second fields, [actionsPerSecondStd] included, because
    NaN is not equal to 0.  The same holds for a secondary that reported
    no time. *)
Theorem empty_times_give_NaN (its : num) (cpu mem lags : list num)
    (k : nat) (e : RequestedMonitoringEntry) :
  (let s := ownStats its [] cpu mem lags in
   timeMean s = NaN ∧ timeStd s = NaN ∧
   actionsPerSecondMean s = NaN ∧ actionsPerSecondStd s = NaN) ∧
  (e_time e = [] →
   let s := secondaryStats its k e in
   timeMean s = NaN ∧ timeStd s = NaN ∧
   actionsPerSecondMean s = NaN ∧ actionsPerSecondStd s = NaN).
Proof.
  assert (Hm : round (calcMean []) = NaN) by (vm_compute; reflexivity).
  assert (Hs : round (calcStd []) = NaN) by (vm_compute; reflexivity).
  split.
  - simpl. rewrite Hm, Hs, js_div_NaN_r. simpl. done.
  - intros He. simpl. rewrite He, Hm, Hs, js_div_NaN_r. simpl. done.
Qed.

(** ** Attribution of samples *)

Lemma ticks_dropped (ticks : list Tick) (b : Benchmark) :
  activeTest b = "none" → foldl (λ acc t, sampler_tick t acc) b ticks = b.
Proof.
  intros Hnone. induction ticks as [|t ticks IH]; simpl; [done|].
  unfold sampler_tick at 2. by rewrite decide_True.
Qed.

Lemma suspended_none (p : Point) (b : Benchmark) :
  activeTest b = "none" →
  suspended p b = set_observed (observed b ++ [(p, "none")]) b ∧
  cpuStats (suspended p b) = cpuStats b ∧
  memStats (suspended p b) = memStats b ∧
  internalEventLoopLags (suspended p b) = internalEventLoopLags b.
Proof.
  intros Hnone. unfold suspended. rewrite ticks_dropped by done.
  by rewrite Hnone.
Qed.

(** X8.  While the marker is 'none', whatever the two samplers measure is
    dropped: a suspension leaves the three series, and every other field
    but the log, exactly as they were. *)
Theorem samples_dropped_outside_execute (p : Point) (b : Benchmark) :
  activeTest b = "none" →
  suspended p b = set_observed (observed b ++ [(p, "none")]) b ∧
  cpuStats (suspended p b) = cpuStats b ∧
  memStats (suspended p b) = memStats b ∧
  internalEventLoopLags (suspended p b) = internalEventLoopLags b.
Proof. apply suspended_none. Qed.

Lemma push_to_present (k : string) (x : num) (l : list num)
    (m : gmap string (list num)) :
  m !! k = Some l → push_to k x m = <[k := l ++ [x]]> m.
Proof. intros H. unfold push_to. by rewrite H. Qed.

Lemma ticks_attributed (ticks : list Tick) (b : Benchmark) (w : string)
    (cs ms ls : list num) :
  activeTest b = w → w ≠ "none" →
  cpuStats b !! w = Some cs → memStats b !! w = Some ms →
  internalEventLoopLags b !! w = Some ls →
  let b' := foldl (λ acc t, sampler_tick t acc) b ticks in
  cpuStats b' = <[w := cs ++ cpu_of ticks]> (cpuStats b) ∧
  memStats b' = <[w := ms ++ mem_of ticks]> (memStats b) ∧
  internalEventLoopLags b' = <[w := ls ++ lag_of ticks]> (internalEventLoopLags b).
Proof.
  intros Hw Hne. revert b cs ms ls Hw.
  induction ticks as [|t ticks IH]; intros b cs ms ls Hw Hc Hm Hl; simpl.
  - rewrite !app_nil_r. by rewrite !insert_id.
  - assert (Hstep : ∃ b1, sampler_tick t b = b1 ∧ activeTest b1 = w ∧
      cpuStats b1 = <[w := cs ++ cpu_of [t]]> (cpuStats b) ∧
      memStats b1 = <[w := ms ++ mem_of [t]]> (memStats b) ∧
      internalEventLoopLags b1 = <[w := ls ++ lag_of [t]]> (internalEventLoopLags b)).
    { eexists. split; [done|]. unfold sampler_tick.
      rewrite decide_False by congruence. rewrite Hw.
      destruct t as [cpu memory|lag]; simpl.
      - rewrite Hc. simpl. rewrite (push_to_present _ _ _ _ Hc).
        rewrite (push_to_present _ _ _ _ Hm).
        rewrite app_nil_r, (insert_id _ _ _ Hl). done.
      - rewrite (push_to_present _ _ _ _ Hl).
        rewrite !app_nil_r, (insert_id _ _ _ Hc), (insert_id _ _ _ Hm). done. }
    destruct Hstep as (b1 & -> & Hw1 & Hc1 & Hm1 & Hl1).
    destruct (IH b1 (cs ++ cpu_of [t]) (ms ++ mem_of [t]) (ls ++ lag_of [t]) Hw1)
      as (Hc2 & Hm2 & Hl2).
    { by rewrite Hc1, lookup_insert_eq. }
    { by rewrite Hm1, lookup_insert_eq. }
    { by rewrite Hl1, lookup_insert_eq. }
    rewrite Hc2, Hm2, Hl2, Hc1, Hm1, Hl1, !insert_insert_eq, <- !app_assoc.
    by destruct t.
Qed.

Lemma suspended_marked (p : Point) (b : Benchmark) (w : string)
    (cs ms ls : list num) :
  activeTest b = w → w ≠ "none" →
  cpuStats b !! w = Some cs → memStats b !! w = Some ms →
  internalEventLoopLags b !! w = Some ls →
  cpuStats (suspended p b) = <[w := cs ++ cpu_of (fires env p)]> (cpuStats b) ∧
  memStats (suspended p b) = <[w := ms ++ mem_of (fires env p)]> (memStats b) ∧
  internalEventLoopLags (suspended p b)
  = <[w := ls ++ lag_of (fires env p)]> (internalEventLoopLags b) ∧
  length (cpu_of (fires env p)) = length (mem_of (fires env p)).
Proof.
  intros Hw Hne Hc Hm Hl. unfold suspended.
  destruct (ticks_attributed (fires env p)
              (set_observed (observed b ++ [(p, activeTest b)]) b) w cs ms ls)
    as (H1 & H2 & H3); try done.
  repeat split; try done. clear H1 H2 H3.
  induction (fires env p) as [|[] ticks IH]; simpl; [done| |done]. by f_equal.
Qed.

(** X9.  While the marker names a workload whose three series exist,
    a suspension appends to them exactly what the samplers measured, in
    the order of the ticks: the cpu and memory values of every probe and
    the value of every lag callback, as many cpu as memory values; the
    series of the other keys stay as they are. *)
Theorem samples_attributed_to_marker (p : Point) (b : Benchmark) (w : string)
    (cs ms ls : list num) :
  activeTest b = w → w ≠ "none" →
  cpuStats b !! w = Some cs → memStats b !! w = Some ms →
  internalEventLoopLags b !! w = Some ls →
  cpuStats (suspended p b) = <[w := cs ++ cpu_of (fires env p)]> (cpuStats b) ∧
  memStats (suspended p b) = <[w := ms ++ mem_of (fires env p)]> (memStats b) ∧
  internalEventLoopLags (suspended p b)
  = <[w := ls ++ lag_of (fires env p)]> (internalEventLoopLags b) ∧
  length (cpu_of (fires env p)) = length (mem_of (fires env p)).
Proof. apply suspended_marked. Qed.

(** ** What an epoch loop collects *)

Lemma others_suspended (p : Point) (b : Benchmark) :
  others (suspended p b) = others b.
Proof.
  destruct (suspended_frame p b) as (H1&H2&_&H4&H5&H6&H7&H8&H9&H10&H11&_).
  unfold others. simpl in *. congruence.
Qed.

Lemma host_suspended (p : Point) (b : Benchmark) :
  host (suspended p b) = host b.
Proof.
  destruct (suspended_frame p b) as (H1&H2&_&H4&H5&H6&H7&H8&H9&H10&H11&_).
  unfold host. simpl in *. congruence.
Qed.

Lemma await_none (p : Point) (b : Benchmark) :
  activeTest b = "none" →
  await p b = (set_observed (observed b ++ [(p, "none")]) b, Done tt).
Proof.
  intros Hnone. rewrite await_eq, no_rejection.
  by destruct (suspended_none p b Hnone) as [-> _].
Qed.

Lemma none_is_no_workload (w : string) : w ∈ allTests → w ≠ "none".
Proof.
  intros Hw ->. revert Hw. apply (bool_decide_unpack _). vm_compute. exact I.
Qed.

(** *** The events of an epoch *)

Lemma after_app (evs1 evs2 : list Event) (b : Benchmark) :
  after (evs1 ++ evs2) b = after evs2 (after evs1 b).
Proof. apply foldl_app. Qed.

Lemma others_after (evs : list Event) (b : Benchmark) :
  others (after evs b) = others b.
Proof.
  destruct (after_frame evs b) as (H1&H2&_&_&_&H6&H7&_&H9&H10&_).
  unfold others. congruence.
Qed.

Lemma samples_after (evs : list Event) (b : Benchmark) :
  samples (after evs b) = samples b.
Proof.
  destruct (after_frame evs b) as (_&_&_&H4&H5&_&_&H8&_).
  unfold samples. congruence.
Qed.

Lemma occurs_host (e : Event) (b1 b2 : Benchmark) :
  host b1 = host b2 → config b1 = config b2 →
  host (occurs e b1) = host (occurs e b2).
Proof.
  unfold host. intros [= Ho Hs Hx Hr] Hc.
  destruct e as [id o|id|id st|id|m|sender payload cb]; simpl;
    try congruence.
  rewrite !onMessage_report by done. rewrite Hc.
  destruct (secondaryMode (config b2)); simpl; [congruence|].
  destruct payload; simpl; congruence.
Qed.

Lemma after_host (evs : list Event) (b1 b2 : Benchmark) :
  host b1 = host b2 → config b1 = config b2 →
  host (after evs b1) = host (after evs b2).
Proof.
  revert b1 b2. induction evs as [|e evs IH]; intros b1 b2 Hh Hc; simpl; [done|].
  apply IH; [by apply occurs_host|].
  destruct (occurs_frame e b1) as (_&->&_), (occurs_frame e b2) as (_&->&_). done.
Qed.

(** The reports received along a list of events: on a primary they are
    merged entry by entry, a secondary keeps none. *)
Lemma requestedMonitoring_after (evs : list Event) (b : Benchmark) :
  requestedMonitoring (after evs b)
  = if secondaryMode (config b) then requestedMonitoring b
    else collected evs (requestedMonitoring b).
Proof.
  revert b. induction evs as [|e evs IH]; intros b; simpl.
  - by destruct (secondaryMode (config b)).
  - rewrite IH. destruct (occurs_frame e b) as (_&->&_).
    destruct (secondaryMode (config b)) eqn:Hsec.
    + destruct e as [id o|id|id st|id|m|sender payload cb]; simpl; try done.
      rewrite onMessage_report by done. by rewrite Hsec.
    + f_equal. destruct e as [id o|id|id st|id|m|sender payload cb]; simpl; try done.
      rewrite onMessage_report by done. rewrite Hsec. simpl. by destruct payload.
Qed.

(** An object that the events neither write nor delete is as before. *)
Lemma objects_after (evs : list Event) (id : string) (b : Benchmark) :
  (∀ o, ObjectWritten id o ∉ evs) → ObjectDeleted id ∉ evs →
  objects (after evs b) !! id = objects b !! id.
Proof.
  revert b. induction evs as [|e evs IH]; intros b Hw Hd; simpl; [done|].
  rewrite IH.
  - destruct e as [id' o|id'|id' st|id'|m|sender payload cb]; simpl; try done.
    + apply lookup_insert_ne. intros ->. apply (Hw o). by left.
    + apply lookup_delete_ne. intros ->. apply Hd. by left.
    + rewrite onMessage_report by done.
      destruct (secondaryMode (config b)); [done|]. simpl. by destruct payload.
  - intros o Hin. apply (Hw o). by right.
  - intros Hin. apply Hd. by right.
Qed.

Lemma busy_none (p : Point) (b : Benchmark) :
  activeTest b = "none" →
  ∃ b1, await_busy p b = (b1, Done tt) ∧ activeTest b1 = "none" ∧
    samples b1 = samples b ∧ others b1 = others b ∧
    host b1 = host (after (happens env p) b) ∧
    ∀ id, objects b1 !! id = objects (after (happens env p) b) !! id.
Proof.
  intros Hnone. rewrite await_busy_eq, no_rejection.
  destruct (suspended_none p b Hnone) as [Hs _]. rewrite Hs.
  set (b0 := set_observed (observed b ++ [(p, "none")]) b).
  assert (Hh : host (after (happens env p) b0) = host (after (happens env p) b))
    by (by apply after_host).
  eexists. split; [done|].
  destruct (after_frame (happens env p) b0) as (_&_&Ha&_).
  split; [by rewrite Ha|]. split; [by rewrite samples_after|].
  split; [by rewrite others_after|]. split; [done|].
  intros id. unfold host in Hh. by injection Hh as ->.
Qed.

Lemma busy_marked (p : Point) (b : Benchmark) (w : string) (cs ms ls : list num) :
  activeTest b = w → w ≠ "none" →
  cpuStats b !! w = Some cs → memStats b !! w = Some ms →
  internalEventLoopLags b !! w = Some ls →
  ∃ b1, await_busy p b = (b1, Done tt) ∧ activeTest b1 = w ∧
    cpuStats b1 = <[w := cs ++ cpu_of (fires env p)]> (cpuStats b) ∧
    memStats b1 = <[w := ms ++ mem_of (fires env p)]> (memStats b) ∧
    internalEventLoopLags b1
    = <[w := ls ++ lag_of (fires env p)]> (internalEventLoopLags b) ∧
    others b1 = others b ∧
    host b1 = host (after (happens env p) b).
Proof.
  intros Hw Hne Hc Hm Hl. rewrite await_busy_eq, no_rejection.
  destruct (suspended_marked p b w cs ms ls Hw Hne Hc Hm Hl) as (Hc1 & Hm1 & Hl1 & _).
  pose proof (samples_after (happens env p) (suspended p b)) as Hs.
  unfold samples in Hs. injection Hs as Hs1 Hs2 Hs3.
  destruct (after_frame (happens env p) (suspended p b)) as (_&_&Ha&_).
  eexists. split; [done|].
  split; [by rewrite Ha, suspended_activeTest|].
  split; [by rewrite Hs1|]. split; [by rewrite Hs2|]. split; [by rewrite Hs3|].
  split; [by rewrite others_after, others_suspended|].
  apply after_host; [apply host_suspended|].
  by destruct (suspended_frame p b) as (_&->&_).
Qed.

Lemma epochLoop_spec (w : string) (n j : nat) (times : list num)
    (b : Benchmark) (cs ms ls : list num) :
  w ∈ allTests → activeTest b = "none" →
  cpuStats b !! w = Some cs → memStats b !! w = Some ms →
  internalEventLoopLags b !! w = Some ls →
  ∃ b',
    epochLoop w n j times b = (b', Done (times ++ (elapsed env w <$> seq j n))) ∧
    activeTest b' = "none" ∧
    cpuStats b' = <[w := cs ++ execute_samples cpu_of w j n]> (cpuStats b) ∧
    memStats b' = <[w := ms ++ execute_samples mem_of w j n]> (memStats b) ∧
    internalEventLoopLags b'
    = <[w := ls ++ execute_samples lag_of w j n]> (internalEventLoopLags b) ∧
    others b' = others b ∧
    host b' = host (after (epoch_events w j n) b).
Proof.
  intros Hw. pose proof (none_is_no_workload w Hw) as Hne.
  revert j times b cs ms ls.
  induction n as [|n IH]; intros j times b cs ms ls Hnone Hc Hm Hl.
  - exists b. unfold execute_samples, epoch_events. simpl. rewrite !app_nil_r.
    by rewrite !insert_id.
  - cbn [epochLoop]. rewrite decide_True by done.
    unfold bind at 1. cbn [ret].
    unfold bind at 1.
    destruct (busy_none (PPrepare w j) b Hnone)
      as (b1 & -> & Hn1 & Hs1 & Ho1 & Hh1 & _).
    unfold samples in Hs1. injection Hs1 as Hc1 Hm1 Hl1.
    unfold bind at 1. cbn [modify].
    set (b2 := set_activeTest w b1).
    unfold bind at 1.
    destruct (busy_marked (PExecute w j) b2 w cs ms ls)
      as (b3 & -> & Ha3 & Hc3 & Hm3 & Hl3 & Ho3 & Hh3); try done.
    { simpl. by rewrite Hc1. } { simpl. by rewrite Hm1. } { simpl. by rewrite Hl1. }
    unfold bind at 1. cbn [modify].
    set (b4 := set_activeTest "none" b3).
    unfold bind at 1.
    destruct (busy_none (PCleanUp w j) b4 eq_refl)
      as (b5 & -> & Hn5 & Hs5 & Ho5 & Hh5 & _).
    unfold samples in Hs5. injection Hs5 as Hc5 Hm5 Hl5.
    unfold bind at 1.
    destruct (busy_none (PWait w j) b5 Hn5)
      as (b6 & -> & Hn6 & Hs6 & Ho6 & Hh6 & _).
    unfold samples in Hs6. injection Hs6 as Hc6 Hm6 Hl6.
    simpl in Hc3, Hm3, Hl3, Hc5, Hm5, Hl5.
    assert (Hoth : others b6 = others b).
    { rewrite Ho6, Ho5. change (others b4) with (others b3). rewrite Ho3.
      change (others b2) with (others b1). done. }
    assert (Hcfg : ∀ x y, others x = others y → config x = config y)
      by (by intros x y [= _ ->]).
    set (this := happens env (PPrepare w j) ++ happens env (PExecute w j) ++
                 happens env (PCleanUp w j) ++ happens env (PWait w j)).
    assert (Hhost : host b6 = host (after this b)).
    { subst this. rewrite !after_app, Hh6.
      apply after_host.
      2:{ rewrite (Hcfg _ _ Ho5). change (config b4) with (config b3).
          rewrite (Hcfg _ _ Ho3). change (config b2) with (config b1).
          rewrite (Hcfg _ _ Ho1).
          by rewrite !(Hcfg _ _ (others_after _ _)). }
      rewrite Hh5. apply after_host.
      2:{ change (config b4) with (config b3).
          rewrite (Hcfg _ _ Ho3). change (config b2) with (config b1).
          rewrite (Hcfg _ _ Ho1).
          by rewrite !(Hcfg _ _ (others_after _ _)). }
      change (host b4) with (host b3). rewrite Hh3. apply after_host.
      2:{ change (config b2) with (config b1). rewrite (Hcfg _ _ Ho1).
          by rewrite !(Hcfg _ _ (others_after _ _)). }
      exact Hh1. }
    destruct (IH (S j) (times ++ [elapsed env w j]) b6
                (cs ++ cpu_of (fires env (PExecute w j)))
                (ms ++ mem_of (fires env (PExecute w j)))
                (ls ++ lag_of (fires env (PExecute w j))))
      as (b' & Hrun & Hnone' & Hc' & Hm' & Hl' & Ho' & Hh'); try done.
    { rewrite Hc6, Hc5, Hc3. by rewrite lookup_insert_eq. }
    { rewrite Hm6, Hm5, Hm3. by rewrite lookup_insert_eq. }
    { rewrite Hl6, Hl5, Hl3. by rewrite lookup_insert_eq. }
    exists b'. rewrite Hrun. split.
    { f_equal. f_equal. rewrite <- app_assoc. done. }
    split; [done|].
    rewrite Hc', Hm', Hl', Ho', Hoth, Hc6, Hc5, Hc3, Hm6, Hm5, Hm3, Hl6, Hl5, Hl3.
    simpl. rewrite Hc1, Hm1, Hl1, !insert_insert_eq.
    unfold execute_samples. cbn [seq fmap list_fmap concat].
    rewrite <- !app_assoc. repeat (split; [done|]).
    rewrite Hh'. unfold epoch_events. cbn [seq fmap list_fmap concat].
    fold this. rewrite after_app. apply after_host; [done|].
    rewrite (Hcfg _ _ Hoth). by rewrite (Hcfg _ _ (others_after _ _)).
Qed.

(** X10.  An epoch loop of [n] rounds over a workload of the registry,
    started while the marker is 'none' and the three series of the
    workload exist, with no awaited call rejecting: the times recorded
    are the elapsed times of the [n] epochs in order; each series has
    gained exactly the samples taken during the [n] calls of [execute()],
    in order, and nothing taken during [prepare()], [cleanUp()] or the
    cooldown; the marker is 'none' again.  The two stores, the outbox and
    the reports received are what the events of the [4n] suspensions, in
    order, have made of them; no other field but the log has changed. *)
Theorem epochLoop_collects (w : string) (n j : nat) (times : list num)
    (b : Benchmark) (cs ms ls : list num) :
  w ∈ allTests → activeTest b = "none" →
  cpuStats b !! w = Some cs → memStats b !! w = Some ms →
  internalEventLoopLags b !! w = Some ls →
  ∃ b',
    epochLoop w n j times b = (b', Done (times ++ (elapsed env w <$> seq j n))) ∧
    activeTest b' = "none" ∧
    cpuStats b' = <[w := cs ++ execute_samples cpu_of w j n]> (cpuStats b) ∧
    memStats b' = <[w := ms ++ execute_samples mem_of w j n]> (memStats b) ∧
    internalEventLoopLags b'
    = <[w := ls ++ execute_samples lag_of w j n]> (internalEventLoopLags b) ∧
    others b' = others b ∧
    host b' = host (after (epoch_events w j n) b).
Proof. apply epochLoop_spec. Qed.

(** ** What the reduction persists *)

Lemma setStateAsync_at_rest ns cfg act C Mm L RM O X S id v a :
  triple (at_rest ns cfg act C Mm L RM O X S) (setStateAsync id v a)
    (λ _, at_rest ns cfg act C Mm L RM O X (<[ns +:+ "." +:+ id := mkState v a]> S))
    never.
Proof.
  intros b (Hnone & Hns & Hcfg & HC & HM & HL & HRM & HO & HX & HS & HA).
  unfold setStateAsync, own_id, bind, get_. rewrite await_none by done.
  simpl. rewrite Hns, HS. by repeat split.
Qed.

Lemma triple_pure {A} (P : Benchmark → Prop) (φ : Prop) (c : M A) Q R :
  (φ → triple P c Q R) → triple (λ b, P b ∧ φ) c Q R.
Proof. intros H b [Hb Hφ]. by apply H. Qed.

Lemma get_series_at_rest ns cfg act C Mm L RM O X S
    (f : Benchmark → gmap string (list num)) (w : string) (l : list num) :
  (∀ b, at_rest ns cfg act C Mm L RM O X S b → f b !! w = Some l) →
  triple (at_rest ns cfg act C Mm L RM O X S) (get_series f w)
    (λ r b, at_rest ns cfg act C Mm L RM O X S b ∧ r = l) never.
Proof. intros Hf b Hb. unfold get_series. by rewrite (Hf b Hb). Qed.

Lemma get_at_rest {A} ns cfg act C Mm L RM O X S (f : Benchmark → A) (v : A) :
  (∀ b, at_rest ns cfg act C Mm L RM O X S b → f b = v) →
  triple (at_rest ns cfg act C Mm L RM O X S) (get_ f)
    (λ r b, at_rest ns cfg act C Mm L RM O X S b ∧ r = v) never.
Proof. intros Hf. apply triple_get. intros b Hb. split; [done|]. by apply Hf. Qed.

Lemma free_series_at_rest ns cfg act C Mm L RM O X S (w : string) :
  triple (at_rest ns cfg act C Mm L RM O X S)
    (modify (λ b, set_cpuStats (delete w (cpuStats b)) b) ;;
     modify (λ b, set_memStats (delete w (memStats b)) b) ;;
     modify (λ b, set_internalEventLoopLags (delete w (internalEventLoopLags b)) b) ;;
     modify (set_requestedMonitoring ∅))
    (λ _, at_rest ns cfg act (delete w C) (delete w Mm) (delete w L) ∅ O X S) never.
Proof.
  intros b (?&?&?&HC&HM&HL&?&?&?&?&?). simpl.
  rewrite HC, HM, HL. by repeat split.
Qed.

Lemma state_id_inj (ns w f g : string) : state_id ns w f = state_id ns w g → f = g.
Proof. unfold state_id. intros H. by do 3 apply (inj (String.app _)) in H. Qed.

Ltac other_state :=
  rewrite lookup_insert_ne by (intros Hk; apply state_id_inj in Hk; discriminate Hk).

Lemma reduceWorkload_spec (w : string) (times cpu mem lags : list num)
    (b : Benchmark) :
  activeTest b = "none" →
  cpuStats b !! w = Some cpu → memStats b !! w = Some mem →
  internalEventLoopLags b !! w = Some lags →
  let its := iterations (config b) in
  let st := ownStats its times cpu mem lags in
  ∃ b',
    reduceWorkload w times b = (b', Done tt) ∧
    states b' !! state_id (namespace b) w ".summary"
    = Some (mkState
              (SSummary (mkSummary st (attachSecondaries its (requestedMonitoring b))))
              true) ∧
    (∀ f get, (f, get) ∈ scalar_states →
       states b' !! state_id (namespace b) w f
       = Some (mkState (SNum (get st)) true)) ∧
    (∀ k, k ≠ state_id (namespace b) w ".summary" →
          (∀ f get, (f, get) ∈ scalar_states → k ≠ state_id (namespace b) w f) →
          states b' !! k = states b !! k) ∧
    cpuStats b' = delete w (cpuStats b) ∧
    memStats b' = delete w (memStats b) ∧
    internalEventLoopLags b' = delete w (internalEventLoopLags b) ∧
    requestedMonitoring b' = ∅ ∧ activeTest b' = "none" ∧
    objects b' = objects b ∧ config b' = config b ∧ outbox b' = outbox b ∧
    monitoringActive b' = monitoringActive b ∧ namespace b' = namespace b.
Proof.
  intros Hnone Hc Hm Hl its st.
  set (ns := namespace b). set (cfg := config b).
  set (RM := requestedMonitoring b). set (act := monitoringActive b).
  set (C := cpuStats b) in *. set (Mm := memStats b) in *.
  set (L := internalEventLoopLags b) in *.
  assert (Hb : at_rest ns cfg act C Mm L RM (objects b) (outbox b) (states b) b)
    by by repeat split.
  evar (Sf : gmap string State).
  assert (H : triple (at_rest ns cfg act C Mm L RM (objects b) (outbox b) (states b))
    (reduceWorkload w times)
    (λ _, at_rest ns cfg act (delete w C) (delete w Mm) (delete w L) ∅
            (objects b) (outbox b) Sf)
    never).
  { unfold reduceWorkload.
    do 2 (eapply triple_bind; [apply setStateAsync_at_rest|intros ?]).
    eapply triple_bind;
      [apply (get_series_at_rest _ _ _ _ _ _ _ _ _ _ cpuStats w cpu);
       by intros b0 (_&_&_&->&_)|intros cpu0].
    apply triple_pure. intros ->.
    do 2 (eapply triple_bind; [apply setStateAsync_at_rest|intros ?]).
    eapply triple_bind;
      [apply (get_series_at_rest _ _ _ _ _ _ _ _ _ _ memStats w mem);
       by intros b0 (_&_&_&_&->&_)|intros mem0].
    apply triple_pure. intros ->.
    do 2 (eapply triple_bind; [apply setStateAsync_at_rest|intros ?]).
    eapply triple_bind;
      [apply (get_series_at_rest _ _ _ _ _ _ _ _ _ _ internalEventLoopLags w lags);
       by intros b0 (_&_&_&_&_&->&_)|intros lags0].
    apply triple_pure. intros ->.
    do 2 (eapply triple_bind; [apply setStateAsync_at_rest|intros ?]).
    eapply triple_bind;
      [apply (get_at_rest _ _ _ _ _ _ _ _ _ _ _ its); by intros b0 (_&_&->&_)
      |intros its0].
    apply triple_pure. intros ->.
    do 2 (eapply triple_bind; [apply setStateAsync_at_rest|intros ?]).
    eapply triple_bind;
      [apply (get_at_rest _ _ _ _ _ _ _ _ _ _ _ RM); by intros b0 (_&_&_&_&_&_&->&_)
      |intros rm0].
    apply triple_pure. intros ->.
    eapply triple_bind; [apply setStateAsync_at_rest|intros ?].
    subst Sf. apply free_series_at_rest. }
  specialize (H b Hb).
  destruct (reduceWorkload w times b) as [b' [[]| |]]; [|done|done].
  destruct H as (Hn' & Hns' & Hcfg' & HC' & HM' & HL' & HRM' & HO' & HX' & HS' & HA').
  exists b'. split; [done|]. subst Sf. rewrite HS'.
  change (ns +:+ "." +:+ (w +:+ ?f)) with (state_id ns w f).
  split; [by rewrite lookup_insert_eq|].
  split.
  { intros f get Hin. unfold scalar_states in Hin.
    repeat (apply elem_of_cons in Hin as [Hin|Hin];
            [injection Hin as -> ->; repeat other_state; by rewrite lookup_insert_eq|]).
    by apply elem_of_nil in Hin. }
  split; [|by repeat (split; [done|])].
  intros k Hsum Hf.
  rewrite lookup_insert_ne by done.
  repeat (rewrite lookup_insert_ne;
    [|apply not_eq_sym; eapply Hf; unfold scalar_states;
      repeat first [by left | right]]).
  done.
Qed.

(** X11.  The reduction of a workload, started while the marker is
    'none' and with no awaited call rejecting: the summary state holds
    the statistics of exactly the series collected and the summaries of
    the reporting secondaries; each of the ten scalar states repeats its
    field of the summary; no other state is written; then the three
    series of the workload are deleted and the reports are forgotten. *)
Theorem reduceWorkload_persists (w : string) (times cpu mem lags : list num)
    (b : Benchmark) :
  activeTest b = "none" →
  cpuStats b !! w = Some cpu → memStats b !! w = Some mem →
  internalEventLoopLags b !! w = Some lags →
  let its := iterations (config b) in
  let st := ownStats its times cpu mem lags in
  ∃ b',
    reduceWorkload w times b = (b', Done tt) ∧
    states b' !! state_id (namespace b) w ".summary"
    = Some (mkState
              (SSummary (mkSummary st (attachSecondaries its (requestedMonitoring b))))
              true) ∧
    (∀ f get, (f, get) ∈ scalar_states →
       states b' !! state_id (namespace b) w f
       = Some (mkState (SNum (get st)) true)) ∧
    (∀ k, k ≠ state_id (namespace b) w ".summary" →
          (∀ f get, (f, get) ∈ scalar_states → k ≠ state_id (namespace b) w f) →
          states b' !! k = states b !! k) ∧
    cpuStats b' = delete w (cpuStats b) ∧
    memStats b' = delete w (memStats b) ∧
    internalEventLoopLags b' = delete w (internalEventLoopLags b) ∧
    requestedMonitoring b' = ∅ ∧ activeTest b' = "none" ∧
    objects b' = objects b ∧ config b' = config b ∧ outbox b' = outbox b ∧
    monitoringActive b' = monitoringActive b.
Proof.
  intros Hnone Hc Hm Hl its st.
  destruct (reduceWorkload_spec w times cpu mem lags b Hnone Hc Hm Hl)
    as (b' & H1 & H2 & H3 & H4 & H5 & H6 & H7 & H8 & H9 & H10 & H11 & H12 & H13 & _).
  exists b'. repeat (split; [assumption|]). assumption.
Qed.

(** C3, as the code has it.  The reduction of a workload, started while
    the marker is 'none' and with no awaited call rejecting, writes the
    rounded standard deviation of the times to the state [timeStd], and to
    the state [actionsPerSecondStd] exactly 0 when that value is 0 and
    [round(iterations / timeStd)] otherwise; the summary state repeats both
    in its fields of the same names.  Only the test [timeStd !== 0] of the
    arithmetic is used. *)
Theorem actionsPerSecondStd_spec (w : string) (times cpu mem lags : list num)
    (b : Benchmark) :
  activeTest b = "none" →
  cpuStats b !! w = Some cpu → memStats b !! w = Some mem →
  internalEventLoopLags b !! w = Some lags →
  let its := iterations (config b) in
  let tStd := round (calcStd times) in
  let apsStd := if js_neq_zero tStd then round (js_div its tStd) else Fin 0%Qc in
  ∃ b' stats secs,
    reduceWorkload w times b = (b', Done tt) ∧
    states b' !! state_id (namespace b) w ".timeStd"
    = Some (mkState (SNum tStd) true) ∧
    states b' !! state_id (namespace b) w ".actionsPerSecondStd"
    = Some (mkState (SNum apsStd) true) ∧
    states b' !! state_id (namespace b) w ".summary"
    = Some (mkState (SSummary (mkSummary stats secs)) true) ∧
    timeStd stats = tStd ∧ actionsPerSecondStd stats = apsStd ∧
    (tStd = Fin 0%Qc → apsStd = Fin 0%Qc) ∧
    (tStd ≠ Fin 0%Qc → apsStd = round (js_div its tStd)).
Proof.
  intros Hnone Hc Hm Hl its tStd apsStd.
  destruct (reduceWorkload_spec w times cpu mem lags b Hnone Hc Hm Hl)
    as (b' & Hrun & Hsum & Hscalar & _).
  exists b'. do 2 eexists. split; [exact Hrun|].
  split.
  { rewrite (Hscalar ".timeStd" timeStd); [done|].
    unfold scalar_states. by repeat first [left | right]. }
  split.
  { rewrite (Hscalar ".actionsPerSecondStd" actionsPerSecondStd); [done|].
    unfold scalar_states. by repeat first [left | right]. }
  split; [exact Hsum|]. split; [done|]. split; [done|].
  subst apsStd. destruct (js_neq_zero tStd) eqn:Hz.
  - split; [|done]. intros H0. rewrite H0 in Hz. by vm_compute in Hz.
  - split; [done|]. intros Hne. by apply js_neq_zero_false in Hz.
Qed.

(** ** A complete run *)

Section Quiescent.

Variables (ns : string) (cfg : Config) (active : bool) (C Mm L : gmap string (list num))
  (RM : gmap string RequestedMonitoringEntry).

Abbreviation calm := (quiescent ns cfg active C Mm L RM).
Abbreviation whatever := (λ _ : Benchmark, True).

Lemma calm_await (p : Point) : triple calm (await p) (λ _, calm) whatever.
Proof.
  intros b Hb. assert (Hnone : activeTest b = "none") by apply Hb.
  rewrite await_eq.
  destruct (suspended_none p b Hnone) as [-> _].
  by destruct (rejects env p).
Qed.

Lemma calm_modify (f : Benchmark → Benchmark) :
  (∀ b, calm b → calm (f b)) → triple calm (modify f) (λ _, calm) whatever.
Proof. intros Hf. by apply triple_modify. Qed.

Lemma calm_get {A} (f : Benchmark → A) : triple calm (get_ f) (λ _, calm) whatever.
Proof. by apply triple_get. Qed.

Lemma calm_bind {A B} (c : M A) (k : A → M B) Q :
  triple calm c (λ _, calm) whatever → (∀ a, triple calm (k a) Q whatever) →
  triple calm (bind c k) Q whatever.
Proof. intros Hc Hk. eapply triple_bind; [apply Hc|apply Hk]. Qed.

Ltac calm_step :=
  first
    [ by apply triple_ret
    | by apply triple_throw
    | apply calm_await
    | apply calm_get
    | apply calm_modify; by intros ?
    | apply triple_for_each; intros ? _
    | apply calm_bind; [|intros ?] ].

Lemma calm_setForeignObjectNotExistsAsync id o :
  triple calm (setForeignObjectNotExistsAsync id o) (λ _, calm) whatever.
Proof. unfold setForeignObjectNotExistsAsync. repeat calm_step. Qed.

Lemma calm_setObjectNotExistsAsync id o :
  triple calm (setObjectNotExistsAsync id o) (λ _, calm) whatever.
Proof. unfold setObjectNotExistsAsync, own_id. repeat calm_step. Qed.

Lemma calm_createTestObjects w :
  triple calm (createTestObjects w) (λ _, calm) whatever.
Proof.
  unfold createTestObjects. apply calm_bind; [calm_step|intros ns0].
  apply triple_for_each. intros obj _. apply calm_setForeignObjectNotExistsAsync.
Qed.

Lemma calm_stopInstances : triple calm stopInstances (λ _, calm) whatever.
Proof.
  unfold stopInstances, getObjectViewAsync.
  apply calm_bind; [calm_step|intros ?].
  apply calm_bind; [repeat calm_step|intros rows].
  apply triple_for_each. intros instance _.
  unfold stopInstance. apply calm_bind; [calm_step|intros ns0].
  destruct (_ && _); [|calm_step].
  unfold setForeignObjectAsync.
  apply calm_bind; [repeat calm_step|intros ?].
  apply calm_bind; [calm_step|intros [l|]]; calm_step.
Qed.

Lemma calm_restartInstance id : triple calm (restartInstance id) (λ _, calm) whatever.
Proof.
  unfold restartInstance, getForeignObjectAsync.
  apply calm_bind; [repeat calm_step|intros [o|]]; [|calm_step].
  destruct (o_common o); [|calm_step].
  unfold setForeignObjectAsync. repeat calm_step.
Qed.

End Quiescent.

Lemma never_rejects {A} (c : M A) (P : Benchmark → Prop) Q :
  triple P c Q (λ _, True) →
  triple (λ _, True) c (λ _ _, True) (λ _, False) →
  triple P c Q (λ _, False).
Proof.
  intros H1 H2 b Hb. specialize (H1 b Hb). specialize (H2 b I).
  by destruct (c b) as [b' [a| |]].
Qed.

Lemma respects_True : respects (λ _, True).
Proof. done. Qed.

(** The reports that a workload's reduction finds, [RM] being those
    present when the workload starts: a secondary handles no report. *)
Lemma reports_found (w : string) (n : nat) (b : Benchmark) :
  requestedMonitoring (after (epoch_events w 1 n) b)
  = if secondaryMode (config b) then requestedMonitoring b
    else collected (epoch_events w 1 n) (requestedMonitoring b).
Proof. apply requestedMonitoring_after. Qed.

(** One round of the loop over the workloads: the times of the [E]
    epochs of [w], in order, and the summary that is persisted. *)
Lemma runWorkload_spec (ns : string) (cfg : Config) (active : bool)
    (C Mm L : gmap string (list num))
    (RM : gmap string RequestedMonitoringEntry)
    (w : string) (times : gmap string (list num)) :
  w ∈ allTests →
  let series := elapsed env w <$> seq 1 (epochs cfg) in
  let found := if secondaryMode cfg then RM
               else collected (epoch_events w 1 (epochs cfg)) RM in
  triple (quiescent ns cfg active C Mm L RM) (runWorkload w times)
    (λ times' b',
       quiescent ns cfg active (delete w C) (delete w Mm) (delete w L) ∅ b' ∧
       times' = <[w := series]> (<[w := []]> times) ∧
       states b' !! state_id ns w ".summary"
       = Some (mkState
                 (SSummary
                    (mkSummary
                       (ownStats (iterations cfg) series
                          (execute_samples cpu_of w 1 (epochs cfg))
                          (execute_samples mem_of w 1 (epochs cfg))
                          (execute_samples lag_of w 1 (epochs cfg)))
                       (attachSecondaries (iterations cfg) found)))
                 true))
    never.
Proof.
  intros Hw series found. unfold runWorkload.
  eapply triple_bind with
    (Q := λ _, quiescent ns cfg active (<[w := []]> C) Mm L RM).
  { apply triple_modify. intros b (?&?&?&HC&?&?&?&?). repeat split; try done.
    simpl. by rewrite HC. }
  intros ?.
  eapply triple_bind with
    (Q := λ _, quiescent ns cfg active (<[w := []]> C) (<[w := []]> Mm) L RM).
  { apply triple_modify. intros b (?&?&?&?&HM&?&?&?). repeat split; try done.
    simpl. by rewrite HM. }
  intros ?.
  eapply triple_bind with
    (Q := λ _, quiescent ns cfg active (<[w := []]> C) (<[w := []]> Mm) (<[w := []]> L) RM).
  { apply triple_modify. intros b (?&?&?&?&?&HL&?&?). repeat split; try done.
    simpl. by rewrite HL. }
  intros ?.
  eapply triple_bind.
  { apply never_rejects; [apply calm_setObjectNotExistsAsync|].
    apply tot_setObjectNotExistsAsync, respects_True. }
  intros ?.
  eapply triple_bind.
  { apply never_rejects; [apply calm_createTestObjects|].
    unfold createTestObjects. apply tot_bind.
    - eapply tot_discard; [apply tot_get|]. by intros.
    - intros ns0. apply tot_for_each. intros obj.
      apply tot_setForeignObjectNotExistsAsync, respects_True. }
  intros ?.
  eapply triple_bind with
    (Q := λ n b, quiescent ns cfg active (<[w := []]> C) (<[w := []]> Mm)
                   (<[w := []]> L) RM b ∧ n = epochs cfg).
  { apply triple_get. intros b Hb. split; [done|]. by destruct Hb as (_&->&_). }
  intros n. apply triple_pure. intros ->.
  eapply triple_bind with
    (Q := λ got b,
       quiescent ns cfg active
         (<[w := [] ++ execute_samples cpu_of w 1 (epochs cfg)]> (<[w := []]> C))
         (<[w := [] ++ execute_samples mem_of w 1 (epochs cfg)]> (<[w := []]> Mm))
         (<[w := [] ++ execute_samples lag_of w 1 (epochs cfg)]> (<[w := []]> L))
         found b ∧
       got = series).
  { intros b (Hnone & Hcfg & Hact & HC & HM & HL & HRM & Hns).
    destruct (epochLoop_spec w (epochs cfg) 1 [] b [] [] [] Hw Hnone)
      as (b' & -> & Hnone' & HC' & HM' & HL' & Ho' & Hh').
    { by rewrite HC, lookup_insert_eq. }
    { by rewrite HM, lookup_insert_eq. }
    { by rewrite HL, lookup_insert_eq. }
    unfold others in Ho'. injection Ho' as Hns' Hcfg' _ Hact' _ _.
    unfold host in Hh'. injection Hh' as _ _ _ HRM'.
    rewrite reports_found, Hcfg, HRM in HRM'.
    split; [|done]. subst found. repeat split; congruence. }
  intros got. apply triple_pure. intros ->.
  eapply triple_bind with
    (Q := λ _ b', quiescent ns cfg active (delete w C) (delete w Mm) (delete w L) ∅ b' ∧
       states b' !! state_id ns w ".summary"
       = Some (mkState
                 (SSummary
                    (mkSummary
                       (ownStats (iterations cfg) series
                          (execute_samples cpu_of w 1 (epochs cfg))
                          (execute_samples mem_of w 1 (epochs cfg))
                          (execute_samples lag_of w 1 (epochs cfg)))
                       (attachSecondaries (iterations cfg) found)))
                 true)).
  { intros b (Hnone & Hcfg & Hact & HC & HM & HL & HRM & Hns).
    destruct (reduceWorkload_spec w series
                ([] ++ execute_samples cpu_of w 1 (epochs cfg))
                ([] ++ execute_samples mem_of w 1 (epochs cfg))
                ([] ++ execute_samples lag_of w 1 (epochs cfg)) b Hnone)
      as (b' & -> & Hsum & _ & _ & HC' & HM' & HL' & HRM' & Hnone' & _ & Hcfg' & _
          & Hact' & Hns').
    { by rewrite HC, lookup_insert_eq. }
    { by rewrite HM, lookup_insert_eq. }
    { by rewrite HL, lookup_insert_eq. }
    rewrite HC in HC'. rewrite HM in HM'. rewrite HL in HL'.
    rewrite !delete_insert_eq in HC', HM', HL'.
    rewrite Hns, Hcfg, HRM in Hsum. simpl app in Hsum.
    split; [|exact Hsum]. repeat split; congruence. }
  intros ?. apply triple_ret. by intros b [? ?].
Qed.

Lemma runWorkload_times (ns : string) (cfg : Config) (active : bool)
    (C Mm L : gmap string (list num))
    (RM : gmap string RequestedMonitoringEntry)
    (w : string) (times : gmap string (list num)) :
  w ∈ allTests →
  triple (quiescent ns cfg active C Mm L RM) (runWorkload w times)
    (λ times' b',
       quiescent ns cfg active (delete w C) (delete w Mm) (delete w L) ∅ b' ∧
       times' = <[w := elapsed env w <$> seq 1 (epochs cfg)]> (<[w := []]> times))
    never.
Proof.
  intros Hw. eapply triple_weaken; [by apply runWorkload_spec|done| |done].
  by intros times' b' (? & ? & _).
Qed.

Lemma runWorkloads_spec (ns : string) (cfg : Config) (active : bool) (ws : list string)
    (times : gmap string (list num)) :
  (∀ w, w ∈ ws → w ∈ allTests) →
  triple (quiescent ns cfg active ∅ ∅ ∅ ∅) (runWorkloads ws times)
    (λ times' b',
       quiescent ns cfg active ∅ ∅ ∅ ∅ b' ∧
       (∀ w, times !! w = Some (elapsed env w <$> seq 1 (epochs cfg)) →
             times' !! w = Some (elapsed env w <$> seq 1 (epochs cfg))) ∧
       (∀ w, w ∈ ws →
             times' !! w = Some (elapsed env w <$> seq 1 (epochs cfg))))
    never.
Proof.
  revert times. induction ws as [|w ws IH]; intros times Hws; simpl.
  - apply triple_ret. intros b Hb. split; [done|]. split; [done|].
    intros w Hw. by apply elem_of_nil in Hw.
  - eapply triple_bind; [apply runWorkload_times; apply Hws; by left|].
    intros times'. rewrite !delete_empty. apply triple_pure. intros ->.
    eapply triple_weaken; [apply IH|done| |done].
    { intros w0 Hw0. apply Hws. by right. }
    intros times'' b (Hb & Hkeep & Hnew). split; [done|].
    assert (Hw : times'' !! w = Some (elapsed env w <$> seq 1 (epochs cfg))).
    { apply Hkeep. by rewrite lookup_insert_eq. }
    split.
    + intros w0 Hw0. destruct (decide (w0 = w)) as [->|Hne]; [done|].
      apply Hkeep. by rewrite !lookup_insert_ne.
    + intros w0 Hw0. apply elem_of_cons in Hw0 as [->|Hw0]; [done|].
      by apply Hnew.
Qed.

Lemma tot_stopInstances_any : triple (λ _, True) stopInstances (λ _ _, True) never.
Proof.
  intros b _. pose proof (tot_stopInstances (epochs (config b)) b eq_refl) as H.
  by destruct (stopInstances b) as [b' [[]| |]].
Qed.

Lemma runTests_completes (selectedTests : list string) (b : Benchmark) :
  activeTest b = "none" →
  (∀ w, w ∈ selectedTests → w ∈ allTests) →
  let E := if decide (epochs (config b) = O) then 5%nat else epochs (config b) in
  ∃ b' times,
    runTests selectedTests b = (b', Done times) ∧
    (∀ w, w ∈ selectedTests → times !! w = Some (elapsed env w <$> seq 1 E)) ∧
    config b' = defaults (config b) ∧
    activeTest b' = "none" ∧ monitoringActive b' = false ∧
    cpuStats b' = ∅ ∧ memStats b' = ∅ ∧ internalEventLoopLags b' = ∅ ∧
    requestedMonitoring b' = ∅.
Proof.
  intros Hnone Hsel E.
  set (cfg := config b). set (ns := namespace b).
  assert (HE : epochs (defaults cfg) = E) by done.
  assert (H : triple
    (quiescent ns cfg (monitoringActive b) (cpuStats b) (memStats b)
       (internalEventLoopLags b) (requestedMonitoring b))
    (runTests selectedTests)
    (λ times b',
       quiescent ns (defaults cfg) false ∅ ∅ ∅ ∅ b' ∧
       ∀ w, w ∈ selectedTests → times !! w = Some (elapsed env w <$> seq 1 E))
    never).
  { unfold runTests.
    set (P0 := quiescent ns cfg (monitoringActive b) (cpuStats b) (memStats b)
                 (internalEventLoopLags b) (requestedMonitoring b)).
    eapply triple_bind with (Q := λ _, P0);
      [by apply triple_get|intros isolated].
    eapply triple_bind with (Q := λ _, P0).
    { destruct isolated; [|by apply triple_ret].
      apply never_rejects; [apply calm_stopInstances|apply tot_stopInstances_any]. }
    intros ?.
    eapply triple_bind with (Q := λ _, quiescent ns (defaults cfg) _ _ _ _ _).
    { apply triple_modify. intros b0 (?&Hc&?&?&?&?&?&?). repeat split; try done.
      simpl config. by rewrite Hc. }
    intros ?.
    eapply triple_bind with (Q := λ _, quiescent ns (defaults cfg) _ _ ∅ _ _).
    { apply triple_modify. by intros b0 (?&?&?&?&?&?&?&?). }
    intros ?.
    eapply triple_bind with (Q := λ _, quiescent ns (defaults cfg) _ ∅ ∅ _ _).
    { apply triple_modify. by intros b0 (?&?&?&?&?&?&?&?). }
    intros ?.
    eapply triple_bind with (Q := λ _, quiescent ns (defaults cfg) _ ∅ ∅ ∅ _).
    { apply triple_modify. by intros b0 (?&?&?&?&?&?&?&?). }
    intros ?.
    eapply triple_bind with (Q := λ _, quiescent ns (defaults cfg) _ ∅ ∅ ∅ ∅).
    { apply triple_modify. by intros b0 (?&?&?&?&?&?&?&?). }
    intros ?.
    eapply triple_bind with (Q := λ _, quiescent ns (defaults cfg) true ∅ ∅ ∅ ∅).
    { apply triple_modify. by intros b0 (?&?&?&?&?&?&?&?). }
    intros ?.
    eapply triple_bind;
      [apply (runWorkloads_spec ns (defaults cfg) true selectedTests ∅ Hsel)|].
    intros times. rewrite HE. intros b0 (Hb0 & _ & Hnew).
    assert (Htail : triple (quiescent ns (defaults cfg) true ∅ ∅ ∅ ∅)
      (modify (set_monitoringActive false) ;;
       ids <- get_ restartInstances ;;
       match isolated, ids with
       | true, Some l => for_each l restartInstance
       | _, _ => ret tt
       end ;; ret times)
      (λ r b', quiescent ns (defaults cfg) false ∅ ∅ ∅ ∅ b' ∧ r = times) never).
    { eapply triple_bind with (Q := λ _, quiescent ns (defaults cfg) false ∅ ∅ ∅ ∅).
      { apply triple_modify. by intros b1 (?&?&?&?&?&?&?&?). }
      intros ?.
      eapply triple_bind with (Q := λ _, quiescent ns (defaults cfg) false ∅ ∅ ∅ ∅);
        [by apply triple_get|intros ids].
      eapply triple_bind with (Q := λ _, quiescent ns (defaults cfg) false ∅ ∅ ∅ ∅);
        [|intros ?; by apply triple_ret].
      destruct isolated, ids; try by apply triple_ret.
      apply triple_for_each. intros id _.
      apply never_rejects; [apply calm_restartInstance|].
      apply tot_restartInstance, respects_True. }
    specialize (Htail b0 Hb0).
    destruct (bind (modify (set_monitoringActive false)) _ b0) as [b' [r| |]];
      [|done|done].
    destruct Htail as [Hb' ->]. by split. }
  specialize (H b).
  destruct (runTests selectedTests b) as [b' [times| |]].
  - destruct H as [(?&?&?&?&?&?&?&?) Htimes]; [by repeat split|].
    exists b', times. by repeat split.
  - destruct H. by repeat split.
  - destruct H. by repeat split.
Qed.

(** X12.  A complete run: started while the marker is 'none', over
    workloads of the registry and with no awaited call rejecting,
    [runTests] returns; for every selected workload, [times] holds the
    elapsed times of its epochs in order, as many as [config.epochs], or
    5 when that is 0; afterwards the configuration carries the defaults,
    the marker is 'none', monitoring is switched off, and the three
    series and the reports received are empty. *)
Theorem complete_run (selectedTests : list string) (b : Benchmark) :
  activeTest b = "none" →
  (∀ w, w ∈ selectedTests → w ∈ allTests) →
  let E := if decide (epochs (config b) = O) then 5%nat else epochs (config b) in
  ∃ b' times,
    runTests selectedTests b = (b', Done times) ∧
    (∀ w, w ∈ selectedTests → times !! w = Some (elapsed env w <$> seq 1 E)) ∧
    config b' = defaults (config b) ∧
    activeTest b' = "none" ∧ monitoringActive b' = false ∧
    cpuStats b' = ∅ ∧ memStats b' = ∅ ∧ internalEventLoopLags b' = ∅ ∧
    requestedMonitoring b' = ∅.
Proof. apply runTests_completes. Qed.

(** ** The measurement of a run *)

Lemma triple_run {A} (P : Benchmark → Prop) (c : M A) Q (b : Benchmark) :
  triple P c Q never → P b → ∃ b' a, c b = (b', Done a) ∧ Q a b'.
Proof.
  intros H Hb. specialize (H b Hb).
  destruct (c b) as [b' [a| |]]; [|done|done]. by exists b', a.
Qed.

Lemma measurement_triple (ns : string) (cfg : Config) (act : bool)
    (C Mm L : gmap string (list num))
    (RM : gmap string RequestedMonitoringEntry) (selectedTests : list string)
    (Q : gmap string (list num) → Benchmark → Prop) :
  triple (quiescent ns (defaults cfg) true ∅ ∅ ∅ ∅) (runWorkloads selectedTests ∅)
    (λ times b', quiescent ns (defaults cfg) true ∅ ∅ ∅ ∅ b' ∧ Q times b') never →
  (∀ times b, Q times b → Q times (set_monitoringActive false b)) →
  triple (quiescent ns cfg act C Mm L RM) (measurement selectedTests)
    (λ times b', quiescent ns (defaults cfg) false ∅ ∅ ∅ ∅ b' ∧ Q times b') never.
Proof.
  intros Hloop HQ. unfold measurement.
  eapply triple_bind with (Q := λ _, quiescent ns (defaults cfg) _ _ _ _ _).
  { apply triple_modify. intros b0 (?&Hc&?&?&?&?&?&?). repeat split; try done.
    simpl config. by rewrite Hc. }
  intros ?.
  eapply triple_bind with (Q := λ _, quiescent ns (defaults cfg) _ _ ∅ _ _).
  { apply triple_modify. by intros b0 (?&?&?&?&?&?&?&?). }
  intros ?.
  eapply triple_bind with (Q := λ _, quiescent ns (defaults cfg) _ ∅ ∅ _ _).
  { apply triple_modify. by intros b0 (?&?&?&?&?&?&?&?). }
  intros ?.
  eapply triple_bind with (Q := λ _, quiescent ns (defaults cfg) _ ∅ ∅ ∅ _).
  { apply triple_modify. by intros b0 (?&?&?&?&?&?&?&?). }
  intros ?.
  eapply triple_bind with (Q := λ _, quiescent ns (defaults cfg) _ ∅ ∅ ∅ ∅).
  { apply triple_modify. by intros b0 (?&?&?&?&?&?&?&?). }
  intros ?.
  eapply triple_bind with (Q := λ _, quiescent ns (defaults cfg) true ∅ ∅ ∅ ∅).
  { apply triple_modify. by intros b0 (?&?&?&?&?&?&?&?). }
  intros ?.
  eapply triple_bind; [apply Hloop|].
  intros times. simpl.
  intros b0 ((?&?&?&?&?&?&?&?) & Hq). simpl. split; [done|]. by apply HQ.
Qed.

Lemma measurement_spec (ns : string) (cfg : Config) (act : bool)
    (C Mm L : gmap string (list num))
    (RM : gmap string RequestedMonitoringEntry) (selectedTests : list string) :
  (∀ w, w ∈ selectedTests → w ∈ allTests) →
  triple (quiescent ns cfg act C Mm L RM) (measurement selectedTests)
    (λ times b',
       quiescent ns (defaults cfg) false ∅ ∅ ∅ ∅ b' ∧
       ∀ w, w ∈ selectedTests →
            times !! w = Some (elapsed env w <$> seq 1 (epochs (defaults cfg))))
    never.
Proof.
  intros Hsel. apply measurement_triple; [|done].
  eapply triple_weaken; [by apply runWorkloads_spec|done| |done].
  by intros times b (? & _ & ?).
Qed.

(** The first loop of an isolated run leaves the instance at rest. *)
Lemma stopInstances_quiescent (ns : string) (cfg : Config) (act : bool)
    (C Mm L : gmap string (list num))
    (RM : gmap string RequestedMonitoringEntry) (b b1 : Benchmark) :
  quiescent ns cfg act C Mm L RM b → stopInstances b = (b1, Done tt) →
  quiescent ns cfg act C Mm L RM b1.
Proof.
  intros Hb Hstop.
  pose proof (calm_stopInstances ns cfg act C Mm L RM b Hb) as H.
  by rewrite Hstop in H.
Qed.

(** ** What a run leaves alone *)

Section Follows.

Variable Rel : Benchmark → Benchmark → Prop.
Hypothesis Rel_refl : ∀ b, Rel b b.
Hypothesis Rel_trans : ∀ b1 b2 b3, Rel b1 b2 → Rel b2 b3 → Rel b1 b3.
Hypothesis Rel_suspended : ∀ p b, Rel b (suspended p b).

Lemma follows_ret {A} (a : A) : follows Rel (ret a).
Proof. intros b. apply Rel_refl. Qed.

Lemma follows_get {A} (f : Benchmark → A) : follows Rel (get_ f).
Proof. intros b. apply Rel_refl. Qed.

Lemma follows_throw {A} : follows Rel (@throw A).
Proof. intros b. apply Rel_refl. Qed.

Lemma follows_get_series f w : follows Rel (get_series f w).
Proof. intros b. unfold get_series. destruct (f b !! w); apply Rel_refl. Qed.

Lemma follows_modify (f : Benchmark → Benchmark) :
  (∀ b, Rel b (f b)) → follows Rel (modify f).
Proof. intros Hf b. apply Hf. Qed.

Lemma follows_await (p : Point) : follows Rel (await p).
Proof. intros b. rewrite await_eq. apply Rel_suspended. Qed.

Lemma follows_events (evs : list Event) (b : Benchmark) :
  (∀ e b', e ∈ evs → Rel b' (occurs e b')) → Rel b (after evs b).
Proof.
  revert b. induction evs as [|e evs IH]; intros b Hin; [apply Rel_refl|].
  simpl. eapply Rel_trans; [apply Hin; by left|].
  apply IH. intros e' b' He'. apply Hin. by right.
Qed.

(** A suspension inside an epoch follows a relation that each of its
    events follows. *)
Lemma follows_await_busy (p : Point) :
  (∀ e b, e ∈ happens env p → Rel b (occurs e b)) → follows Rel (await_busy p).
Proof.
  intros Hp b. rewrite await_busy_eq. simpl.
  eapply Rel_trans; [apply Rel_suspended|]. by apply follows_events.
Qed.

Lemma follows_bind {A B} (c : M A) (k : A → M B) :
  follows Rel c → (∀ a, follows Rel (k a)) → follows Rel (bind c k).
Proof.
  intros Hc Hk b. unfold bind. specialize (Hc b).
  destruct (c b) as [b1 [a| |]]; [|done|done].
  eapply Rel_trans; [exact Hc|apply Hk].
Qed.

Lemma follows_for_each {A} (xs : list A) (body : A → M unit) :
  (∀ x, follows Rel (body x)) → follows Rel (for_each xs body).
Proof.
  intros Hbody. induction xs as [|x xs IH]; simpl; [apply follows_ret|].
  apply follows_bind; [apply Hbody|by intros].
Qed.

End Follows.

Lemma undisturbed_refl (b : Benchmark) : undisturbed b b.
Proof. by repeat split. Qed.

Lemma undisturbed_trans (b1 b2 b3 : Benchmark) :
  undisturbed b1 b2 → undisturbed b2 b3 → undisturbed b1 b3.
Proof.
  intros (?&?&?&?&?&Hfirst) (?&?&?&?&?&Hsecond).
  repeat split; try congruence. intros id o Hid Ho. by apply Hsecond, Hfirst.
Qed.

Lemma undisturbed_suspended (p : Point) (b : Benchmark) :
  undisturbed b (suspended p b).
Proof.
  destruct (suspended_frame p b) as (Hn&Hc&_&Hr&_&_&_&Ho&_&Hx&Hd&_).
  simpl in *. repeat split; try congruence; intros id o _ H; by rewrite Ho.
Qed.

Lemma undisturbed_happens (p : Point) (e : Event) (b : Benchmark) :
  e ∈ happens env p → undisturbed b (occurs e b).
Proof.
  intros He. destruct (occurs_frame e b) as (Hn&Hc&_&_&_&Hr&_&_&_&Hd&_).
  repeat split; try congruence. intros id o Hid Ho.
  destruct (Hid p) as [Hw Hdel].
  change (occurs e b) with (after [e] b). rewrite objects_after; [done| |].
  - intros o' Hin. apply list_elem_of_singleton in Hin. subst e. by apply (Hw o').
  - intros Hin. apply list_elem_of_singleton in Hin. by subst e.
Qed.

Lemma undisturbed_insert_if_absent (id : string) (o : IoObject) (b : Benchmark) :
  undisturbed b (set_objects (insert_if_absent id o (objects b)) b).
Proof.
  repeat split; try done. simpl. intros id' o' _ H. unfold insert_if_absent.
  destruct (objects b !! id) eqn:Hid; [done|].
  rewrite lookup_insert_ne; [done|]. intros ->. congruence.
Qed.

Ltac und_step :=
  first
    [ apply follows_ret; apply undisturbed_refl
    | apply follows_get; apply undisturbed_refl
    | apply follows_throw; apply undisturbed_refl
    | apply follows_get_series; apply undisturbed_refl
    | apply follows_await; apply undisturbed_suspended
    | apply follows_await_busy;
      [apply undisturbed_refl|apply undisturbed_trans
      |apply undisturbed_suspended|intros ? ?; apply undisturbed_happens]
    | apply follows_modify; intros ?; apply undisturbed_insert_if_absent
    | apply follows_modify; intros ?; by repeat split
    | apply follows_bind; [apply undisturbed_trans| |intros ?] ].

Lemma und_setStateAsync id v a : follows undisturbed (setStateAsync id v a).
Proof. unfold setStateAsync, own_id. repeat und_step. Qed.

Lemma und_epochLoop w n j times : follows undisturbed (epochLoop w n j times).
Proof.
  revert j times. induction n as [|n IH]; intros j times; simpl; [und_step|].
  destruct (decide _); repeat und_step; apply IH.
Qed.

Lemma und_reduceWorkload w times : follows undisturbed (reduceWorkload w times).
Proof. unfold reduceWorkload. repeat first [apply und_setStateAsync | und_step]. Qed.

Lemma und_runWorkloads ws times : follows undisturbed (runWorkloads ws times).
Proof.
  revert times. induction ws as [|w ws IH]; intros times; simpl; [und_step|].
  apply follows_bind; [apply undisturbed_trans| |intros ?; apply IH].
  unfold runWorkload, createTestObjects, setObjectNotExistsAsync, own_id.
  repeat first
    [ apply und_epochLoop
    | apply und_reduceWorkload
    | apply follows_for_each;
      [apply undisturbed_refl|apply undisturbed_trans|intros ?;
       unfold setForeignObjectNotExistsAsync]
    | und_step ].
Qed.

Lemma und_measurement selectedTests : follows undisturbed (measurement selectedTests).
Proof. unfold measurement. repeat first [apply und_runWorkloads | und_step]. Qed.

(** A run that is not isolated is its measurement; an isolated run is
    the first loop, the measurement and the last loop, in this order. *)
Lemma runTests_plain (selectedTests : list string) (b : Benchmark) :
  isolatedRun (config b) = false →
  runTests selectedTests b = measurement selectedTests b.
Proof.
  intros Hiso. unfold runTests, measurement, bind at 1, get_ at 1.
  rewrite Hiso. unfold bind at 1. cbn [ret].
  unfold bind, modify, get_, ret. simpl.
  by destruct (runWorkloads selectedTests ∅ _) as [b' [times| |]].
Qed.

Lemma runTests_isolated (selectedTests : list string) (b : Benchmark) :
  isolatedRun (config b) = true →
  runTests selectedTests b
  = (stopInstances ;;
     times <- measurement selectedTests ;;
     ids <- get_ restartInstances ;;
     match ids with
     | Some l => for_each l restartInstance
     | None => ret tt
     end ;;
     ret times) b.
Proof.
  intros Hiso. unfold runTests, measurement, bind, modify, get_, ret.
  rewrite Hiso.
  destruct (stopInstances b) as [b1 [[]| |]]; [|done|done]. simpl.
  by destruct (runWorkloads selectedTests ∅ _) as [b' [times| |]].
Qed.

(** X13.  A run that is not isolated, however it ends: the namespace,
    the restart list, the runs started and the two mode switches are as
    before, and every object that existed before the run and that the
    environment neither writes nor deletes is still there unchanged: the
    run itself only creates objects that are absent. *)
Theorem plain_run_disturbs_nothing (selectedTests : list string) (b : Benchmark) :
  isolatedRun (config b) = false →
  undisturbed b (runTests selectedTests b).1.
Proof.
  intros Hiso. rewrite runTests_plain by done. apply und_measurement.
Qed.

Lemma with_enabled_back (o : IoObject) :
  enabled_truthy o = true → with_enabled true (with_enabled false o) = o.
Proof.
  destruct o as [ty [[name [[|]|] rd wr role cty]|] nat]; try discriminate.
  done.
Qed.

(** ** Isolated runs, from the first loop to the last *)


(** ** The secondaries in the summary of a run *)

Lemma absorb_extended (rm : gmap string RequestedMonitoringEntry)
    (sender : string) (msg : jsval) :
  absorb rm sender msg
  = <[sender := extended (default emptyEntry (rm !! sender)) [msg]]> rm.
Proof.
  unfold absorb, extended, series_of. f_equal. simpl. rewrite !app_nil_r.
  destruct msg; try done.
  destruct (default emptyEntry (rm !! sender)). simpl.
  unfold reported, merged. simpl. by rewrite !app_nil_r.
Qed.

Lemma extended_cons (e : RequestedMonitoringEntry) (p : jsval) (ps : list jsval) :
  extended (extended e [p]) ps = extended e (p :: ps).
Proof.
  unfold extended, series_of. simpl. by rewrite !app_nil_r, <- !app_assoc.
Qed.

(** The entry of [s] after the events: there is one if [s] had one or
    reported, and its series are those of the old entry followed by what
    the reports of [s] held, in the order of the reports. *)
Lemma collected_lookup (evs : list Event)
    (rm : gmap string RequestedMonitoringEntry) (s : string) :
  collected evs rm !! s
  = match reports_of s evs with
    | [] => rm !! s
    | ps => Some (extended (default emptyEntry (rm !! s)) ps)
    end.
Proof.
  revert rm. induction evs as [|e evs IH]; intros rm; [done|].
  destruct e as [id o|id|id st|id|m|sender payload cb]; try apply IH.
  change (collected (ReportReceived sender payload cb :: evs) rm)
    with (collected evs (absorb rm sender payload)).
  rewrite IH, absorb_extended. simpl.
  destruct (decide (sender = s)) as [->|Hne].
  - simpl. rewrite lookup_insert_eq. simpl.
    destruct (reports_of s evs) as [|p ps]; [done|]. by rewrite extended_cons.
  - by rewrite lookup_insert_ne.
Qed.

Lemma reports_of_reporters (s : string) (evs : list Event) :
  reports_of s evs ≠ [] ↔ s ∈ reporters evs.
Proof.
  unfold reporters. rewrite elem_of_remove_dups.
  induction evs as [|e evs IH]; simpl.
  - split; [done|]. intros Hin. by apply elem_of_nil in Hin.
  - destruct e as [id o|id|id st|id|m|sender payload cb]; simpl; try exact IH.
    destruct (decide (sender = s)) as [->|Hne]; simpl.
    + split; [intros _; by left|done].
    + rewrite IH, elem_of_cons. split; [by right|]. by intros [->|].
Qed.

(** As many entries as instances that reported. *)
Lemma size_collected (evs : list Event) :
  size (collected evs ∅) = length (reporters evs).
Proof.
  rewrite <- size_dom.
  assert (Hdom : dom (collected evs ∅) = list_to_set (C := gset string) (reporters evs)).
  { apply set_eq. intros s.
    rewrite elem_of_dom, elem_of_list_to_set, <- reports_of_reporters.
    rewrite collected_lookup, lookup_empty.
    destruct (reports_of s evs); split; try done;
      first [by intros [? ?] | by eexists]. }
  rewrite Hdom. apply size_list_to_set. unfold reporters. apply NoDup_remove_dups.
Qed.

(** *** A summary outlasts the workloads that follow *)

Lemma keeps_state_refl (ns id : string) (b : Benchmark) : keeps_state ns id b b.
Proof. by intros ?. Qed.

Lemma keeps_state_trans (ns id : string) (b1 b2 b3 : Benchmark) :
  keeps_state ns id b1 b2 → keeps_state ns id b2 b3 → keeps_state ns id b1 b3.
Proof.
  intros H12 H23 Hns. destruct (H12 Hns) as [Hns2 Hs2].
  destruct (H23 Hns2) as [Hns3 Hs3]. split; [done|congruence].
Qed.

Lemma keeps_state_suspended (ns id : string) (p : Point) (b : Benchmark) :
  keeps_state ns id b (suspended p b).
Proof.
  intros Hns. destruct (suspended_frame p b) as (Hn&_&_&_&_&_&_&_&Hs&_).
  simpl in Hn, Hs. split; congruence.
Qed.

Lemma keeps_state_occurs (ns id : string) (e : Event) (b : Benchmark) :
  (∀ st, e ≠ StateWritten id st) → e ≠ StateDeleted id →
  keeps_state ns id b (occurs e b).
Proof.
  intros Hw Hd Hns. destruct (occurs_frame e b) as (Hn&_). split; [congruence|].
  destruct e as [i o|i|i st|i|m|sender payload cb]; simpl; try done.
  - apply lookup_insert_ne. intros ->. by apply (Hw st).
  - apply lookup_delete_ne. by intros ->.
  - rewrite onMessage_report by done.
    destruct (secondaryMode (config b)); [done|]. simpl. by destruct payload.
Qed.

Lemma keeps_state_modify (ns id : string) (f : Benchmark → Benchmark) :
  (∀ b, namespace (f b) = namespace b) → (∀ b, states (f b) = states b) →
  follows (keeps_state ns id) (modify f).
Proof. intros Hn Hs b Hns. simpl. by rewrite Hn, Hs. Qed.

Lemma keeps_state_setStateAsync (ns id k : string) (v : StateVal) (a : bool) :
  ns +:+ "." +:+ k ≠ id → follows (keeps_state ns id) (setStateAsync k v a).
Proof.
  intros Hk b Hns. unfold setStateAsync, own_id, bind, get_. rewrite await_eq.
  destruct (keeps_state_suspended ns id (PSetState (namespace b +:+ "." +:+ k)) b Hns)
    as [Hn Hs].
  destruct (rejects env _); simpl; [done|].
  split; [done|]. rewrite lookup_insert_ne; [done|]. by rewrite Hns.
Qed.

Ltac keeps_state_step ns id :=
  first
    [ apply follows_ret; apply keeps_state_refl
    | apply follows_get; apply keeps_state_refl
    | apply follows_throw; apply keeps_state_refl
    | apply follows_get_series; apply keeps_state_refl
    | apply follows_await; apply keeps_state_suspended
    | apply keeps_state_modify; by intros ?
    | apply follows_bind; [apply keeps_state_trans| |intros ?] ].

Lemma keeps_state_epochLoop (ns id w : string) (n j : nat) (times : list num) :
  state_left_alone [w] id → follows (keeps_state ns id) (epochLoop w n j times).
Proof.
  intros Hquiet. revert j times.
  assert (Hbusy : ∀ j p,
    p ∈ [PPrepare w j; PExecute w j; PCleanUp w j; PWait w j] →
    follows (keeps_state ns id) (await_busy p)).
  { intros j p Hp.
    destruct (Hquiet w j p) as [Hw Hd]; [by apply list_elem_of_singleton|done|].
    apply follows_await_busy;
      [apply keeps_state_refl|apply keeps_state_trans|apply keeps_state_suspended|].
    intros e b He. apply keeps_state_occurs.
    - intros st ->. by apply (Hw st).
    - by intros ->. }
  induction n as [|n IH]; intros j times; simpl;
    [apply follows_ret; apply keeps_state_refl|].
  apply follows_bind; [apply keeps_state_trans| |intros ?].
  { destruct (decide _); keeps_state_step ns id. }
  apply follows_bind; [apply keeps_state_trans| |intros ?].
  { apply (Hbusy j). by left. }
  apply follows_bind; [apply keeps_state_trans|keeps_state_step ns id|intros ?].
  apply follows_bind; [apply keeps_state_trans| |intros ?].
  { apply (Hbusy j). right. by left. }
  apply follows_bind; [apply keeps_state_trans|keeps_state_step ns id|intros ?].
  apply follows_bind; [apply keeps_state_trans| |intros ?].
  { apply (Hbusy j). do 2 right. by left. }
  apply follows_bind; [apply keeps_state_trans| |intros ?].
  { apply (Hbusy j). do 3 right. by left. }
  apply IH.
Qed.

Lemma keeps_state_reduceWorkload (ns id w : string) (times : list num) :
  (∀ f, f ∈ state_fields → ns +:+ "." +:+ (w +:+ f) ≠ id) →
  follows (keeps_state ns id) (reduceWorkload w times).
Proof.
  intros Hfresh. unfold reduceWorkload.
  repeat first
    [ apply keeps_state_setStateAsync; apply Hfresh; unfold state_fields;
      simpl; by repeat first [left | right]
    | keeps_state_step ns id ].
Qed.

Lemma keeps_state_runWorkload (ns id w : string) (times : gmap string (list num)) :
  state_left_alone [w] id →
  (∀ f, f ∈ state_fields → ns +:+ "." +:+ (w +:+ f) ≠ id) →
  follows (keeps_state ns id) (runWorkload w times).
Proof.
  intros Hquiet Hfresh.
  unfold runWorkload, createTestObjects, setObjectNotExistsAsync, own_id.
  repeat first
    [ by apply keeps_state_epochLoop
    | by apply keeps_state_reduceWorkload
    | apply follows_for_each;
      [apply keeps_state_refl|apply keeps_state_trans|intros ?;
       unfold setForeignObjectNotExistsAsync]
    | keeps_state_step ns id ].
Qed.

Lemma keeps_state_runWorkloads (ns id : string) (ws : list string)
    (times : gmap string (list num)) :
  state_left_alone ws id →
  (∀ v f, v ∈ ws → f ∈ state_fields → ns +:+ "." +:+ (v +:+ f) ≠ id) →
  follows (keeps_state ns id) (runWorkloads ws times).
Proof.
  revert times. induction ws as [|w ws IH]; intros times Hquiet Hfresh; simpl.
  - apply follows_ret, keeps_state_refl.
  - apply follows_bind; [apply keeps_state_trans| |intros ?].
    + apply keeps_state_runWorkload.
      * intros v j p Hv Hp. apply list_elem_of_singleton in Hv as ->.
        apply (Hquiet w j p); [by left|done].
      * intros f Hf. apply Hfresh; [by left|done].
    + apply IH.
      * intros v j p Hv Hp. apply (Hquiet v j p); [by right|done].
      * intros v f Hv Hf. apply Hfresh; [by right|done].
Qed.

(** The states of two workloads of the registry have different names. *)
Lemma summary_id_fresh (ns w v f : string) :
  w ∈ allTests → v ∈ allTests → v ≠ w → f ∈ state_fields →
  ns +:+ "." +:+ (v +:+ f) ≠ state_id ns w ".summary".
Proof.
  intros Hw Hv Hne Hf Heq. unfold state_id in Heq.
  do 2 apply (inj (String.app _)) in Heq.
  assert (Hall : Forall (λ w0, Forall (λ v0, Forall (λ f0,
            v0 +:+ f0 = w0 +:+ ".summary" → v0 = w0) state_fields) allTests)
            allTests).
  { apply (bool_decide_unpack _). vm_compute. exact I. }
  rewrite Forall_forall in Hall. specialize (Hall w Hw).
  rewrite Forall_forall in Hall. specialize (Hall v Hv).
  rewrite Forall_forall in Hall. by apply Hne, (Hall f Hf).
Qed.

(** The summary of a workload of the loop is still there when the loop
    ends, if the workload is not run again and the environment leaves its
    summary state alone during the epochs of the workloads that follow. *)
Lemma runWorkloads_summary (ns : string) (cfg : Config) (active : bool)
    (ws1 ws2 : list string) (w : string) (times : gmap string (list num)) :
  (∀ v, v ∈ ws1 ++ w :: ws2 → v ∈ allTests) → w ∉ ws2 →
  state_left_alone ws2 (state_id ns w ".summary") →
  triple (quiescent ns cfg active ∅ ∅ ∅ ∅) (runWorkloads (ws1 ++ w :: ws2) times)
    (λ _ b',
       quiescent ns cfg active ∅ ∅ ∅ ∅ b' ∧
       states b' !! state_id ns w ".summary"
       = Some (persisted cfg w
                 (if secondaryMode cfg then ∅
                  else collected (epoch_events w 1 (epochs cfg)) ∅)))
    never.
Proof.
  intros Hws Hnot Hquiet. revert times.
  induction ws1 as [|w0 ws1 IH]; intros times; simpl.
  - eapply triple_bind; [apply runWorkload_spec; apply Hws; by left|].
    intros times'. rewrite !delete_empty.
    intros b (Hq & _ & Hsum).
    assert (Hsel : ∀ v, v ∈ ws2 → v ∈ allTests).
    { intros v Hv. apply Hws. simpl. by right. }
    pose proof (runWorkloads_spec ns cfg active ws2 times' Hsel b Hq) as Hrun.
    pose proof (keeps_state_runWorkloads ns (state_id ns w ".summary") ws2 times'
                  Hquiet) as Hkeep.
    specialize (Hkeep ltac:(intros v f Hv Hf; apply summary_id_fresh;
                              [apply Hws; by left|by apply Hsel
                              |by intros ->|done]) b).
    destruct (runWorkloads ws2 times' b) as [b' [t| |]]; [|done|done].
    destruct Hrun as (Hq' & _). split; [done|].
    destruct Hkeep as [_ Hs]; [by destruct Hq as (_&_&_&_&_&_&_&?)|].
    simpl in Hs. by rewrite Hs.
  - eapply triple_bind; [apply runWorkload_times; apply Hws; by left|].
    intros times'. rewrite !delete_empty. apply triple_pure. intros ->.
    apply IH. intros v Hv. apply Hws. by right.
Qed.

Lemma measurement_summary (ns : string) (cfg : Config) (act : bool)
    (C Mm L : gmap string (list num))
    (RM : gmap string RequestedMonitoringEntry)
    (ws1 ws2 : list string) (w : string) :
  (∀ v, v ∈ ws1 ++ w :: ws2 → v ∈ allTests) → w ∉ ws2 →
  state_left_alone ws2 (state_id ns w ".summary") →
  triple (quiescent ns cfg act C Mm L RM) (measurement (ws1 ++ w :: ws2))
    (λ _ b',
       quiescent ns (defaults cfg) false ∅ ∅ ∅ ∅ b' ∧
       states b' !! state_id ns w ".summary"
       = Some (persisted (defaults cfg) w
                 (if secondaryMode cfg then ∅
                  else collected (epoch_events w 1 (epochs (defaults cfg))) ∅)))
    never.
Proof.
  intros Hsel Hnot Hquiet.
  apply (measurement_triple ns cfg act C Mm L RM (ws1 ++ w :: ws2)
           (λ _ b', states b' !! state_id ns w ".summary"
                    = Some (persisted (defaults cfg) w
                              (if secondaryMode cfg then ∅
                               else collected
                                      (epoch_events w 1 (epochs (defaults cfg))) ∅))));
    [|done].
  exact (runWorkloads_summary ns (defaults cfg) true ws1 ws2 w ∅ Hsel Hnot Hquiet).
Qed.

Lemma states_restart_loop (l : list string) (b : Benchmark) :
  states (for_each l restartInstance b).1 = states b.
Proof.
  set (Rel := λ b b' : Benchmark, states b' = states b).
  assert (Hrefl : ∀ b, Rel b b) by done.
  assert (Htrans : ∀ b1 b2 b3, Rel b1 b2 → Rel b2 b3 → Rel b1 b3)
    by (unfold Rel; congruence).
  assert (Hsusp : ∀ p b, Rel b (suspended p b)).
  { intros p b0. by destruct (suspended_frame p b0) as (_&_&_&_&_&_&_&_&?&_). }
  apply (follows_for_each Rel Hrefl Htrans). intros id.
  unfold restartInstance, getForeignObjectAsync, setForeignObjectAsync.
  repeat first
    [ apply follows_ret; exact Hrefl
    | apply follows_get; exact Hrefl
    | apply follows_await; exact Hsusp
    | by apply follows_modify
    | apply follows_bind; [exact Htrans| |intros [o|]]
    | apply follows_bind; [exact Htrans| |intros ?]
    | destruct (o_common o) ].
Qed.

(** C6.  A run of a primary over workloads of the registry, started
    with the marker at 'none' and with no awaited call rejecting, and one
    of its workloads, [w]: the summary persisted for [w] carries the
    secondaries computed from the reports received during the epochs of
    [w], and it is still there when the run returns, provided that [w] is
    not run again and that the environment leaves this state alone during
    the epochs of the workloads that follow.  Every instance [s] that
    reported during the epochs of [w], and no other, has an entry
    [secondaries[s]]; its [actionsPerSecondMean] is
    [round(iterations / timeMean_s / k)], with [timeMean_s] the rounded
    mean of the times that the reports of [s] held, in order, and [k] the
    number of distinct reporting instances, which is the number of
    entries; with two of them the divisor is 2. *)
Theorem secondary_actionsPerSecondMean (ws1 ws2 : list string) (w : string)
    (b : Benchmark) :
  activeTest b = "none" → secondaryMode (config b) = false →
  (∀ v, v ∈ ws1 ++ w :: ws2 → v ∈ allTests) →
  w ∉ ws2 → state_left_alone ws2 (state_id (namespace b) w ".summary") →
  let its := iterations (defaults (config b)) in
  let evs := epoch_events w 1 (epochs (defaults (config b))) in
  let rm := collected evs ∅ in
  ∃ b' times own,
    runTests (ws1 ++ w :: ws2) b = (b', Done times) ∧
    states b' !! state_id (namespace b) w ".summary"
    = Some (mkState (SSummary (mkSummary own (attachSecondaries its rm))) true) ∧
    (∀ s, is_Some (rm !! s) ↔ reports_of s evs ≠ []) ∧
    size rm = length (reporters evs) ∧
    (attachSecondaries its rm = None ↔ ∀ s, reports_of s evs = []) ∧
    ∀ s, reports_of s evs ≠ [] →
      ∃ secs st,
        attachSecondaries its rm = Some secs ∧ secs !! s = Some st ∧
        timeMean st = round (calcMean (series_of "time" (reports_of s evs))) ∧
        actionsPerSecondMean st
        = round (js_div (js_div its (timeMean st)) (Fin (qnat (size rm)))) ∧
        (size rm = 2%nat →
         actionsPerSecondMean st
         = round (js_div (js_div its (timeMean st)) (Fin (qz 2)))).
Proof.
  intros Hnone Hsec Hsel Hnot Hquiet its evs rm.
  assert (Hq : quiescent (namespace b) (config b) (monitoringActive b)
                 (cpuStats b) (memStats b) (internalEventLoopLags b)
                 (requestedMonitoring b) b) by by repeat split.
  assert (Hlook : ∀ s, rm !! s
            = match reports_of s evs with
              | [] => None
              | ps => Some (extended emptyEntry ps)
              end).
  { intros s. subst rm. rewrite collected_lookup. by rewrite lookup_empty. }
  assert (Hdom : ∀ s, is_Some (rm !! s) ↔ reports_of s evs ≠ []).
  { intros s. rewrite Hlook. destruct (reports_of s evs); split; try done;
      first [by intros [? ?] | by eexists]. }
  assert (Hrun : ∃ b' times,
    runTests (ws1 ++ w :: ws2) b = (b', Done times) ∧
    states b' !! state_id (namespace b) w ".summary"
    = Some (persisted (defaults (config b)) w rm)).
  { destruct (isolatedRun (config b)) eqn:Hiso.
    - destruct (stopInstances_spec b) as (b1 & l & Hstop & Hr & _).
      pose proof (stopInstances_quiescent _ _ _ _ _ _ _ b b1 Hq Hstop) as Hq1.
      destruct (triple_run _ _ _ b1
                  (measurement_summary _ _ _ _ _ _ _ ws1 ws2 w Hsel Hnot Hquiet) Hq1)
        as (b2 & times & Hmeas & _ & Hsum).
      rewrite Hsec in Hsum.
      pose proof (und_measurement (ws1 ++ w :: ws2) b1) as Hund.
      rewrite Hmeas in Hund. simpl in Hund.
      destruct Hund as (_ & Hr2 & _). rewrite Hr in Hr2.
      destruct (restart_loop l b2) as (b3 & Hrestart & _).
      pose proof (states_restart_loop l b2) as Hst. rewrite Hrestart in Hst.
      exists b3, times. split.
      + rewrite runTests_isolated by done.
        unfold bind at 1. rewrite Hstop. unfold bind at 1. rewrite Hmeas.
        unfold bind at 1, get_ at 1. rewrite Hr2.
        unfold bind at 1. by rewrite Hrestart.
      + simpl in Hst. by rewrite Hst.
    - destruct (triple_run _ _ _ b
                  (measurement_summary _ _ _ _ _ _ _ ws1 ws2 w Hsel Hnot Hquiet) Hq)
        as (b2 & times & Hmeas & _ & Hsum).
      rewrite Hsec in Hsum.
      exists b2, times. by rewrite runTests_plain. }
  destruct Hrun as (b' & times & Hrun & Hsum).
  exists b', times. eexists. split; [exact Hrun|]. split; [exact Hsum|].
  split; [exact Hdom|]. split; [apply size_collected|]. split.
  { split.
    - intros Hnone' s. destruct (reports_of s evs) as [|p ps] eqn:Hps; [done|].
      destruct (Hdom s) as [_ [e He]]; [by rewrite Hps|].
      destruct (attachSecondaries_entry its rm s e He) as (secs & ? & Hsecs & _).
      congruence.
    - intros Hno. assert (Hrm : rm = ∅).
      { apply map_eq. intros s. rewrite Hlook, Hno. by rewrite lookup_empty. }
      rewrite Hrm. unfold attachSecondaries, object_keys.
      by rewrite map_to_list_empty. }
  intros s Hs.
  destruct (Hdom s) as [_ [e He]]; [done|].
  destruct (attachSecondaries_entry its rm s e He)
    as (secs & st & Hsecs & Hst & Htm & Haps & Htwo).
  exists secs, st. repeat (split; [done|]). split; [|done].
  rewrite Htm. rewrite Hlook in He.
  destruct (reports_of s evs); [done|]. by injection He as <-.
Qed.

(** ** The handler of a primary *)

Lemma runTests_start_done (selectedTests : list string) (b : Benchmark) :
  runTests_start selectedTests b = (started selectedTests b, Done tt).
Proof.
  unfold started, runTests_start, bind, get_, modify.
  destruct (isolatedRun (config b)); [done|]. by destruct selectedTests.
Qed.

Lemma spawn_runTests_eq (selectedTests : list string) (b : Benchmark) :
  spawn_runTests selectedTests b
  = (set_detached (detached b ++ [selectedTests]) (started selectedTests b),
     Done tt).
Proof.
  unfold spawn_runTests, bind. rewrite runTests_start_done. unfold modify.
  do 2 f_equal. unfold started, runTests_start, bind, get_, modify.
  destruct (isolatedRun (config b)); [done|]. by destruct selectedTests.
Qed.

Lemma outbox_started (selectedTests : list string) (b : Benchmark) :
  outbox (started selectedTests b) = outbox b.
Proof.
  unfold started, runTests_start, bind, get_, modify.
  destruct (isolatedRun (config b)); [done|]. by destruct selectedTests.
Qed.

(** X25.  The start of a run is what [runTests] does before its first
    [await].  In an isolated run the first awaited call is the query of
    the instance view, otherwise it is the creation of the channel of the
    first workload: if that call rejects, [runTests] rejects in the state
    that the start of the run leaves, suspended at that call.  A run over
    no workload that is not isolated has no [await]: it is its start. *)
Theorem runTests_begins_with_start (selectedTests : list string) (b : Benchmark) :
  (isolatedRun (config b) = true → rejects env PGetObjectView = true →
   runTests selectedTests b
   = (suspended PGetObjectView (started selectedTests b), Thrown)) ∧
  (isolatedRun (config b) = false →
   ∀ w rest, selectedTests = w :: rest →
     let p := PSetObjectNotExists (namespace b +:+ "." +:+ w) in
     rejects env p = true →
     runTests selectedTests b = (suspended p (started selectedTests b), Thrown)) ∧
  (isolatedRun (config b) = false → selectedTests = [] →
   runTests selectedTests b = (started selectedTests b, Done ∅)).
Proof.
  split; [|split].
  - intros Hiso Hrej.
    unfold runTests, started, runTests_start, stopInstances, getObjectViewAsync,
      bind, get_, modify.
    rewrite Hiso, await_eq, Hrej. done.
  - intros Hiso w rest -> p Hrej.
    assert (Hs : started (w :: rest) b
      = set_internalEventLoopLags (<[w := []]> ∅)
          (set_memStats (<[w := []]> ∅)
             (set_cpuStats (<[w := []]> ∅)
                (set_monitoringActive true
                   (set_requestedMonitoring ∅
                      (set_internalEventLoopLags ∅
                         (set_cpuStats ∅
                            (set_memStats ∅
                               (set_config (defaults (config b)) b))))))))).
    { unfold started, runTests_start, bind, get_, modify. by rewrite Hiso. }
    rewrite Hs. clear Hs.
    unfold runTests. unfold bind at 1, get_ at 1. rewrite Hiso.
    unfold bind at 1. cbn [ret].
    do 6 (unfold bind at 1; cbn [modify]).
    unfold bind at 1. cbn [runWorkloads]. unfold bind at 1.
    unfold runWorkload.
    do 3 (unfold bind at 1; cbn [modify]).
    unfold bind at 1. unfold setObjectNotExistsAsync at 1.
    unfold bind at 1, own_id at 1, get_ at 1.
    unfold bind at 1. rewrite await_eq.
    simpl namespace. fold p. by rewrite Hrej.
  - intros Hiso ->.
    unfold runTests, started, runTests_start, bind, get_, modify, ret.
    by rewrite Hiso.
Qed.

(** X15.  A primary and a command other than 'requestedMonitoring',
    whatever the payload.  'test' starts one run over the six workloads
    and the name of a workload one run over that workload; so does a name
    that the registry inherits from [Object.prototype], over itself, and
    '__proto__' over no workload at all; any other command starts nothing.
    The run started goes as far as its first [await] before the handler
    goes on: an isolated run has emptied the restart list; any other run
    has given the configuration its defaults, emptied the series and the
    reports received, switched monitoring on and given the first workload
    its three series, or, over no workload, has switched monitoring off
    again.  Then the acknowledgement is sent; nothing else changes. *)
Theorem primary_dispatch (obj : Message) (b : Benchmark) :
  secondaryMode (config b) = false →
  command obj ≠ "requestedMonitoring" →
  let run := if decide (command obj = "test") then Some allTests
             else if decide (command obj ∈ allTests) then Some [command obj]
             else if decide (command obj = "__proto__") then Some []
             else if decide (command obj ∈ inherited) then Some [command obj]
             else None in
  let b1 := match run with
            | Some sel => set_detached (detached b ++ [sel]) (started sel b)
            | None => b
            end in
  onMessage obj b = (set_outbox (outbox b ++ [ack_of obj]) b1, Done tt) ∧
  ∀ sel,
    runTests_start sel b = (started sel b, Done tt) ∧
    (isolatedRun (config b) = true →
     started sel b = set_restartInstances (Some []) b) ∧
    (isolatedRun (config b) = false →
     let first : gmap string (list num) :=
       match sel with [] => ∅ | w :: _ => <[w := []]> ∅ end in
     started sel b
     = set_internalEventLoopLags first
         (set_memStats first
            (set_cpuStats first
               (set_monitoringActive (bool_decide (sel ≠ []))
                  (set_requestedMonitoring ∅
                     (set_config (defaults (config b)) b)))))).
Proof.
  intros Hsec Hcmd run b1. split.
  - rewrite onMessage_eq, Hsec. simpl negb. cbv iota.
    unfold onPrimaryMessage, bind.
    assert (Hack : ∀ b0, outbox b0 = outbox b →
              acknowledge obj b0 = (set_outbox (outbox b ++ [ack_of obj]) b0, Done tt)).
    { intros b0 Hb0. unfold acknowledge, sendTo, modify. by rewrite Hb0. }
    subst b1 run.
    destruct (decide (command obj = "test")).
    { rewrite spawn_runTests_eq. apply Hack. simpl. apply outbox_started. }
    destruct (decide (command obj ∈ allTests)) as [Hw|Hw].
    { rewrite decide_True by (apply elem_of_app; by left).
      assert (Hp : command obj ≠ "__proto__").
      { intros Hp. rewrite Hp in Hw. revert Hw.
        apply (bool_decide_unpack _). vm_compute. exact I. }
      unfold selected_keys. rewrite decide_False by done.
      rewrite spawn_runTests_eq. apply Hack. simpl. apply outbox_started. }
    destruct (decide (command obj = "__proto__")) as [Hp|Hp].
    { rewrite decide_True
        by (rewrite Hp; apply (bool_decide_unpack _); vm_compute; exact I).
      unfold selected_keys. rewrite decide_True by done.
      rewrite spawn_runTests_eq. apply Hack. simpl. apply outbox_started. }
    destruct (decide (command obj ∈ inherited)) as [Hi|Hi].
    { rewrite decide_True by (apply elem_of_app; by right).
      unfold selected_keys. rewrite decide_False by done.
      rewrite spawn_runTests_eq. apply Hack. simpl. apply outbox_started. }
    rewrite decide_False by (rewrite elem_of_app; tauto).
    rewrite decide_False by done. by apply Hack.
  - intros sel. split; [apply runTests_start_done|].
    unfold started, runTests_start, bind, get_, modify.
    split; intros Hiso; rewrite Hiso; [done|].
    destruct sel; destruct b; reflexivity.
Qed.

Lemma merged_object (k : string) (fields : list (string * jsval)) (old : list num) :
  merged k (VObj fields) old = Some (old ++ array_field k fields).
Proof.
  unfold merged, array_field. simpl.
  destruct (field_lookup k fields); try by rewrite app_nil_r. done.
Qed.

Lemma mergeField_object k sender fields get set (e : RequestedMonitoringEntry)
    (b : Benchmark) :
  requestedMonitoring b !! sender = Some e →
  mergeField k sender (VObj fields) get set b
  = (set_requestedMonitoring
       (<[sender := set (get e ++ array_field k fields) e]> (requestedMonitoring b)) b,
     Done tt).
Proof. intros He. unfold mergeField. by rewrite He, merged_object. Qed.

Lemma receiveMonitoring_object (obj : Message) (fields : list (string * jsval))
    (b : Benchmark) :
  message obj = VObj fields →
  let e := default emptyEntry (requestedMonitoring b !! from obj) in
  let e' := mkEntry (e_time e ++ array_field "time" fields)
              (e_cpuStats e ++ array_field "cpuStats" fields)
              (e_memStats e ++ array_field "memStats" fields)
              (e_eventLoopLags e ++ array_field "eventLoopLags" fields) in
  receiveMonitoring obj b
  = (set_requestedMonitoring (<[from obj := e']> (requestedMonitoring b)) b, Done tt).
Proof.
  intros Hmsg e e'. unfold receiveMonitoring. rewrite Hmsg.
  set (b0 := match requestedMonitoring b !! from obj with
             | Some _ => b
             | None => set_requestedMonitoring
                         (<[from obj := emptyEntry]> (requestedMonitoring b)) b
             end).
  assert (He : requestedMonitoring b0 !! from obj = Some e).
  { subst b0 e. destruct (requestedMonitoring b !! from obj) eqn:Hlook; simpl.
    - done.
    - by rewrite lookup_insert_eq. }
  assert (Hb0 : ∀ m, set_requestedMonitoring (<[from obj := m]> (requestedMonitoring b0)) b0
                     = set_requestedMonitoring (<[from obj := m]> (requestedMonitoring b)) b).
  { intros m. subst b0. destruct (requestedMonitoring b !! from obj); [done|].
    unfold set_requestedMonitoring. simpl. by rewrite insert_insert_eq. }
  unfold bind at 1. cbn [modify]. fold b0.
  unfold bind at 1. rewrite (mergeField_object _ _ _ _ _ e) by done.
  unfold bind at 1.
  rewrite (mergeField_object _ _ _ _ _ _) by (simpl; apply lookup_insert_eq).
  unfold bind at 1.
  rewrite (mergeField_object _ _ _ _ _ _) by (simpl; apply lookup_insert_eq).
  rewrite (mergeField_object _ _ _ _ _ _) by (simpl; apply lookup_insert_eq).
  f_equal. unfold set_requestedMonitoring at 1 2 3 4. simpl.
  rewrite !insert_insert_eq. apply Hb0.
Qed.

(** X16.  A primary and a 'requestedMonitoring' message with an object
    payload: the sender's entry, created empty on first contact, has each
    of its four series extended at the end by the array the payload holds
    under that name (by nothing when the payload has no array there); the
    entries of the other senders stay as they are, the acknowledgement is
    sent and nothing else changes. *)
Theorem report_accumulates (obj : Message) (fields : list (string * jsval))
    (b : Benchmark) :
  secondaryMode (config b) = false →
  command obj = "requestedMonitoring" → message obj = VObj fields →
  let e := default emptyEntry (requestedMonitoring b !! from obj) in
  let e' := mkEntry (e_time e ++ array_field "time" fields)
              (e_cpuStats e ++ array_field "cpuStats" fields)
              (e_memStats e ++ array_field "memStats" fields)
              (e_eventLoopLags e ++ array_field "eventLoopLags" fields) in
  onMessage obj b
  = (set_outbox (outbox b ++ [ack_of obj])
       (set_requestedMonitoring (<[from obj := e']> (requestedMonitoring b)) b),
     Done tt).
Proof.
  intros Hsec Hcmd Hmsg e e'. rewrite onMessage_eq, Hsec. simpl negb. cbv iota.
  rewrite onPrimaryMessage_report by done.
  unfold bind. by rewrite (receiveMonitoring_object obj fields b Hmsg).
Qed.

(** X17.  The [secondaries] part of a summary is absent exactly when
    no instance has reported; when it is there, the instances it lists
    are exactly those that reported, each with the statistics of its own
    entry. *)
Theorem secondaries_are_the_reporters (its : num)
    (rm : gmap string RequestedMonitoringEntry) :
  (attachSecondaries its rm = None ↔ rm = ∅) ∧
  ∀ secs, attachSecondaries its rm = Some secs →
          ∀ s, secs !! s = secondaryStats its (size rm) <$> rm !! s.
Proof.
  assert (Hks : ∀ k, k ∈ object_keys rm → is_Some (rm !! k))
    by (intros k; apply elem_of_object_keys).
  split.
  - split.
    + intros Hnone. apply map_empty. intros s.
      destruct (rm !! s) as [e|] eqn:Hs; [|done]. exfalso.
      destruct (attach_loop_Some its rm (length (object_keys rm)) (object_keys rm)
                  None Hks) as [secs Hsecs].
      { left. intros Hnil.
        assert (Hin : s ∈ object_keys rm) by (apply elem_of_object_keys; eauto).
        rewrite Hnil in Hin. by apply elem_of_nil in Hin. }
      unfold attachSecondaries in Hnone. simpl in Hsecs. congruence.
    + intros ->. done.
  - intros secs Hsecs s.
    pose proof (attach_loop its rm (length (object_keys rm)) (object_keys rm)
                  None s Hks) as Hlook.
    simpl in Hlook. unfold attachSecondaries in Hsecs. rewrite Hsecs in Hlook.
    simpl in Hlook. rewrite Hlook, length_object_keys.
    destruct (decide (s ∈ object_keys rm)) as [Hin|Hnin]; [done|].
    rewrite lookup_empty.
    destruct (rm !! s) eqn:Hs; [|done].
    exfalso. apply Hnin, elem_of_object_keys. eauto.
Qed.

(** ** How long the lag sampler goes on *)

(** X18.  The lag sampler reports once per timer expiry for as long as
    every expiry so far found monitoring switched on, once more for the
    first expiry that finds it switched off, and never again: the number
    of reports is the number of leading expiries with the flag on plus
    one, or the number of expiries if that is smaller. *)
Theorem lag_reports_count (ms now : num) (expiries : list (num * bool)) :
  length (lags_reported ms expiries (measureEventLoopLag now))
  = (length expiries `min` S (leading_active expiries))%nat.
Proof.
  unfold measureEventLoopLag. generalize now as start.
  induction expiries as [|[t active] rest IH]; intros start; simpl; [done|].
  destruct active; simpl.
  - by rewrite IH.
  - by destruct rest as [|[??]?].
Qed.

(** ** Bulk requests, there and back *)

Lemma store_call_fields (p : Point) (b : Benchmark) :
  namespace (suspended p b) = namespace b ∧ objects (suspended p b) = objects b ∧
  states (suspended p b) = states b ∧ outbox (suspended p b) = outbox b.
Proof. by destruct (suspended_frame p b) as (?&_&_&_&_&_&_&?&?&?&_). Qed.

Lemma delObjectAsync_step (id : string) (b : Benchmark) :
  ∃ b', delObjectAsync id b = (b', Done tt) ∧
    namespace b' = namespace b ∧ states b' = states b ∧ outbox b' = outbox b ∧
    objects b' = delete (namespace b +:+ "." +:+ id) (objects b).
Proof.
  unfold delObjectAsync, own_id, bind, get_, modify.
  rewrite await_eq, no_rejection.
  destruct (store_call_fields (PDelObject (namespace b +:+ "." +:+ id)) b)
    as (Hn & Ho & Hs & Hx).
  eexists. split; [done|]. simpl. by rewrite Ho.
Qed.

Lemma setStateAsync_step (id : string) (v : StateVal) (a : bool) (b : Benchmark) :
  ∃ b', setStateAsync id v a b = (b', Done tt) ∧
    namespace b' = namespace b ∧ objects b' = objects b ∧ outbox b' = outbox b ∧
    states b' = <[namespace b +:+ "." +:+ id := mkState v a]> (states b).
Proof.
  unfold setStateAsync, own_id, bind, get_, modify.
  rewrite await_eq, no_rejection.
  destruct (store_call_fields (PSetState (namespace b +:+ "." +:+ id)) b)
    as (Hn & Ho & Hs & Hx).
  eexists. split; [done|]. simpl. by rewrite Hs.
Qed.

Lemma delStateAsync_step (id : string) (b : Benchmark) :
  ∃ b', delStateAsync id b = (b', Done tt) ∧
    namespace b' = namespace b ∧ objects b' = objects b ∧ outbox b' = outbox b ∧
    states b' = delete (namespace b +:+ "." +:+ id) (states b).
Proof.
  unfold delStateAsync, own_id, bind, get_, modify.
  rewrite await_eq, no_rejection.
  destruct (store_call_fields (PDelState (namespace b +:+ "." +:+ id)) b)
    as (Hn & Ho & Hs & Hx).
  eexists. split; [done|]. simpl. by rewrite Hs.
Qed.

Lemma del_objects_loop (indices : list nat) (b : Benchmark) :
  ∃ b', for_each indices (λ i, delObjectAsync ("test." +:+ pretty i)) b
        = (b', Done tt) ∧
    namespace b' = namespace b ∧ states b' = states b ∧ outbox b' = outbox b ∧
    objects b' = foldl (λ m i, delete (test_id (namespace b) i) m) (objects b) indices.
Proof.
  revert b. induction indices as [|i rest IH]; intros b; cbn [for_each foldl].
  - by exists b.
  - unfold bind.
    destruct (delObjectAsync_step ("test." +:+ pretty i) b)
      as (b1 & -> & Hn & Hs & Hx & Ho).
    destruct (IH b1) as (b' & -> & Hn' & Hs' & Hx' & Ho').
    exists b'. repeat split; try congruence. rewrite Ho', Hn, Ho. done.
Qed.

Lemma set_states_loop (indices : list nat) (b : Benchmark) :
  ∃ b', for_each indices
          (λ i, setStateAsync ("test." +:+ pretty i) (SNum (Fin (qnat i))) true) b
        = (b', Done tt) ∧
    namespace b' = namespace b ∧ objects b' = objects b ∧ outbox b' = outbox b ∧
    states b' = foldl (λ m i, <[test_id (namespace b) i
                                 := mkState (SNum (Fin (qnat i))) true]> m)
                  (states b) indices.
Proof.
  revert b. induction indices as [|i rest IH]; intros b; cbn [for_each foldl].
  - by exists b.
  - unfold bind.
    destruct (setStateAsync_step ("test." +:+ pretty i) (SNum (Fin (qnat i))) true b)
      as (b1 & -> & Hn & Ho & Hx & Hs).
    destruct (IH b1) as (b' & -> & Hn' & Ho' & Hx' & Hs').
    exists b'. repeat split; try congruence. rewrite Hs', Hn, Hs. done.
Qed.

Lemma del_states_loop (indices : list nat) (b : Benchmark) :
  ∃ b', for_each indices (λ i, delStateAsync ("test." +:+ pretty i)) b
        = (b', Done tt) ∧
    namespace b' = namespace b ∧ objects b' = objects b ∧ outbox b' = outbox b ∧
    states b' = foldl (λ m i, delete (test_id (namespace b) i) m) (states b) indices.
Proof.
  revert b. induction indices as [|i rest IH]; intros b; cbn [for_each foldl].
  - by exists b.
  - unfold bind.
    destruct (delStateAsync_step ("test." +:+ pretty i) b)
      as (b1 & -> & Hn & Ho & Hx & Hs).
    destruct (IH b1) as (b' & -> & Hn' & Ho' & Hx' & Hs').
    exists b'. repeat split; try congruence. rewrite Hs', Hn, Hs. done.
Qed.

Section Folds.

Context {V : Type}.
Variable ns : string.

Lemma fold_del_lookup (indices : list nat) (m : gmap string V) (k : string) :
  foldl (λ m i, delete (test_id ns i) m) m indices !! k
  = if decide (k ∈ test_id ns <$> indices) then None else m !! k.
Proof.
  revert m. induction indices as [|i rest IH]; intros m; simpl.
  - destruct (decide (k ∈ [])) as [Hin|_]; [by apply elem_of_nil in Hin|done].
  - rewrite IH. destruct (decide (k ∈ test_id ns <$> rest)) as [Hin|Hnin].
    + rewrite decide_True by (by right). done.
    + destruct (decide (k = test_id ns i)) as [->|Hne].
      * rewrite decide_True by (by left). by rewrite lookup_delete_eq.
      * rewrite decide_False by (rewrite elem_of_cons; tauto).
        by rewrite lookup_delete_ne.
Qed.

Variable v : nat → V.

Lemma fold_set_other (indices : list nat) (m : gmap string V) (k : string) :
  (∀ i, i ∈ indices → test_id ns i ≠ k) →
  foldl (λ m i, <[test_id ns i := v i]> m) m indices !! k = m !! k.
Proof.
  revert m. induction indices as [|i rest IH]; intros m Hk; simpl; [done|].
  rewrite IH by (intros j Hj; apply Hk; by right).
  apply lookup_insert_ne, Hk. by left.
Qed.

Lemma fold_set_here (indices : list nat) (m : gmap string V) (i : nat) :
  i ∈ indices →
  foldl (λ m i, <[test_id ns i := v i]> m) m indices !! test_id ns i = Some (v i).
Proof.
  revert m. induction indices as [|j rest IH]; intros m Hi; simpl.
  - by apply elem_of_nil in Hi.
  - destruct (decide (i ∈ rest)) as [Hin|Hnin]; [by apply IH|].
    apply elem_of_cons in Hi as [->|Hi]; [|done].
    rewrite fold_set_other; [by rewrite lookup_insert_eq|].
    intros i Hi Heq. apply test_id_inj in Heq. by subst.
Qed.


End Folds.

Lemma rounds_qnat (n : nat) : rounds (Fin (qnat n)) = Some n.
Proof.
  unfold rounds, qnat, qz, Q2Qc. cbn [this]. f_equal.
  rewrite Qred_correct, Qceiling_Z. lia.
Qed.

Lemma bulk_set (n : nat) (on_set on_del : nat → M unit) :
  bulk (bulk_payload "set" n) on_set on_del = for_each (seq 0 n) on_set.
Proof.
  unfold bulk, bulk_payload. simpl. unfold count_loop.
  by rewrite rounds_qnat.
Qed.

Lemma bulk_del (n : nat) (on_set on_del : nat → M unit) :
  bulk (bulk_payload "del" n) on_set on_del = for_each (seq 0 n) on_del.
Proof.
  unfold bulk, bulk_payload. simpl. unfold count_loop.
  by rewrite rounds_qnat.
Qed.

Lemma same_setup_refl (b : Benchmark) : same_setup b b.
Proof. done. Qed.

Lemma same_setup_trans (b1 b2 b3 : Benchmark) :
  same_setup b1 b2 → same_setup b2 b3 → same_setup b1 b3.
Proof. intros [??] [??]. split; congruence. Qed.

Lemma same_setup_suspended (p : Point) (b : Benchmark) : same_setup b (suspended p b).
Proof. by destruct (suspended_frame p b) as (?&?&_). Qed.

Ltac setup_step :=
  first
    [ apply follows_ret; apply same_setup_refl
    | apply follows_get; apply same_setup_refl
    | apply follows_throw; apply same_setup_refl
    | apply follows_await; apply same_setup_suspended
    | apply follows_modify; intros ?; by split
    | apply follows_for_each;
      [apply same_setup_refl|apply same_setup_trans|intros ?]
    | apply follows_bind; [apply same_setup_trans| |intros ?] ].

Lemma setup_bulk (msg : jsval) (on_set on_del : nat → M unit) :
  (∀ i, follows same_setup (on_set i)) → (∀ i, follows same_setup (on_del i)) →
  follows same_setup (bulk msg on_set on_del).
Proof.
  intros Hs Hd. unfold bulk. destruct (typeof_is_object msg); [|setup_step].
  destruct (get_prop msg "cmd") as [[]|], (get_prop msg "n") as [[]|];
    try setup_step.
  assert (Hloop : ∀ body, (∀ i, follows same_setup (body i)) →
                          follows same_setup (count_loop n body)).
  { intros body Hbody. unfold count_loop. destruct (rounds n).
    - apply follows_for_each;
        [apply same_setup_refl|apply same_setup_trans|done].
    - intros b. apply same_setup_refl. }
  repeat destruct (decide _); first [by apply Hloop | setup_step].
Qed.

Lemma onSecondaryMessage_same_setup (obj : Message) :
  follows same_setup (onSecondaryMessage obj).
Proof.
  unfold onSecondaryMessage.
  repeat destruct (decide _).
  - apply setup_bulk; intros i; unfold setObjectAsync, delObjectAsync, own_id;
      repeat setup_step.
  - apply setup_bulk; intros i; unfold setStateAsync, delStateAsync, own_id;
      repeat setup_step.
  - unfold startMeasuring. repeat setup_step.
  - unfold stopMeasuring.
    do 3 (apply follows_bind; [apply same_setup_trans|setup_step|intros ?]).
    apply follows_bind; [apply same_setup_trans| |intros ?; repeat setup_step].
    destruct a1; [|setup_step]. unfold sendToAsync, sendTo. repeat setup_step.
  - setup_step.
Qed.

Lemma acknowledge_same_setup (obj : Message) : follows same_setup (acknowledge obj).
Proof. unfold acknowledge, sendTo. setup_step. Qed.

(** A secondary never changes its configuration or its namespace. *)
Lemma onMessage_same_setup (obj : Message) (b : Benchmark) :
  secondaryMode (config b) = true → same_setup b (onMessage obj b).1.
Proof.
  intros Hsec. rewrite onMessage_eq, Hsec. simpl negb. cbv iota.
  apply follows_bind;
    [apply same_setup_trans|apply onSecondaryMessage_same_setup
    |intros ?; apply acknowledge_same_setup].
Qed.

Lemma started_setup (selectedTests : list string) (b : Benchmark) :
  namespace (started selectedTests b) = namespace b ∧
  (config (started selectedTests b) = config b
   ∨ config (started selectedTests b) = defaults (config b)).
Proof.
  unfold started, runTests_start, bind, get_, modify.
  destruct (isolatedRun (config b)); [by split; [|left]|].
  destruct selectedTests; by split; [|right].
Qed.

Lemma onMessage_setup (obj : Message) (b : Benchmark) :
  namespace (onMessage obj b).1 = namespace b ∧
  (config (onMessage obj b).1 = config b
   ∨ config (onMessage obj b).1 = defaults (config b)).
Proof.
  destruct (secondaryMode (config b)) eqn:Hsec.
  { destruct (onMessage_same_setup obj b Hsec) as [Hc Hn]. by split; [|left]. }
  assert (Hgen : ∀ (c : M unit),
    namespace (c b).1 = namespace b →
    (config (c b).1 = config b ∨ config (c b).1 = defaults (config b)) →
    namespace (bind c (λ _, acknowledge obj) b).1 = namespace b ∧
    (config (bind c (λ _, acknowledge obj) b).1 = config b
     ∨ config (bind c (λ _, acknowledge obj) b).1 = defaults (config b))).
  { intros c Hn Hc. unfold bind, acknowledge, sendTo, modify.
    by destruct (c b) as [b0 [[]| |]]. }
  rewrite onMessage_eq, Hsec. simpl negb. cbv iota. apply Hgen.
  - unfold onPrimaryMessage. repeat destruct (decide _);
      rewrite ?spawn_runTests_eq, ?receiveMonitoring_absorb; simpl;
      try apply started_setup; done.
  - unfold onPrimaryMessage. repeat destruct (decide _);
      rewrite ?spawn_runTests_eq, ?receiveMonitoring_absorb; simpl;
      try apply started_setup; by left.
Qed.

(** X19.  The message handler never changes the namespace or the two
    mode switches of the instance, in either role, for any message and
    however it ends.  A secondary never changes its configuration at all;
    on a primary the configuration is afterwards what it was or, when the
    message has started a run, what the defaults of the run make of it. *)
Theorem onMessage_keeps_setup (obj : Message) (b : Benchmark) :
  namespace (onMessage obj b).1 = namespace b ∧
  secondaryMode (config (onMessage obj b).1) = secondaryMode (config b) ∧
  isolatedRun (config (onMessage obj b).1) = isolatedRun (config b) ∧
  (config (onMessage obj b).1 = config b
   ∨ config (onMessage obj b).1 = defaults (config b)) ∧
  (secondaryMode (config b) = true → config (onMessage obj b).1 = config b).
Proof.
  destruct (onMessage_setup obj b) as [Hn Hc].
  split; [done|]. split; [by destruct Hc as [-> | ->]|].
  split; [by destruct Hc as [-> | ->]|]. split; [done|].
  intros Hsec. by destruct (onMessage_same_setup obj b Hsec).
Qed.

Lemma onMessage_bulk_objects (obj : Message) (b : Benchmark) :
  secondaryMode (config b) = true → command obj = "objects" →
  onMessage obj b
  = bind (bulk (message obj)
            (λ i, setObjectAsync ("test." +:+ pretty i) (testObject i))
            (λ i, delObjectAsync ("test." +:+ pretty i)))
         (λ _, acknowledge obj) b.
Proof.
  intros Hsec Hcmd. rewrite onMessage_eq, Hsec. simpl negb. cbv iota.
  unfold onSecondaryMessage. by rewrite decide_True.
Qed.

Lemma onMessage_bulk_states (obj : Message) (b : Benchmark) :
  secondaryMode (config b) = true → command obj = "states" →
  onMessage obj b
  = bind (bulk (message obj)
            (λ i, setStateAsync ("test." +:+ pretty i) (SNum (Fin (qnat i))) true)
            (λ i, delStateAsync ("test." +:+ pretty i)))
         (λ _, acknowledge obj) b.
Proof.
  intros Hsec Hcmd. rewrite onMessage_eq, Hsec. simpl negb. cbv iota.
  unfold onSecondaryMessage. rewrite Hcmd.
  destruct (decide ("states" = "objects")) as [Heq|_]; [discriminate Heq|].
  by rewrite decide_True.
Qed.

Lemma in_test_ids (ns : string) (n : nat) (k : string) :
  k ∈ test_id ns <$> seq 0 n ↔ ∃ i, (i < n)%nat ∧ k = test_id ns i.
Proof.
  rewrite list_elem_of_fmap. split.
  - intros (i & -> & Hi). apply elem_of_seq in Hi. exists i. split; [lia|done].
  - intros (i & Hi & ->). exists i. split; [done|]. apply elem_of_seq. lia.
Qed.

(** X20.  A secondary that is asked to set [n] objects and then to
    delete [n] objects, with no awaited call rejecting: after the first
    request the objects test.0 to test.(n-1) exist; after the second none
    of them does and every other object is as before, so that the object
    store is back to what it was if none of them existed at the start;
    the states are untouched and each request is acknowledged once. *)
Theorem objects_set_then_del (sender : string) (cb1 cb2 : jsval) (n : nat)
    (b : Benchmark) :
  secondaryMode (config b) = true →
  let set := mkMessage sender "objects" (bulk_payload "set" n) cb1 in
  let del := mkMessage sender "objects" (bulk_payload "del" n) cb2 in
  let ns := namespace b in
  ∃ b1 b2,
    onMessage set b = (b1, Done tt) ∧ onMessage del b1 = (b2, Done tt) ∧
    (∀ i, (i < n)%nat → objects b1 !! test_id ns i = Some (testObject i)) ∧
    (∀ i, (i < n)%nat → objects b2 !! test_id ns i = None) ∧
    (∀ k, (∀ i, (i < n)%nat → k ≠ test_id ns i) → objects b2 !! k = objects b !! k) ∧
    ((∀ i, (i < n)%nat → objects b !! test_id ns i = None) → objects b2 = objects b) ∧
    states b2 = states b ∧
    outbox b2 = outbox b ++ [ack_of set; ack_of del].
Proof.
  intros Hsec set del ns.
  destruct (set_objects_loop (seq 0 n) b) as (b0 & Hrun & Hn0 & Hs0 & Hx0 & Ho0).
  set (b1 := set_outbox (outbox b0 ++ [ack_of set]) b0).
  assert (E1 : onMessage set b = (b1, Done tt)).
  { rewrite (onMessage_bulk_objects set b Hsec eq_refl).
    cbn [message set]. rewrite bulk_set. unfold bind. by rewrite Hrun. }
  pose proof (onMessage_same_setup set b Hsec) as [Hcfg1 Hns1].
  rewrite E1 in Hcfg1, Hns1. cbn [fst] in Hcfg1, Hns1.
  assert (Hsec1 : secondaryMode (config b1) = true) by (by rewrite Hcfg1).
  destruct (del_objects_loop (seq 0 n) b1) as (b3 & Hrun2 & Hn2 & Hs2 & Hx2 & Ho2).
  set (b2 := set_outbox (outbox b3 ++ [ack_of del]) b3).
  assert (E2 : onMessage del b1 = (b2, Done tt)).
  { rewrite (onMessage_bulk_objects del b1 Hsec1 eq_refl).
    cbn [message del]. rewrite bulk_del. unfold bind. by rewrite Hrun2. }
  exists b1, b2. split; [exact E1|]. split; [exact E2|].
  change (objects b1) with (objects b0) in *.
  change (namespace b1) with (namespace b0) in *.
  change (states b1) with (states b0) in *.
  change (outbox b1) with (outbox b0 ++ [ack_of set]) in *.
  change (objects b2) with (objects b3).
  change (states b2) with (states b3).
  change (outbox b2) with (outbox b3 ++ [ack_of del]).
  assert (Hlook : ∀ k, objects b3 !! k
            = if decide (k ∈ test_id ns <$> seq 0 n) then None else objects b !! k).
  { intros k. rewrite Ho2, fold_del_lookup, Hn0. fold ns.
    destruct (decide (k ∈ test_id ns <$> seq 0 n)) as [Hin|Hnin]; [done|].
    rewrite Ho0. apply fold_insert_other. intros i Hi Heq. apply Hnin.
    subst k. apply list_elem_of_fmap. by exists i. }
  split; [|split; [|split; [|split; [|split]]]].
  - intros i Hi. rewrite Ho0. apply fold_insert_here, elem_of_seq. lia.
  - intros i Hi. rewrite Hlook, decide_True; [done|].
    apply in_test_ids. by exists i.
  - intros k Hk. rewrite Hlook, decide_False; [done|].
    intros Hin. apply in_test_ids in Hin as (i & Hi & ->). by apply (Hk i).
  - intros Habsent. apply map_eq. intros k. rewrite Hlook.
    destruct (decide (k ∈ test_id ns <$> seq 0 n)) as [Hin|Hnin]; [|done].
    apply in_test_ids in Hin as (i & Hi & ->). symmetry. by apply Habsent.
  - congruence.
  - rewrite Hx2, Hx0, <- app_assoc. done.
Qed.

(** X21.  The same for states: a secondary that is asked to set [n]
    states and then to delete [n] states, with no awaited call rejecting.
    After the first request the state test.i holds the number [i],
    acknowledged, for every [i < n]; after the second none of them exists
    and every other state is as before; the objects are untouched and each
    request is acknowledged once. *)
Theorem states_set_then_del (sender : string) (cb1 cb2 : jsval) (n : nat)
    (b : Benchmark) :
  secondaryMode (config b) = true →
  let set := mkMessage sender "states" (bulk_payload "set" n) cb1 in
  let del := mkMessage sender "states" (bulk_payload "del" n) cb2 in
  let ns := namespace b in
  ∃ b1 b2,
    onMessage set b = (b1, Done tt) ∧ onMessage del b1 = (b2, Done tt) ∧
    (∀ i, (i < n)%nat →
       states b1 !! test_id ns i = Some (mkState (SNum (Fin (qnat i))) true)) ∧
    (∀ i, (i < n)%nat → states b2 !! test_id ns i = None) ∧
    (∀ k, (∀ i, (i < n)%nat → k ≠ test_id ns i) → states b2 !! k = states b !! k) ∧
    ((∀ i, (i < n)%nat → states b !! test_id ns i = None) → states b2 = states b) ∧
    objects b2 = objects b ∧
    outbox b2 = outbox b ++ [ack_of set; ack_of del].
Proof.
  intros Hsec set del ns.
  destruct (set_states_loop (seq 0 n) b) as (b0 & Hrun & Hn0 & Ho0 & Hx0 & Hs0).
  set (b1 := set_outbox (outbox b0 ++ [ack_of set]) b0).
  assert (E1 : onMessage set b = (b1, Done tt)).
  { rewrite (onMessage_bulk_states set b Hsec eq_refl).
    cbn [message set]. rewrite bulk_set. unfold bind. by rewrite Hrun. }
  pose proof (onMessage_same_setup set b Hsec) as [Hcfg1 Hns1].
  rewrite E1 in Hcfg1, Hns1. cbn [fst] in Hcfg1, Hns1.
  assert (Hsec1 : secondaryMode (config b1) = true) by (by rewrite Hcfg1).
  destruct (del_states_loop (seq 0 n) b1) as (b3 & Hrun2 & Hn2 & Ho2 & Hx2 & Hs2).
  set (b2 := set_outbox (outbox b3 ++ [ack_of del]) b3).
  assert (E2 : onMessage del b1 = (b2, Done tt)).
  { rewrite (onMessage_bulk_states del b1 Hsec1 eq_refl).
    cbn [message del]. rewrite bulk_del. unfold bind. by rewrite Hrun2. }
  exists b1, b2. split; [exact E1|]. split; [exact E2|].
  change (objects b1) with (objects b0) in *.
  change (namespace b1) with (namespace b0) in *.
  change (states b1) with (states b0) in *.
  change (outbox b1) with (outbox b0 ++ [ack_of set]) in *.
  change (objects b2) with (objects b3).
  change (states b2) with (states b3).
  change (outbox b2) with (outbox b3 ++ [ack_of del]).
  assert (Hlook : ∀ k, states b3 !! k
            = if decide (k ∈ test_id ns <$> seq 0 n) then None else states b !! k).
  { intros k. rewrite Hs2, fold_del_lookup, Hn0. fold ns.
    destruct (decide (k ∈ test_id ns <$> seq 0 n)) as [Hin|Hnin]; [done|].
    rewrite Hs0. apply fold_set_other. intros i Hi Heq. apply Hnin.
    subst k. apply list_elem_of_fmap. by exists i. }
  split; [|split; [|split; [|split; [|split]]]].
  - intros i Hi. rewrite Hs0.
    apply (fold_set_here ns (λ i, mkState (SNum (Fin (qnat i))) true)), elem_of_seq.
    lia.
  - intros i Hi. rewrite Hlook, decide_True; [done|].
    apply in_test_ids. by exists i.
  - intros k Hk. rewrite Hlook, decide_False; [done|].
    intros Hin. apply in_test_ids in Hin as (i & Hi & ->). by apply (Hk i).
  - intros Habsent. apply map_eq. intros k. rewrite Hlook.
    destruct (decide (k ∈ test_id ns <$> seq 0 n)) as [Hin|Hnin]; [|done].
    apply in_test_ids in Hin as (i & Hi & ->). symmetry. by apply Habsent.
  - congruence.
  - rewrite Hx2, Hx0, <- app_assoc. done.
Qed.

(** ** Measuring on request *)

Lemma stopMeasuring_step (b : Benchmark) :
  ∃ b', stopMeasuring b = (b', Done tt) ∧
    outbox b' = outbox b ++
      (if requestedMonitoringStartTime b is Some _ then [report_of b] else []) ∧
    activeTest b' = "none" ∧ monitoringActive b' = false ∧
    requestedMonitoringStartTime b' = None ∧
    cpuStats b' = delete "requestedMonitoring" (cpuStats b) ∧
    memStats b' = delete "requestedMonitoring" (memStats b) ∧
    internalEventLoopLags b'
      = delete "requestedMonitoring" (internalEventLoopLags b) ∧
    objects b' = objects b ∧ states b' = states b ∧
    requestedMonitoring b' = requestedMonitoring b ∧ detached b' = detached b.
Proof.
  unfold stopMeasuring, bind, modify, get_. simpl.
  destruct (requestedMonitoringStartTime b) as [t|].
  - unfold sendToAsync, sendTo, bind, modify. rewrite await_none by done.
    eexists. split; [reflexivity|]. simpl. by rewrite ?app_nil_r.
  - unfold ret. eexists. split; [reflexivity|]. simpl. by rewrite ?app_nil_r.
Qed.

Lemma onMessage_stopMeasuring_eq (obj : Message) (b : Benchmark) :
  secondaryMode (config b) = true → command obj = "stopMeasuring" →
  onMessage obj b = bind stopMeasuring (λ _, acknowledge obj) b.
Proof.
  intros Hsec Hcmd. rewrite onMessage_eq, Hsec. simpl negb. cbv iota.
  unfold onSecondaryMessage. rewrite Hcmd.
  destruct (decide ("stopMeasuring" = "objects")) as [Heq|_]; [discriminate Heq|].
  destruct (decide ("stopMeasuring" = "states")) as [Heq|_]; [discriminate Heq|].
  destruct (decide ("stopMeasuring" = "startMeasuring")) as [Heq|_];
    [discriminate Heq|].
  by rewrite decide_True.
Qed.

Lemma onMessage_startMeasuring_eq (obj : Message) (b : Benchmark) :
  secondaryMode (config b) = true → command obj = "startMeasuring" →
  onMessage obj b = bind startMeasuring (λ _, acknowledge obj) b.
Proof.
  intros Hsec Hcmd. rewrite onMessage_eq, Hsec. simpl negb. cbv iota.
  unfold onSecondaryMessage. rewrite Hcmd.
  destruct (decide ("startMeasuring" = "objects")) as [Heq|_]; [discriminate Heq|].
  destruct (decide ("startMeasuring" = "states")) as [Heq|_]; [discriminate Heq|].
  by rewrite decide_True.
Qed.

Lemma stopMeasuring_reports_core (obj : Message) (b : Benchmark) :
  secondaryMode (config b) = true → command obj = "stopMeasuring" →
  ∃ b', onMessage obj b = (b', Done tt) ∧
    outbox b' = outbox b ++
      (if requestedMonitoringStartTime b is Some _ then [report_of b] else []) ++ [ack_of obj] ∧
    activeTest b' = "none" ∧ monitoringActive b' = false ∧
    requestedMonitoringStartTime b' = None ∧
    cpuStats b' = delete "requestedMonitoring" (cpuStats b) ∧
    memStats b' = delete "requestedMonitoring" (memStats b) ∧
    internalEventLoopLags b'
      = delete "requestedMonitoring" (internalEventLoopLags b) ∧
    objects b' = objects b ∧ states b' = states b.
Proof.
  intros Hsec Hcmd. rewrite (onMessage_stopMeasuring_eq obj b Hsec Hcmd).
  unfold bind.
  destruct (stopMeasuring_step b)
    as (b' & -> & Hx & Ha & Hm & Ht & Hc & Hme & Hl & Ho & Hs & _).
  eexists. split; [reflexivity|]. simpl.
  rewrite Hx, <- app_assoc. done.
Qed.

(** X22.  A secondary and a 'stopMeasuring' message, with no awaited call
    rejecting, in any state: the report to benchmark.0 is sent exactly
    when a measurement had been started, and it goes out before the
    acknowledgement; in both cases the marker is 'none' afterwards,
    monitoring is switched off, the start time is forgotten and the three
    series kept for the request are gone, while the series of every other
    key, the objects and the states are as before. *)
Theorem stopMeasuring_reports_if_started (obj : Message) (b : Benchmark) :
  secondaryMode (config b) = true → command obj = "stopMeasuring" →
  ∃ b', onMessage obj b = (b', Done tt) ∧
    outbox b' = outbox b ++
      (if requestedMonitoringStartTime b is Some _ then [report_of b] else []) ++ [ack_of obj] ∧
    activeTest b' = "none" ∧ monitoringActive b' = false ∧
    requestedMonitoringStartTime b' = None ∧
    cpuStats b' = delete "requestedMonitoring" (cpuStats b) ∧
    memStats b' = delete "requestedMonitoring" (memStats b) ∧
    internalEventLoopLags b'
      = delete "requestedMonitoring" (internalEventLoopLags b) ∧
    objects b' = objects b ∧ states b' = states b.
Proof. apply stopMeasuring_reports_core. Qed.

(** X23.  One measurement on request, with no awaited call rejecting.  A
    secondary receives 'startMeasuring', its samplers then fire [ticks],
    and it receives 'stopMeasuring'.  What it sends is the first
    acknowledgement, one report and the second acknowledgement, in this
    order, and the report carries exactly the samples of [ticks], in
    order, and one elapsed time, whatever the series held before.  A
    primary that has no entry for the sender and is handed the report
    records exactly these samples for it. *)
Theorem measuring_session (sender1 sender2 : string) (m1 m2 cb1 cb2 : jsval)
    (ticks : list Tick) (b : Benchmark) :
  secondaryMode (config b) = true →
  let start := mkMessage sender1 "startMeasuring" m1 cb1 in
  let stop := mkMessage sender2 "stopMeasuring" m2 cb2 in
  let payload := VObj [("eventLoopLags", VArr (lag_of ticks));
                       ("memStats", VArr (mem_of ticks));
                       ("cpuStats", VArr (cpu_of ticks));
                       ("time", VArr [stopwatch env])] in
  ∃ b1 b2,
    onMessage start b = (b1, Done tt) ∧
    onMessage stop (ticked ticks b1) = (b2, Done tt) ∧
    outbox b2 = outbox b ++
      [ack_of start; mkSent "benchmark.0" "requestedMonitoring" payload None;
       ack_of stop] ∧
    activeTest b2 = "none" ∧ monitoringActive b2 = false ∧
    ∀ (src : string) (cb : jsval) (p : Benchmark),
      secondaryMode (config p) = false → requestedMonitoring p !! src = None →
      ∃ p', onMessage (mkMessage src "requestedMonitoring" payload cb) p
            = (p', Done tt) ∧
        requestedMonitoring p' !! src
        = Some (mkEntry [stopwatch env] (cpu_of ticks) (mem_of ticks) (lag_of ticks)).
Proof.
  intros Hsec start stop payload.
  set (b1 := (onMessage start b).1).
  assert (E1 : onMessage start b = (b1, Done tt)).
  { subst b1. by rewrite (onMessage_startMeasuring_eq start b Hsec eq_refl). }
  assert (F1 : activeTest b1 = "requestedMonitoring" ∧
               cpuStats b1 !! "requestedMonitoring" = Some [] ∧
               memStats b1 !! "requestedMonitoring" = Some [] ∧
               internalEventLoopLags b1 !! "requestedMonitoring" = Some [] ∧
               requestedMonitoringStartTime b1 = Some (hrtime env) ∧
               outbox b1 = outbox b ++ [ack_of start] ∧
               config b1 = config b).
  { subst b1. rewrite (onMessage_startMeasuring_eq start b Hsec eq_refl).
    simpl. by rewrite !lookup_insert_eq. }
  clearbody b1. destruct F1 as (Ha1 & Hc1 & Hm1 & Hl1 & Ht1 & Hx1 & Hcfg1).
  destruct (ticks_attributed ticks b1 "requestedMonitoring" [] [] [] Ha1
              ltac:(done) Hc1 Hm1 Hl1) as (Hc2 & Hm2 & Hl2).
  fold (ticked ticks b1) in Hc2, Hm2, Hl2.
  pose proof (ticks_frame ticks b1) as Hframe. fold (ticked ticks b1) in Hframe.
  destruct Hframe as (Hn & Hcfg & _ & _ & _ & _ & Hst & _ & _ & Hout & _).
  assert (Hsec2 : secondaryMode (config (ticked ticks b1)) = true)
    by (by rewrite Hcfg, Hcfg1).
  destruct (stopMeasuring_reports_core stop (ticked ticks b1) Hsec2 eq_refl)
    as (b2 & E2 & Hx2 & Ha2 & Hmon2 & _).
  exists b1, b2. split; [exact E1|]. split; [exact E2|].
  split; [|split; [exact Ha2|split; [exact Hmon2|]]].
  - rewrite Hx2, Hst, Ht1, Hout, Hx1, <- app_assoc. simpl.
    unfold report_of, series_value.
    rewrite Hc2, Hm2, Hl2, !lookup_insert_eq. simpl. done.
  - intros src cb p Hprim Hnew.
    eexists. split.
    + rewrite onMessage_eq, Hprim. simpl negb. cbv iota.
      rewrite onPrimaryMessage_report by done. unfold bind.
      rewrite (receiveMonitoring_object
                 (mkMessage src "requestedMonitoring" payload cb) _ p eq_refl).
      reflexivity.
    + simpl. rewrite lookup_insert_eq, Hnew. done.
Qed.

(** ** The two revisions of the handler *)

Lemma legacy_bulk_eq (msg : jsval) (on_set on_del : nat → M unit) :
  get_prop msg "cmd" ≠ Some (VStr "del") →
  legacy_bulk msg on_set = bulk msg on_set on_del.
Proof.
  intros Hdel. unfold legacy_bulk, bulk.
  destruct (typeof_is_object msg); [|done].
  destruct (get_prop msg "cmd") as [[| | | |cmd| |]|]; try done.
  destruct (get_prop msg "n") as [[| | |n| | |]|]; try done.
  destruct (decide (cmd = "set")); [done|].
  rewrite decide_False; [done|]. intros ->. by apply Hdel.
Qed.

(** X24.  On a secondary, the handler of the earlier revision and the
    current one do the same, step for step and with the same outcome, for
    every message that is neither 'startMeasuring' nor 'stopMeasuring' and
    whose payload does not ask for 'del': what the later revision added to
    the secondary's side is exactly the deletion requests and the
    measuring on request. *)
Theorem legacy_onMessage_agrees (obj : Message) (b : Benchmark) :
  secondaryMode (config b) = true →
  command obj ≠ "startMeasuring" → command obj ≠ "stopMeasuring" →
  get_prop (message obj) "cmd" ≠ Some (VStr "del") →
  legacy_onMessage obj b = onMessage obj b.
Proof.
  intros Hsec Hstart Hstop Hdel. rewrite onMessage_eq.
  unfold legacy_onMessage. unfold bind at 1, get_ at 1. rewrite Hsec.
  simpl negb. cbv iota. unfold onSecondaryMessage.
  destruct (decide (command obj = "objects")).
  { by rewrite (legacy_bulk_eq _ _ (λ i, delObjectAsync ("test." +:+ pretty i)) Hdel). }
  destruct (decide (command obj = "states")).
  { by rewrite (legacy_bulk_eq _ _ (λ i, delStateAsync ("test." +:+ pretty i)) Hdel). }
  by rewrite !decide_False.
Qed.

End NoRejection.

End Benchmark.

(** * Evaluations on explicit inputs *)

Ltac qc_eval :=
  vm_compute;
  repeat first [reflexivity | apply Qc_is_canon; reflexivity | progress f_equal].

Ltac in_registry :=
  intros w Hw;
  repeat (apply elem_of_cons in Hw as [->|Hw];
          [apply (bool_decide_unpack _); vm_compute; exact I|]);
  by apply elem_of_nil in Hw.

(** C1, as the specification words it, fails when [execute()] rejects:
    the run stops there, the marker keeps the workload's name although no
    [execute()] is running any more, and a sample taken afterwards is
    still filed under that workload. *)
Lemma marker_stuck_after_rejected_execute :
  let r := runTests sqrt6 [] failing_execute_env ["idle"] primary in
  idle_ok primary ∧
  r.2 = Thrown ∧ activeTest r.1 = "idle" ∧ activeTest r.1 ≠ "none" ∧
  monitoringActive r.1 = true ∧
  cpuStats (sampler_tick (StatTick (Fin (qz 5)) (Fin (qz 5))) r.1) !! "idle"
  = Some [Fin (qz 10); Fin (qz 20); Fin (qz 5)] ∧
  ¬ (∀ env selectedTests b,
       idle_ok b → activeTest (runTests sqrt6 [] env selectedTests b).1 = "none").
Proof.
  assert (Hidle : idle_ok primary).
  { split; [reflexivity|]. intros p m Hin. by apply elem_of_nil in Hin. }
  split; [exact Hidle|]. split; [vm_compute; reflexivity|].
  split; [vm_compute; reflexivity|]. split; [vm_compute; discriminate|].
  split; [vm_compute; reflexivity|]. split; [vm_compute; reflexivity|].
  intros H. specialize (H failing_execute_env ["idle"] primary Hidle).
  vm_compute in H. discriminate H.
Qed.

(** C4, as the specification words it, fails at -0.125, which is a
    double and lies exactly halfway between -0.13 and -0.12: rounding half
    away from zero gives -0.13; the code gives -0.12, the neighbour of
    smaller absolute value, because [Math.round] takes -12.5 to -12. *)
Lemma round_half_away_fails :
  let x := Binary64.dec (-125) 1000 in
  (Binary64.value x == -125 # 1000)%Q ∧
  Binary64.mul x (Binary64.of_Z 100) = Binary64.dec (-125) 10 ∧
  Binary64.Math_round (Binary64.dec (-125) 10) = Binary64.of_Z (-12) ∧
  Binary64.round x = Binary64.dec (-12) 100 ∧
  Binary64.round_half_away x = Binary64.dec (-13) 100 ∧
  Binary64.round x ≠ Binary64.round_half_away x.
Proof.
  split; [reflexivity|]. do 4 (split; [vm_compute; reflexivity|]).
  vm_compute. discriminate.
Qed.

(** [round] on doubles at decimals that are not doubles.  The doubles
    nearest to 0.615 and to 2.005 lie below these decimals, yet their
    products with 100 are the doubles 61.5 and 200.5, which [Math.round]
    takes up: the results are 0.62 and 2.01.  1.005 goes to 1, and the
    product of 1e307 and 100 overflows. *)
Lemma round_on_doubles :
  (Binary64.value (Binary64.dec 615 1000) < 615 # 1000)%Q ∧
  Binary64.mul (Binary64.dec 615 1000) (Binary64.of_Z 100) = Binary64.dec 615 10 ∧
  Binary64.round (Binary64.dec 615 1000) = Binary64.dec 62 100 ∧
  (Binary64.value (Binary64.dec 2005 1000) < 2005 # 1000)%Q ∧
  Binary64.round (Binary64.dec 2005 1000) = Binary64.dec 201 100 ∧
  Binary64.round (Binary64.dec 1005 1000) = Binary64.of_Z 1 ∧
  Binary64.round (Binary64.of_Z (10 ^ 307)) = SpecFloat.S754_infinity false.
Proof. repeat split; vm_compute; reflexivity. Qed.

(** C3, as the specification words it, fails on doubles: with 1e305
    iterations and the times 1 s and 1.02 s, both finite, the rounded
    deviation is 0.01 and [actionsPerSecondStd] is +Infinity, the product
    of 1e307 and 100 inside [round] being too large for a double. *)
Lemma actionsPerSecondStd_overflows :
  let iterations := Binary64.of_Z (10 ^ 305) in
  let times := [Binary64.of_Z 1; Binary64.dec 102 100] in
  times ≠ [] ∧
  Binary64.is_finite iterations = true ∧
  Forall (λ t, Binary64.is_finite t = true) times ∧
  Binary64.timeStd times = Binary64.dec 1 100 ∧
  Binary64.actionsPerSecondStd iterations times = SpecFloat.S754_infinity false ∧
  Binary64.is_finite (Binary64.actionsPerSecondStd iterations times) = false.
Proof.
  split; [discriminate|]. split; [reflexivity|].
  split; [repeat constructor|].
  repeat split; vm_compute; reflexivity.
Qed.

(** C3 at 'idle' with the times 1 s and 3 s and 100 iterations. *)
Lemma actionsPerSecondStd_spec_witness :
  let tStd := round (calcStd sqrt6 [Fin (qz 1); Fin (qz 3)]) in
  let apsStd := if js_neq_zero tStd then round (js_div (Fin (qz 100)) tStd)
                else Fin 0%Qc in
  ∃ b' stats secs,
    reduceWorkload sqrt6 calm_env "idle" [Fin (qz 1); Fin (qz 3)] idle_ready
    = (b', Done tt) ∧
    states b' !! "benchmark.0.idle.timeStd" = Some (mkState (SNum tStd) true) ∧
    states b' !! "benchmark.0.idle.actionsPerSecondStd"
    = Some (mkState (SNum apsStd) true) ∧
    states b' !! "benchmark.0.idle.summary"
    = Some (mkState (SSummary (mkSummary stats secs)) true) ∧
    timeStd stats = tStd ∧ actionsPerSecondStd stats = apsStd.
Proof.
  intros tStd apsStd.
  destruct (actionsPerSecondStd_spec sqrt6 calm_env (λ _, eq_refl) "idle"
              [Fin (qz 1); Fin (qz 3)] [] [] [] idle_ready)
    as (b' & stats & secs & Hrun & H1 & H2 & H3 & H4 & H5 & _).
  - reflexivity.
  - vm_compute. reflexivity.
  - vm_compute. reflexivity.
  - vm_compute. reflexivity.
  - exists b', stats, secs. by repeat (split; [assumption|]).
Defined.

(** The values of the run above: a deviation of 1 s gives 100 actions
    per second; equal times give a deviation of 0 and exactly 0. *)
Lemma actionsPerSecondStd_example :
  let r := λ times, (reduceWorkload sqrt6 calm_env "idle" times idle_ready).1 in
  states (r [Fin (qz 1); Fin (qz 3)]) !! "benchmark.0.idle.actionsPerSecondStd"
  = Some (mkState (SNum (Fin (qz 100))) true) ∧
  states (r [Fin (qz 2); Fin (qz 2)]) !! "benchmark.0.idle.timeStd"
  = Some (mkState (SNum (Fin 0%Qc)) true) ∧
  states (r [Fin (qz 2); Fin (qz 2)]) !! "benchmark.0.idle.actionsPerSecondStd"
  = Some (mkState (SNum (Fin 0%Qc)) true).
Proof. repeat split; qc_eval. Qed.

(** The marker invariant on a run of two workloads in which nothing
    rejects, and on 'startMeasuring' sent to a secondary. *)
Lemma marker_invariant_witness :
  idle_ok primary ∧
  marker_ok (observed (runTests sqrt6 [] calm_env ["idle"; "setStates"] primary).1) ∧
  activeTest (onMessage calm_env
                (mkMessage "system.adapter.benchmark.0" "startMeasuring"
                   VUndefined VUndefined) secondary).1
  = "requestedMonitoring".
Proof.
  assert (Hidle : idle_ok primary).
  { split; [reflexivity|]. intros p m Hin. by apply elem_of_nil in Hin. }
  destruct (marker_invariant sqrt6 [] calm_env ["idle"; "setStates"] primary Hidle)
    as [[Hlog _] Hmsg].
  split; [exact Hidle|]. split; [exact Hlog|]. apply Hmsg.
Defined.

(** Two epochs of two workloads, with samples arriving during every
    [prepare()] and [execute()]. *)
Lemma times_has_E_entries_witness :
  ∃ b' times,
    runTests sqrt6 [] calm_env ["idle"; "setStates"] primary = (b', Done times) ∧
    ∀ w, w ∈ ["idle"; "setStates"] →
         ∃ ts, times !! w = Some ts ∧ length ts = 2%nat.
Proof.
  apply (times_has_E_entries sqrt6 [] calm_env (λ _, eq_refl) 2
           ["idle"; "setStates"] primary); [lia|reflexivity|in_registry].
Defined.

(** The series of the run above, with the samples that went along. *)
Lemma times_example :
  let r := runTests sqrt6 [] calm_env ["idle"] primary in
  (default ∅ (match r.2 with Done times => Some times | _ => None end)) !! "idle"
  = Some [Fin (qnat 1); Fin (qnat 2)] ∧
  activeTest r.1 = "none" ∧ monitoringActive r.1 = false.
Proof. repeat split; vm_compute; reflexivity. Qed.

(** The second expiry of a sampler created at 100 ms with a target of
    50 ms, the expiries being at 160, 200 and 300 ms. *)
Lemma lag_reported_spec_witness :
  ∃ t prev q : Qc,
    [qz 160; qz 200; qz 300] !! 1%nat = Some t ∧
    [qz 100; qz 160; qz 200; qz 300] !! 1%nat = Some prev ∧
    Fin 0%Qc = Math_max (Fin 0%Qc) (js_sub (js_sub (Fin t) (Fin prev)) (Fin (qz 50))) ∧
    Fin 0%Qc = Fin q ∧ (0 <= q)%Qc ∧ (t - prev - qz 50 <= q)%Qc ∧
    (q = 0 ∨ q = t - prev - qz 50)%Qc.
Proof.
  apply (lag_reported_spec (qz 50) (qz 100)
           [(qz 160, true); (qz 200, false); (qz 300, true)] 1 (Fin 0%Qc)).
  vm_compute. reflexivity.
Defined.

(** Three expiries 60, 40 and 100 ms apart with a target of 50 ms: a lag
    of 10, then 0 for the early one, and nothing after the expiry that found
    monitoring switched off. *)
Lemma lags_example :
  lags_reported (Fin (qz 50))
    (timed [(qz 160, true); (qz 200, false); (qz 300, true)])
    (measureEventLoopLag (Fin (qz 100)))
  = [Fin (qz 10); Fin (qz 0)].
Proof. vm_compute. reflexivity. Qed.

(** A run of 'idle' and then 'setStates', with two epochs each; during
    each epoch of 'idle' two secondaries report a time of 4 s. *)
Lemma secondary_actionsPerSecondMean_witness :
  ∃ b' times own secs st,
    runTests sqrt6 [] busy_env ["idle"; "setStates"] primary = (b', Done times) ∧
    states b' !! "benchmark.0.idle.summary"
    = Some (mkState (SSummary (mkSummary own (Some secs))) true) ∧
    secs !! "system.adapter.benchmark.1" = Some st ∧
    timeMean st = round (calcMean [Fin (qz 4); Fin (qz 4)]) ∧
    actionsPerSecondMean st
    = round (js_div (js_div (Fin (qz 100)) (timeMean st)) (Fin (qz 2))).
Proof.
  destruct (secondary_actionsPerSecondMean sqrt6 [] busy_env (λ _, eq_refl)
              [] ["setStates"] "idle" primary eq_refl eq_refl)
    as (b' & times & own & Hrun & Hsum & _ & _ & _ & Hs).
  - in_registry.
  - apply (bool_decide_unpack _). vm_compute. exact I.
  - intros v j p Hv Hp. apply list_elem_of_singleton in Hv as ->.
    repeat (apply elem_of_cons in Hp as [->|Hp];
            [simpl; split; [intros st|]; apply not_elem_of_nil|]).
    by apply elem_of_nil in Hp.
  - destruct (Hs "system.adapter.benchmark.1")
      as (secs & st & Hsecs & Hst & Htm & _ & Htwo); [vm_compute; discriminate|].
    exists b', times, own, secs, st.
    split; [exact Hrun|]. split; [rewrite <- Hsecs; exact Hsum|].
    split; [exact Hst|]. split; [exact Htm|].
    apply Htwo. vm_compute. reflexivity.
Defined.

(** With 100 iterations, reported times of 4 s and two reporting
    instances: 100 / 4 / 2 = 12.5 actions per second in the summary of
    'idle', which the run of the two workloads leaves behind; 'setStates',
    during which nobody reports, has no secondaries. *)
Lemma secondary_example :
  let r := runTests sqrt6 [] busy_env ["idle"; "setStates"] primary in
  match states r.1 !! "benchmark.0.idle.summary" with
  | Some (mkState (SSummary (mkSummary _ (Some secs))) _) =>
      actionsPerSecondMean <$> secs !! "system.adapter.benchmark.1"
  | _ => None
  end
  = Some (Fin (qfrac 25 2)) ∧
  match states r.1 !! "benchmark.0.setStates.summary" with
  | Some (mkState (SSummary (mkSummary _ None)) _) => True
  | _ => False
  end.
Proof. split; [qc_eval|vm_compute; exact I]. Qed.



(** The end-to-end scenario of a secondary: 'objects' with
    [{cmd: 'set', n: 5}] creates five objects and is acknowledged once;
    'stopMeasuring' after 'startMeasuring' sends the report and then the
    acknowledgement. *)
Lemma secondary_scenario :
  let r := onMessage calm_env (set_objects_message 5) secondary in
  r.2 = Done tt ∧ size (objects r.1) = 5%nat ∧
  objects r.1 !! "benchmark.1.test.4" = Some (testObject 4) ∧
  outbox r.1
  = [mkSent "system.adapter.benchmark.0" "objects" (VObj []) (Some (VStr "cb2"))] ∧
  let start := mkMessage "system.adapter.benchmark.0" "startMeasuring"
                 VUndefined (VStr "cb4") in
  let stop := mkMessage "system.adapter.benchmark.0" "stopMeasuring"
                VUndefined (VStr "cb5") in
  s_command <$> outbox (onMessage calm_env stop (onMessage calm_env start secondary).1).1
  = ["startMeasuring"; "requestedMonitoring"; "stopMeasuring"].
Proof. repeat split; vm_compute; reflexivity. Qed.


(** The isolated-run scenario: of the adapter's own instance, three
    enabled instances and a disabled one, the three are stopped and
    recorded, and the run leaves the registry as it found it. *)
Lemma isolated_run_scenario :
  let b1 := (stopInstances busy_env isolated).1 in
  restartInstances b1
  = Some ["system.adapter.web.0"; "system.adapter.admin.0";
          "system.adapter.javascript.0"] ∧
  objects b1 !! "system.adapter.admin.0" = Some (instanceObject false) ∧
  objects b1 !! "system.adapter.benchmark.0" = Some (instanceObject true) ∧
  objects b1 !! "system.adapter.history.0" = Some (instanceObject false) ∧
  let r := runTests sqrt6 [] busy_env ["idle"] isolated in
  (∀ id, id ∈ ["system.adapter.benchmark.0"; "system.adapter.admin.0";
               "system.adapter.web.0"; "system.adapter.javascript.0";
               "system.adapter.history.0"] →
         objects r.1 !! id = registry !! id).
Proof.
  intros b1. do 4 (split; [vm_compute; reflexivity|]).
  intros r id Hid.
  repeat (apply elem_of_cons in Hid as [->|Hid]; [vm_compute; reflexivity|]).
  by apply elem_of_nil in Hid.
Qed.

(** C10 at the payload [null] in secondary mode: [typeof null] is
    'object', the read of [cmd] raises, and the handler rejects before
    the acknowledgement; nothing is written, nothing is sent. *)
Lemma null_payload_is_not_acknowledged :
  let r := onMessage calm_env null_objects_message secondary in
  typeof_is_object (message null_objects_message) = true ∧
  get_prop (message null_objects_message) "cmd" = None ∧
  r.2 = Thrown ∧ outbox r.1 = [] ∧
  objects r.1 = objects secondary ∧ states r.1 = states secondary.
Proof. repeat split; vm_compute; reflexivity. Qed.

(** The same payload sent to a primary as 'requestedMonitoring'. *)
Lemma null_report_is_not_acknowledged :
  let r := onMessage calm_env
             (mkMessage "system.adapter.benchmark.1" "requestedMonitoring"
                VNull (VStr "cb6")) primary in
  r.2 = Thrown ∧ outbox r.1 = [].
Proof. repeat split; vm_compute; reflexivity. Qed.

(** ** The further properties on explicit inputs *)

(** X5 at a series whose second sample is NaN. *)
Lemma NaN_sample_poisons_witness :
  calcMean [Fin (qz 1); NaN] = NaN ∧ calcStd sqrt6 [Fin (qz 1); NaN] = NaN.
Proof. apply NaN_sample_poisons. repeat constructor. Defined.

(** X7 at a secondary that has reported nothing. *)
Lemma empty_times_give_NaN_witness :
  let s := secondaryStats sqrt6 (Fin (qz 100)) 1 emptyEntry in
  timeMean s = NaN ∧ timeStd s = NaN ∧
  actionsPerSecondMean s = NaN ∧ actionsPerSecondStd s = NaN.
Proof.
  destruct (empty_times_give_NaN sqrt6 (Fin (qz 100)) [] [] [] 1 emptyEntry)
    as [_ H].
  apply H. reflexivity.
Defined.

(** X8 at [prepare()] of 'idle', during which one sample arrives. *)
Lemma samples_dropped_outside_execute_witness :
  fires calm_env (PPrepare "idle" 1) = [StatTick (Fin (qz 99)) (Fin (qz 99))] ∧
  suspended calm_env (PPrepare "idle" 1) primary
  = set_observed (observed primary ++ [(PPrepare "idle" 1, "none")]) primary.
Proof.
  split; [reflexivity|].
  apply (samples_dropped_outside_execute calm_env (PPrepare "idle" 1) primary).
  reflexivity.
Defined.

(** X9 at [execute()] of 'idle', during which three samples arrive. *)
Lemma samples_attributed_to_marker_witness :
  let b := set_activeTest "idle" idle_ready in
  let p := PExecute "idle" 1 in
  cpuStats (suspended calm_env p b)
  = <["idle" := [] ++ cpu_of (fires calm_env p)]> (cpuStats b) ∧
  memStats (suspended calm_env p b)
  = <["idle" := [] ++ mem_of (fires calm_env p)]> (memStats b) ∧
  internalEventLoopLags (suspended calm_env p b)
  = <["idle" := [] ++ lag_of (fires calm_env p)]> (internalEventLoopLags b) ∧
  length (cpu_of (fires calm_env p)) = length (mem_of (fires calm_env p)).
Proof.
  apply (samples_attributed_to_marker calm_env (PExecute "idle" 1)
           (set_activeTest "idle" idle_ready) "idle" [] [] []);
    [reflexivity|discriminate|vm_compute; reflexivity..].
Defined.

(** X10 at two epochs of 'idle', during which the workload works on
    the host and two secondaries report. *)
Lemma epochLoop_collects_witness :
  ∃ b', epochLoop busy_env "idle" 2 1 [] idle_ready
        = (b', Done ([] ++ (elapsed busy_env "idle" <$> seq 1 2))) ∧
    activeTest b' = "none" ∧
    cpuStats b'
    = <["idle" := [] ++ execute_samples busy_env cpu_of "idle" 1 2]> (cpuStats idle_ready) ∧
    host b' = host (after busy_env (epoch_events busy_env "idle" 1 2) idle_ready).
Proof.
  destruct (epochLoop_collects busy_env (λ _, eq_refl) "idle" 2 1 [] idle_ready
              [] [] []) as (b' & Hrun & Hnone & Hcpu & _ & _ & _ & Hhost).
  - apply (bool_decide_unpack _). vm_compute. exact I.
  - reflexivity.
  - vm_compute. reflexivity.
  - vm_compute. reflexivity.
  - vm_compute. reflexivity.
  - exists b'. split; [exact Hrun|]. split; [exact Hnone|].
    split; [exact Hcpu|exact Hhost].
Defined.

(** X11 at 'idle' with the times 1 s and 3 s. *)
Lemma reduceWorkload_persists_witness :
  ∃ b', reduceWorkload sqrt6 calm_env "idle" [Fin (qz 1); Fin (qz 3)] idle_ready
        = (b', Done tt) ∧
    states b' !! state_id "benchmark.0" "idle" ".timeMean"
    = Some (mkState (SNum (timeMean (ownStats sqrt6 (Fin (qz 100))
                                       [Fin (qz 1); Fin (qz 3)] [] [] []))) true) ∧
    cpuStats b' = delete "idle" (cpuStats idle_ready) ∧
    requestedMonitoring b' = ∅.
Proof.
  destruct (reduceWorkload_persists sqrt6 calm_env (λ _, eq_refl) "idle"
              [Fin (qz 1); Fin (qz 3)] [] [] [] idle_ready)
    as (b' & Hrun & _ & Hscalar & _ & Hcpu & _ & _ & Hrm & _).
  - reflexivity.
  - vm_compute. reflexivity.
  - vm_compute. reflexivity.
  - vm_compute. reflexivity.
  - exists b'. split; [exact Hrun|]. split; [|split; [exact Hcpu|exact Hrm]].
    apply (Hscalar ".timeMean" timeMean). unfold scalar_states. repeat constructor.
Defined.

(** X12 at two workloads and two epochs. *)
Lemma complete_run_witness :
  ∃ b' times,
    runTests sqrt6 [] calm_env ["idle"; "setStates"] primary = (b', Done times) ∧
    (∀ w, w ∈ ["idle"; "setStates"] →
          times !! w = Some (elapsed calm_env w <$> seq 1 2)) ∧
    activeTest b' = "none" ∧ monitoringActive b' = false.
Proof.
  destruct (complete_run sqrt6 [] calm_env (λ _, eq_refl) ["idle"; "setStates"]
              primary) as (b' & times & Hrun & Htimes & _ & Hnone & Hmon & _).
  - reflexivity.
  - in_registry.
  - exists b', times. split; [exact Hrun|]. split; [exact Htimes|].
    split; [exact Hnone|exact Hmon].
Defined.

(** X13 at a run of 'idle' on a primary that is not isolated. *)
Lemma plain_run_disturbs_nothing_witness :
  undisturbed busy_env primary (runTests sqrt6 [] busy_env ["idle"] primary).1.
Proof. apply plain_run_disturbs_nothing. reflexivity. Defined.

(** X15 at the command 'idle', with the payload [null]. *)
Lemma primary_dispatch_witness :
  let obj := mkMessage "system.adapter.admin.0" "idle" VNull (VStr "cb7") in
  onMessage calm_env obj primary
  = (set_outbox (outbox primary ++ [ack_of obj])
       (set_detached (detached primary ++ [["idle"]]) (started ["idle"] primary)),
     Done tt).
Proof.
  intros obj.
  destruct (primary_dispatch calm_env obj primary) as [H _];
    [reflexivity|discriminate|exact H].
Defined.

(** The inherited names: 'constructor' starts a run over itself, with
    its three series and monitoring switched on; '__proto__' starts a run
    over no workload, which leaves monitoring switched off. *)
Lemma inherited_names_start_runs :
  let msg := λ cmd, mkMessage "system.adapter.admin.0" cmd VNull (VStr "cb7") in
  let r := λ cmd, (onMessage calm_env (msg cmd) primary).1 in
  detached (r "constructor") = [["constructor"]] ∧
  monitoringActive (r "constructor") = true ∧
  cpuStats (r "constructor") !! "constructor" = Some [] ∧
  outbox (r "constructor") = [ack_of (msg "constructor")] ∧
  detached (r "__proto__") = [[]] ∧
  monitoringActive (r "__proto__") = false ∧
  detached (r "unknown") = [].
Proof. repeat split; vm_compute; reflexivity. Qed.

(** X25 at a run of 'idle', isolated and not, whose first awaited call
    rejects. *)
Lemma runTests_begins_with_start_witness :
  runTests sqrt6 [] failing_start_env ["idle"] isolated
  = (suspended failing_start_env PGetObjectView (started ["idle"] isolated), Thrown) ∧
  runTests sqrt6 [] failing_start_env ["idle"] primary
  = (suspended failing_start_env (PSetObjectNotExists "benchmark.0.idle")
       (started ["idle"] primary), Thrown).
Proof.
  destruct (runTests_begins_with_start sqrt6 [] failing_start_env ["idle"] isolated)
    as (H1 & _ & _).
  destruct (runTests_begins_with_start sqrt6 [] failing_start_env ["idle"] primary)
    as (_ & H2 & _).
  split; [apply H1; reflexivity|].
  apply (H2 eq_refl "idle" [] eq_refl). reflexivity.
Defined.

(** X16 at a first report carrying two cpu samples and one time. *)
Lemma report_accumulates_witness :
  let obj := report_message "system.adapter.benchmark.1" in
  onMessage calm_env obj primary
  = (set_outbox (outbox primary ++ [ack_of obj])
       (set_requestedMonitoring
          (<["system.adapter.benchmark.1"
             := mkEntry [Fin (qz 4)] [Fin (qz 10); Fin (qz 20)] [] []]>
             (requestedMonitoring primary)) primary), Done tt).
Proof.
  apply (report_accumulates calm_env (report_message "system.adapter.benchmark.1")
           _ primary eq_refl eq_refl eq_refl).
Defined.

(** X17 at one reporting secondary. *)
Lemma secondaries_are_the_reporters_witness :
  let rm : gmap string RequestedMonitoringEntry :=
    {["system.adapter.benchmark.1" := mkEntry [Fin (qz 4)] [] [] []]} in
  ∃ secs, attachSecondaries sqrt6 (Fin (qz 100)) rm = Some secs ∧
    ∀ s, secs !! s = secondaryStats sqrt6 (Fin (qz 100)) (size rm) <$> rm !! s.
Proof.
  intros rm.
  destruct (secondaries_are_the_reporters sqrt6 (Fin (qz 100)) rm)
    as [[Hnone _] Hsome].
  destruct (attachSecondaries sqrt6 (Fin (qz 100)) rm) as [secs|] eqn:E.
  - exists secs. split; [reflexivity|]. apply Hsome. reflexivity.
  - exfalso. specialize (Hnone eq_refl).
    apply (f_equal (λ m, m !! "system.adapter.benchmark.1")) in Hnone.
    vm_compute in Hnone. discriminate Hnone.
Defined.

(** X20 at three objects on a secondary whose store is empty. *)
Lemma objects_set_then_del_witness :
  ∃ b1 b2,
    onMessage calm_env (mkMessage "system.adapter.benchmark.0" "objects"
                          (bulk_payload "set" 3) (VStr "cb1")) secondary
    = (b1, Done tt) ∧
    onMessage calm_env (mkMessage "system.adapter.benchmark.0" "objects"
                          (bulk_payload "del" 3) (VStr "cb2")) b1
    = (b2, Done tt) ∧
    objects b1 !! test_id "benchmark.1" 2 = Some (testObject 2) ∧
    objects b2 = objects secondary.
Proof.
  destruct (objects_set_then_del calm_env (λ _, eq_refl) "system.adapter.benchmark.0"
              (VStr "cb1") (VStr "cb2") 3 secondary eq_refl)
    as (b1 & b2 & H1 & H2 & Hset & _ & _ & Hback & _).
  exists b1, b2. split; [exact H1|]. split; [exact H2|].
  split; [apply Hset; lia|]. apply Hback. intros i _. reflexivity.
Defined.

(** X21 at three states on a secondary whose store is empty. *)
Lemma states_set_then_del_witness :
  ∃ b1 b2,
    onMessage calm_env (mkMessage "system.adapter.benchmark.0" "states"
                          (bulk_payload "set" 3) (VStr "cb1")) secondary
    = (b1, Done tt) ∧
    onMessage calm_env (mkMessage "system.adapter.benchmark.0" "states"
                          (bulk_payload "del" 3) (VStr "cb2")) b1
    = (b2, Done tt) ∧
    states b1 !! test_id "benchmark.1" 2 = Some (mkState (SNum (Fin (qnat 2))) true) ∧
    states b2 = states secondary.
Proof.
  destruct (states_set_then_del calm_env (λ _, eq_refl) "system.adapter.benchmark.0"
              (VStr "cb1") (VStr "cb2") 3 secondary eq_refl)
    as (b1 & b2 & H1 & H2 & Hset & _ & _ & Hback & _).
  exists b1, b2. split; [exact H1|]. split; [exact H2|].
  split; [apply Hset; lia|]. apply Hback. intros i _. reflexivity.
Defined.

(** X22 at a secondary that was never asked to start measuring: the
    acknowledgement is all it sends. *)
Lemma stopMeasuring_reports_if_started_witness :
  let stop := mkMessage "system.adapter.benchmark.0" "stopMeasuring"
                VUndefined (VStr "cb5") in
  ∃ b', onMessage calm_env stop secondary = (b', Done tt) ∧
        outbox b' = [ack_of stop] ∧ activeTest b' = "none".
Proof.
  intros stop.
  destruct (stopMeasuring_reports_if_started calm_env (λ _, eq_refl) stop secondary
              eq_refl eq_refl) as (b' & Hrun & Hout & Hnone & _).
  exists b'. split; [exact Hrun|]. split; [exact Hout|exact Hnone].
Defined.

(** X23 at a measurement during which two probes and one timer fire. *)
Lemma measuring_session_witness :
  let ticks := [StatTick (Fin (qz 10)) (Fin (qz 100)); LagTick (Fin (qz 1));
                StatTick (Fin (qz 20)) (Fin (qz 200))] in
  let payload := VObj [("eventLoopLags", VArr [Fin (qz 1)]);
                       ("memStats", VArr [Fin (qz 100); Fin (qz 200)]);
                       ("cpuStats", VArr [Fin (qz 10); Fin (qz 20)]);
                       ("time", VArr [Fin (qz 3)])] in
  let start := mkMessage "system.adapter.benchmark.0" "startMeasuring"
                 VUndefined (VStr "cb4") in
  let stop := mkMessage "system.adapter.benchmark.0" "stopMeasuring"
                VUndefined (VStr "cb5") in
  ∃ b1 b2,
    onMessage calm_env start secondary = (b1, Done tt) ∧
    onMessage calm_env stop (ticked ticks b1) = (b2, Done tt) ∧
    outbox b2
    = [ack_of start; mkSent "benchmark.0" "requestedMonitoring" payload None;
       ack_of stop] ∧
    ∃ p', onMessage calm_env
            (mkMessage "system.adapter.benchmark.1" "requestedMonitoring" payload
               (VStr "cb3")) primary
          = (p', Done tt) ∧
      requestedMonitoring p' !! "system.adapter.benchmark.1"
      = Some (mkEntry [Fin (qz 3)] [Fin (qz 10); Fin (qz 20)]
                [Fin (qz 100); Fin (qz 200)] [Fin (qz 1)]).
Proof.
  intros ticks payload start stop.
  destruct (measuring_session calm_env (λ _, eq_refl)
              "system.adapter.benchmark.0" "system.adapter.benchmark.0"
              VUndefined VUndefined (VStr "cb4") (VStr "cb5") ticks secondary eq_refl)
    as (b1 & b2 & H1 & H2 & Hout & _ & _ & Hprim).
  exists b1, b2. split; [exact H1|]. split; [exact H2|]. split; [exact Hout|].
  apply (Hprim "system.adapter.benchmark.1" (VStr "cb3") primary); reflexivity.
Defined.

(** X24 at 'objects' with [{cmd: 'set', n: 3}]. *)
Lemma legacy_onMessage_agrees_witness :
  legacy_onMessage calm_env (set_objects_message 3) secondary
  = onMessage calm_env (set_objects_message 3) secondary.
Proof.
  apply legacy_onMessage_agrees;
    [reflexivity|discriminate|discriminate|vm_compute; intros H; discriminate H].
Defined.
